(** * Neutron: the recommendation ledger, its review scheduler and the
      knowledge-store consolidation, embedded from the TypeScript sources.

    - [JsString]: JavaScript strings as sequences of UTF-16 code units.
    - [JsDate]: the time values of [Date], the proleptic Gregorian calendar of
      ECMAScript, [toISOString] and the clock of New York.
    - [Regex]: a backtracking matcher for the regular expressions the sources
      use (greedy quantifiers, numbered captures, leftmost match).
    - [Performance]: performance.ts (src/unnamed/part_001), the ledger
      document and its operations.
    - [Scheduler]: the scheduler (src/unnamed/part_004), the nightly and the
      weekly review.
    - [BrainManager]: src/src/brain-manager.ts, consolidation of old daily
      files.

    The persisted document and the brain directory are threaded explicitly:
    every operation of the source loads the whole document, changes it and
    saves it, so it is a function from the document to the document. Clock
    readings ([Date.now()], [new Date()]) are arguments. Local time of the
    host is UTC, as the scheduler states ("Server runs in UTC"). *)

From Stdlib Require Import ZArith NArith String Ascii Bool Lia List Permutation.
From Stdlib Require Import PrimFloat Uint63 FloatOps SpecFloat FloatAxioms.
Import ListNotations.


(* ================================================================== *)
(** ** JavaScript strings *)
(* ================================================================== *)

Module JsString.

(** A string is the list of its UTF-16 code units. *)
Definition t := list N.

(** The literal [js "abc"]: the code units of an ASCII literal. *)
Definition js (s : string) : t :=
  List.map N_of_ascii (list_ascii_of_string s).

Definition LF : N := 10%N.
Definition CR : N := 13%N.

(** WhiteSpace and LineTerminator code points (ECMA-262, 12.2 and 12.3):
    what [\s] matches and what [trim] strips. *)
Definition isSpace (c : N) : bool :=
  ((9 <=? c) && (c <=? 13) || (c =? 32) || (c =? 160) || (c =? 5760)
   || (8192 <=? c) && (c <=? 8202) || (c =? 8232) || (c =? 8233)
   || (c =? 8239) || (c =? 8287) || (c =? 12288) || (c =? 65279))%N.

(** LineTerminator: what [.] does not match. *)
Definition isLineTerminator (c : N) : bool :=
  ((c =? 10) || (c =? 13) || (c =? 8232) || (c =? 8233))%N.

Definition isDigit (c : N) : bool := ((48 <=? c) && (c <=? 57))%N.

(** Case folding of the [i] flag without the [u] flag (Canonicalize,
    ECMA-262 22.2.2.7.3): a code unit of 128 or more never folds to one
    below 128, so against an ASCII pattern character only the ASCII letters
    fold. *)
Definition upperAscii (c : N) : N :=
  if ((97 <=? c) && (c <=? 122))%N then (c - 32)%N else c.

Definition lowerAscii (c : N) : N :=
  if ((65 <=? c) && (c <=? 90))%N then (c + 32)%N else c.

(** [toLowerCase], on the strings the sources apply it to: the text captured
    by [(correct|wrong|partial|skip)], which is made of ASCII letters. *)
Definition toLowerCase (s : t) : t := List.map lowerAscii s.

Fixpoint eqb (a b : t) : bool :=
  match a, b with
  | [], [] => true
  | x :: a', y :: b' => (x =? y)%N && eqb a' b'
  | _, _ => false
  end.

(** [a <= b] on strings: code unit by code unit, a proper prefix first. *)
Fixpoint leb (a b : t) : bool :=
  match a, b with
  | [], _ => true
  | _ :: _, [] => false
  | x :: a', y :: b' =>
      if (x <? y)%N then true else if (y <? x)%N then false else leb a' b'
  end.

(** [a >= b]. *)
Definition geb (a b : t) : bool := leb b a.

Fixpoint startsWith (s p : t) : bool :=
  match p, s with
  | [], _ => true
  | _ :: _, [] => false
  | y :: p', x :: s' => (x =? y)%N && startsWith s' p'
  end.

Definition endsWith (s p : t) : bool := startsWith (rev s) (rev p).

Fixpoint trimStart (s : t) : t :=
  match s with
  | c :: s' => if isSpace c then trimStart s' else s
  | [] => []
  end.

Definition trimEnd (s : t) : t := rev (trimStart (rev s)).

Definition trim (s : t) : t := trimEnd (trimStart s).

(** [s.slice(0, n)]. *)
Definition slice0 (n : nat) (s : t) : t := firstn n s.

(** [arr.slice(-n)]: the last [n] elements. *)
Definition sliceLast {A} (n : nat) (l : list A) : list A :=
  skipn (List.length l - n) l.

(** [s.split(sep)[0]] for a one-unit separator: the text before its first
    occurrence, the whole string when there is none. *)
Fixpoint splitHead (sep : N) (s : t) : t :=
  match s with
  | [] => []
  | c :: s' => if (c =? sep)%N then [] else c :: splitHead sep s'
  end.

(** [parts.join(sep)]. *)
Fixpoint join (sep : t) (parts : list t) : t :=
  match parts with
  | [] => []
  | [p] => p
  | p :: rest => p ++ sep ++ join sep rest
  end.

(** Decimal digit of [0 <= d < 10]. *)
Definition digit (d : Z) : N := (48 + Z.to_N d)%N.

(** The last [w] decimal digits of [n], most significant first. *)
Fixpoint padDigits (w : nat) (n : Z) (acc : t) : t :=
  match w with
  | O => acc
  | S w' => padDigits w' (n / 10) (digit (n mod 10) :: acc)
  end.

Definition pad (w : nat) (n : Z) : t := padDigits w n [].

(** Digit of a radix up to 36: [0-9] then [a-z]. *)
Definition digit36 (d : Z) : N :=
  if (d <? 10)%Z then (48 + Z.to_N d)%N else (87 + Z.to_N d)%N.

(** Digits of [n > 0] in the radix, least significant first. *)
Fixpoint digitsOf (radix : Z) (fuel : nat) (n : Z) : list Z :=
  match fuel with
  | O => []
  | S f =>
      if (n <=? 0)%Z then []
      else (n mod radix)%Z :: digitsOf radix f (n / radix)
  end.

(** [n.toString(radix)] for an integer [n]. *)
Definition toStringRadix (radix n : Z) : t :=
  if (n =? 0)%Z then [digit36 0]
  else
    let a := Z.abs n in
    let ds :=
      List.map digit36 (rev (digitsOf radix (S (Z.to_nat (Z.log2 a))) a)) in
    if (n <? 0)%Z then 45%N :: ds else ds.

Definition toString36 (n : Z) : t := toStringRadix 36 n.

(** [`${n}`] for an integer [n]. *)
Definition toString10 (n : Z) : t := toStringRadix 10 n.

(** [s.lastIndexOf(pat, pos)] for an integer [pos] (ECMA-262 22.1.3.11):
    the largest index, at most [pos] and at most [s.length - pat.length], at
    which [pat] occurs in [s]; -1 when there is none. *)
Fixpoint lastIndexFrom (s pat : t) (i : nat) : Z :=
  if startsWith (skipn i s) pat then Z.of_nat i
  else
    match i with
    | O => (-1)%Z
    | S i' => lastIndexFrom s pat i'
    end.

Definition lastIndexOf (s pat : t) (pos : Z) : Z :=
  let len := Z.of_nat (List.length s) in
  let searchLen := Z.of_nat (List.length pat) in
  if (len <? searchLen)%Z then (-1)%Z
  else lastIndexFrom s pat (Z.to_nat (Z.min (Z.max pos 0) (len - searchLen))).

(** The two halves of a surrogate pair: D800 to DBFF leads, DC00 to DFFF
    trails. *)
Definition isLeadSurrogate (c : N) : bool :=
  ((55296 <=? c) && (c <=? 56319))%N.

Definition isTrailSurrogate (c : N) : bool :=
  ((56320 <=? c) && (c <=? 57343))%N.

(** The string as UTF-8 carries it: encoding replaces every surrogate that
    is not half of a pair by U+FFFD (65533), and decoding gives the rest
    back as it was. This is [s.toWellFormed()] (ECMA-262 22.1.3.31). *)
Fixpoint toWellFormed (s : t) : t :=
  match s with
  | [] => []
  | c :: rest =>
      if isLeadSurrogate c then
        match rest with
        | d :: rest' =>
            if isTrailSurrogate d then c :: d :: toWellFormed rest'
            else 65533%N :: toWellFormed rest
        | [] => [65533%N]
        end
      else if isTrailSurrogate c then 65533%N :: toWellFormed rest
      else c :: toWellFormed rest
  end.

End JsString.

Abbreviation js := JsString.js.

(* ================================================================== *)
(** ** Time values and the calendar of [Date] *)
(* ================================================================== *)

Module JsDate.
Local Open Scope Z_scope.

(** A time value: milliseconds since 1970-01-01T00:00:00Z (ECMA-262 21.4.1). *)
Definition time := Z.

(** A [Date] object holds a time value or NaN (an invalid date). *)
Definition Date := option time.

Definition msPerSecond : Z := 1000.
Definition msPerMinute : Z := 60000.
Definition msPerHour : Z := 3600000.
Definition msPerDay : Z := 86400000.

Definition Day (t : time) : Z := t / msPerDay.
Definition TimeWithinDay (t : time) : Z := t mod msPerDay.

(** 0 is Sunday, 1 Monday, ..., 6 Saturday; 1970-01-01 was a Thursday. *)
Definition WeekDayOfDay (day : Z) : Z := (day + 4) mod 7.
Definition WeekDay (t : time) : Z := WeekDayOfDay (Day t).

(** Day number of a civil date of the proleptic Gregorian calendar, for a
    month [1 <= m <= 12] and any day of the month [d] (days outside the month
    run into the neighbouring months). Years are counted from March, in eras
    of 400 years (146097 days). *)
Definition daysFromCivil (y m d : Z) : Z :=
  let y' := if m <=? 2 then y - 1 else y in
  let era := y' / 400 in
  let yoe := y' - era * 400 in
  let mp := if m <=? 2 then m + 9 else m - 3 in
  let doy := (153 * mp + 2) / 5 + d - 1 in
  let doe := yoe * 365 + yoe / 4 - yoe / 100 + doy in
  era * 146097 + doe - 719468.

(** Civil date (year, month 1..12, day 1..31) of a day number. *)
Definition civilFromDays (z : Z) : Z * Z * Z :=
  let z' := z + 719468 in
  let era := z' / 146097 in
  let doe := z' mod 146097 in
  let yoe := (doe - doe / 1460 + doe / 36524 - doe / 146096) / 365 in
  let doy := doe - (365 * yoe + yoe / 4 - yoe / 100) in
  let mp := (5 * doy + 2) / 153 in
  let d := doy - (153 * mp + 2) / 5 + 1 in
  let m := if mp <? 10 then mp + 3 else mp - 9 in
  let y := yoe + era * 400 in
  (if m <=? 2 then y + 1 else y, m, d).

Definition YearFromTime (t : time) : Z := fst (fst (civilFromDays (Day t))).
(** Months are numbered from 0 (January). *)
Definition MonthFromTime (t : time) : Z := snd (fst (civilFromDays (Day t))) - 1.
Definition DateFromTime (t : time) : Z := snd (civilFromDays (Day t)).

Definition HourFromTime (t : time) : Z := (t / msPerHour) mod 24.
Definition MinFromTime (t : time) : Z := (t / msPerMinute) mod 60.
Definition SecFromTime (t : time) : Z := (t / msPerSecond) mod 60.
Definition msFromTime (t : time) : Z := t mod msPerSecond.

(** [MakeDay(year, month, date)] with [month] counted from 0; a month outside
    0..11 carries into the year. *)
Definition MakeDay (year month date : Z) : Z :=
  daysFromCivil (year + month / 12) (month mod 12 + 1) 1 + date - 1.

Definition MakeDate (day tm : Z) : time := day * msPerDay + tm.

(** [d.getDate()], [d.getDay()] and [d.setDate(n)] read and write the fields
    of local time. The host runs in UTC (scheduler.ts, line 17: "Server runs
    in UTC"), so local time is UTC. *)
Definition getDate (d : Date) : option Z := option_map DateFromTime d.
Definition getDay (d : Date) : option Z := option_map WeekDay d.

Definition setDate (d : Date) (dt : option Z) : Date :=
  match d, dt with
  | Some t, Some n =>
      Some (MakeDate (MakeDay (YearFromTime t) (MonthFromTime t) n)
                     (TimeWithinDay t))
  | _, _ => None
  end.

(** The year of [toISOString]: four digits for 0..9999, otherwise a sign and
    six digits. *)
Definition isoYear (y : Z) : JsString.t :=
  if (0 <=? y) && (y <=? 9999) then JsString.pad 4 y
  else (if y <? 0 then 45%N else 43%N) :: JsString.pad 6 (Z.abs y).

(** [YYYY-MM-DD] of a day number. *)
Definition isoDateOfDay (day : Z) : JsString.t :=
  let '(y, m, d) := civilFromDays day in
  isoYear y ++ js "-" ++ JsString.pad 2 m ++ js "-" ++ JsString.pad 2 d.

Definition isoDate (t : time) : JsString.t := isoDateOfDay (Day t).

(** [new Date(t).toISOString()]: [YYYY-MM-DDTHH:mm:ss.sssZ]. *)
Definition toISOString (t : time) : JsString.t :=
  isoDate t ++ js "T" ++ JsString.pad 2 (HourFromTime t) ++ js ":"
    ++ JsString.pad 2 (MinFromTime t) ++ js ":"
    ++ JsString.pad 2 (SecFromTime t) ++ js "."
    ++ JsString.pad 3 (msFromTime t) ++ js "Z".

(** [new Date(t).toISOString().split('T')[0]]. *)
Definition isoDay (t : time) : JsString.t :=
  JsString.splitHead 84%N (toISOString t).

(** Value of a run of decimal digits. *)
Definition digitsValue (ds : JsString.t) : Z :=
  fold_left (fun acc c => acc * 10 + (Z.of_N c - 48)) ds 0.

(** [new Date(s)] for a ten-unit text [dddd-dd-dd], as Node's V8 reads the
    date-only ISO form: midnight UTC of that day when the month is 01..12
    and the day 01..31 (a day past the end of the month runs into the next
    month), an invalid date otherwise. *)
Definition parseISODate (s : JsString.t) : Date :=
  let y := digitsValue (firstn 4 s) in
  let m := digitsValue (firstn 2 (skipn 5 s)) in
  let d := digitsValue (firstn 2 (skipn 8 s)) in
  if (1 <=? m) && (m <=? 12) && (1 <=? d) && (d <=? 31)
  then Some (MakeDate (MakeDay y (m - 1) d) 0)
  else None.

(** *** America/New_York

    The offset of local time from UTC under the rules in force since 2007:
    daylight time (UTC-4) from 02:00 EST of the second Sunday of March to
    02:00 EDT of the first Sunday of November, standard time (UTC-5)
    otherwise. *)
Definition nthSunday (y m n : Z) : Z :=
  let first := daysFromCivil y m 1 in
  first + (7 - WeekDayOfDay first) mod 7 + 7 * (n - 1).

Definition newYorkOffset (t : time) : Z :=
  let y := YearFromTime t in
  let dstStart := nthSunday y 3 2 * msPerDay + 7 * msPerHour in
  let dstEnd := nthSunday y 11 1 * msPerDay + 6 * msPerHour in
  if (dstStart <=? t) && (t <? dstEnd) then - 4 * msPerHour else - 5 * msPerHour.

(** [new Date(now.toLocaleString('en-US', { timeZone: 'America/New_York' }))]:
    the wall clock of New York, to the second, read back as a local time of
    the host, which is UTC. *)
Definition toNewYorkWallClock (now : time) : time :=
  (now + newYorkOffset now) / msPerSecond * msPerSecond.

End JsDate.

(* ================================================================== *)
(** ** Regular expressions *)
(* ================================================================== *)

Module Regex.

(** The fragment of the pattern language the sources use. Quantifiers are
    greedy; [Alt] tries its left side first. *)
Inductive re : Type :=
| Eps
| Chr (p : N -> bool)
| Seq (r1 r2 : re)
| Alt (r1 r2 : re)
| Star (r : re)
| Group (n : nat) (r : re).

(** Captured texts, the most recent first. *)
Definition captures := list (nat * JsString.t).

Fixpoint capture (n : nat) (caps : captures) : option JsString.t :=
  match caps with
  | [] => None
  | (k, s) :: caps' => if Nat.eqb k n then Some s else capture n caps'
  end.

(** The text consumed between the input [s] and its suffix [s']. *)
Definition consumed (s s' : JsString.t) : JsString.t :=
  firstn (List.length s - List.length s') s.

(** The backtracking matcher of ECMA-262 22.2.2, in continuation-passing
    style: [run r s caps k] matches [r] at the head of [s] and hands the rest
    of the input to [k]; when [k] fails, the next alternative is tried. An
    iteration of [Star] that consumes nothing is rejected, as in the
    standard. *)
Section Run.
Variable R : Type.

Fixpoint run (r : re) (s : JsString.t) (caps : captures)
    (k : JsString.t -> captures -> option R) {struct r} : option R :=
  match r with
  | Eps => k s caps
  | Chr p =>
      match s with
      | c :: s' => if p c then k s' caps else None
      | [] => None
      end
  | Seq r1 r2 => run r1 s caps (fun s' caps' => run r2 s' caps' k)
  | Alt r1 r2 =>
      match run r1 s caps k with
      | Some x => Some x
      | None => run r2 s caps k
      end
  | Star r1 =>
      (fix star (fuel : nat) (s : JsString.t) (caps : captures)
           {struct fuel} : option R :=
         match fuel with
         | O => k s caps
         | S fuel' =>
             match run r1 s caps
                     (fun s' caps' =>
                        if Nat.ltb (List.length s') (List.length s)
                        then star fuel' s' caps' else None) with
             | Some x => Some x
             | None => k s caps
             end
         end) (List.length s) s caps
  | Group n r1 =>
      run r1 s caps (fun s' caps' => k s' ((n, consumed s s') :: caps'))
  end.
End Run.

Arguments run {R} r s caps k.

(** A match: the matched text, the captures and the input after it. *)
Record result : Type := mkResult {
  matched : JsString.t;
  groups : captures;
  rest : JsString.t
}.

Definition matchAt (r : re) (s : JsString.t) : option result :=
  run r s [] (fun s' caps => Some (mkResult (consumed s s') caps s')).

(** [s.match(r)] without the [g] flag: the leftmost match. *)
Fixpoint search (r : re) (s : JsString.t) : option result :=
  match matchAt r s with
  | Some m => Some m
  | None =>
      match s with
      | [] => None
      | _ :: s' => search r s'
      end
  end.

(** [s.match(r)] with the [g] flag: the matched texts, left to right, each
    search starting where the previous match ended (one unit further after an
    empty match). *)
Fixpoint matchAllFrom (fuel : nat) (r : re) (s : JsString.t)
    : list JsString.t :=
  match fuel with
  | O => []
  | S fuel' =>
      match search r s with
      | None => []
      | Some m =>
          matched m ::
            match matched m, rest m with
            | [], [] => []
            | [], _ :: s' => matchAllFrom fuel' r s'
            | _ :: _, s' => matchAllFrom fuel' r s'
            end
      end
  end.

Definition matchAll (r : re) (s : JsString.t) : list JsString.t :=
  matchAllFrom (S (List.length s)) r s.

(** *** Pattern notation *)

(** A pattern character under the [i] flag. *)
Definition chrI (c : N) : re :=
  Chr (fun x => (JsString.upperAscii x =? JsString.upperAscii c)%N).

(** A pattern character without flag. *)
Definition chr (c : N) : re := Chr (fun x => (x =? c)%N).

Fixpoint seqOf (f : N -> re) (s : JsString.t) : re :=
  match s with
  | [] => Eps
  | [c] => f c
  | c :: s' => Seq (f c) (seqOf f s')
  end.

(** Literal text, with and without the [i] flag. *)
Definition litI (s : string) : re := seqOf chrI (js s).
Definition lit (s : string) : re := seqOf chr (js s).

Definition Plus (r : re) : re := Seq r (Star r).
Definition Opt (r : re) : re := Alt r Eps.

(** [r{n}] and [r{0,n}]. *)
Fixpoint Times (n : nat) (r : re) : re :=
  match n with
  | O => Eps
  | S n' => Seq r (Times n' r)
  end.

Fixpoint UpTo (n : nat) (r : re) : re :=
  match n with
  | O => Eps
  | S n' => Opt (Seq r (UpTo n' r))
  end.

(** [r{lo,hi}]. *)
Definition Between (lo hi : nat) (r : re) : re :=
  Seq (Times lo r) (UpTo (hi - lo) r).

(** [\s], [\d], [.] and [[^...]]. *)
Definition space : re := Chr JsString.isSpace.
Definition digit : re := Chr JsString.isDigit.
Definition dot : re := Chr (fun c => negb (JsString.isLineTerminator c)).
Definition noneOf (cs : list N) : re :=
  Chr (fun c => negb (existsb (N.eqb c) cs)).
Definition oneOf (cs : list N) : re :=
  Chr (fun c => existsb (N.eqb c) cs).
Definition classOr (p q : N -> bool) : re := Chr (fun c => p c || q c).

Fixpoint seqs (rs : list re) : re :=
  match rs with
  | [] => Eps
  | [r] => r
  | r :: rs' => Seq r (seqs rs')
  end.

(** [match[n]] of a successful match; the groups read here always take
    part in the match. *)
Definition group (n : nat) (m : result) : JsString.t :=
  match capture n (groups m) with
  | Some s => s
  | None => []
  end.

End Regex.

(* ================================================================== *)
(** ** performance.ts: the ledger *)
(* ================================================================== *)

Module Performance.
Import JsDate.
Local Open Scope Z_scope.

Inductive Direction : Type := bullish | bearish | neutral.

(** [outcome?: 'correct' | 'wrong' | 'partial' | 'pending']. *)
Inductive Outcome : Type := correct | wrong | partial | pending.

(** The outcomes an update may carry: ['correct' | 'wrong' | 'partial']. *)
Inductive Verdict : Type := Correct | Wrong | Partial.

Definition outcomeOf (v : Verdict) : Outcome :=
  match v with
  | Correct => correct
  | Wrong => wrong
  | Partial => partial
  end.

Record Recommendation : Type := mkRecommendation {
  id : JsString.t;
  date : JsString.t;
  ticker : JsString.t;
  direction : Direction;
  confidence : Z;
  type : JsString.t;
  summary : JsString.t;
  outcome : option Outcome;
  reviewedAt : option JsString.t;
  reviewNotes : option JsString.t
}.

Record WeeklyScore : Type := mkWeeklyScore {
  weekOf : JsString.t;
  totalCalls : Z;
  correctCalls : Z;
  wrongCalls : Z;
  partialCalls : Z;
  accuracy : Z;
  bestCall : JsString.t;
  worstCall : JsString.t;
  lesson : JsString.t
}.

Record PerformanceData : Type := mkPerformanceData {
  recommendations : list Recommendation;
  weeklyScores : list WeeklyScore;
  strategyNotes : list JsString.t;
  lastNightlyReview : JsString.t;
  lastWeeklyReview : JsString.t
}.

Definition defaultPerformance : PerformanceData :=
  mkPerformanceData [] [] [] [] [].

Definition setRecommendations (data : PerformanceData)
    (recs : list Recommendation) : PerformanceData :=
  mkPerformanceData recs (weeklyScores data) (strategyNotes data)
    (lastNightlyReview data) (lastWeeklyReview data).

Definition setWeeklyScores (data : PerformanceData)
    (ws : list WeeklyScore) : PerformanceData :=
  mkPerformanceData (recommendations data) ws (strategyNotes data)
    (lastNightlyReview data) (lastWeeklyReview data).

Definition setStrategyNotes (data : PerformanceData)
    (notes : list JsString.t) : PerformanceData :=
  mkPerformanceData (recommendations data) (weeklyScores data) notes
    (lastNightlyReview data) (lastWeeklyReview data).

(** [{ ...rec, id }]. *)
Definition withId (rec : Recommendation) (newId : JsString.t)
    : Recommendation :=
  mkRecommendation newId (date rec) (ticker rec) (direction rec)
    (confidence rec) (type rec) (summary rec) (outcome rec)
    (reviewedAt rec) (reviewNotes rec).

(** [`${rec.date}-${rec.ticker}-${Date.now().toString(36)}`]. *)
Definition makeId (now : time) (rec : Recommendation) : JsString.t :=
  date rec ++ js "-" ++ ticker rec ++ js "-" ++ JsString.toString36 now.

(** [recordRecommendation(rec)] at clock reading [now]; the [id] of the
    argument is not read ([Omit<Recommendation, 'id'>]). *)
Definition recordRecommendation (now : time) (rec : Recommendation)
    (data : PerformanceData) : PerformanceData :=
  let recs := recommendations data ++ [withId rec (makeId now rec)] in
  setRecommendations data
    (if Nat.ltb 200 (List.length recs) then JsString.sliceLast 200 recs
     else recs).

Definition isPending (r : Recommendation) : bool :=
  match outcome r with
  | None => true
  | Some pending => true
  | Some _ => false
  end.

(** [getPendingReviews()] at clock reading [now]. *)
Definition getPendingReviews (now : time) (data : PerformanceData)
    : list Recommendation :=
  let oneDayAgo := isoDay (now - 24 * 60 * 60 * 1000) in
  filter (fun r => JsString.leb (date r) oneDayAgo)
    (filter isPending (recommendations data)).

Record Update : Type := mkUpdate {
  updId : JsString.t;
  updOutcome : Verdict;
  updNotes : JsString.t
}.

(** The assignments to the entry that [find] returned. *)
Definition review (now : time) (u : Update) (r : Recommendation)
    : Recommendation :=
  mkRecommendation (id r) (date r) (ticker r) (direction r) (confidence r)
    (type r) (summary r) (Some (outcomeOf (updOutcome u)))
    (Some (toISOString now)) (Some (updNotes u)).

(** [recs.find(r => r.id === u.id)] followed by the assignments: the first
    entry with that id is changed in place, if there is one. *)
Fixpoint applyUpdate (now : time) (u : Update) (recs : list Recommendation)
    : list Recommendation :=
  match recs with
  | [] => []
  | r :: recs' =>
      if JsString.eqb (id r) (updId u) then review now u r :: recs'
      else r :: applyUpdate now u recs'
  end.

(** [updateOutcome(id, outcome, notes)]. *)
Definition updateOutcome (now : time) (i : JsString.t) (o : Verdict)
    (notes : JsString.t) (data : PerformanceData) : PerformanceData :=
  setRecommendations data
    (applyUpdate now (mkUpdate i o notes) (recommendations data)).

(** The loop of [batchUpdateOutcomes]; [clock k] is the reading of
    [new Date()] in the iteration of index [k]. *)
Fixpoint applyUpdates (clock : nat -> time) (k : nat) (updates : list Update)
    (recs : list Recommendation) : list Recommendation :=
  match updates with
  | [] => recs
  | u :: updates' =>
      applyUpdates clock (S k) updates' (applyUpdate (clock k) u recs)
  end.

Definition batchUpdateOutcomes (clock : nat -> time) (updates : list Update)
    (data : PerformanceData) : PerformanceData :=
  setRecommendations data (applyUpdates clock 0 updates (recommendations data)).

(** [recordWeeklyScore(score)]. *)
Definition recordWeeklyScore (score : WeeklyScore) (data : PerformanceData)
    : PerformanceData :=
  let ws := weeklyScores data ++ [score] in
  setWeeklyScores data
    (if Nat.ltb 52 (List.length ws) then JsString.sliceLast 52 ws else ws).

(** [addStrategyNote(note)] at clock reading [now]. *)
Definition addStrategyNote (now : time) (note : JsString.t)
    (data : PerformanceData) : PerformanceData :=
  let notes :=
    strategyNotes data ++ [js "[" ++ isoDay now ++ js "] " ++ note] in
  setStrategyNotes data
    (if Nat.ltb 30 (List.length notes) then JsString.sliceLast 30 notes
     else notes).

Definition markNightlyReview (now : time) (data : PerformanceData)
    : PerformanceData :=
  mkPerformanceData (recommendations data) (weeklyScores data)
    (strategyNotes data) (isoDay now) (lastWeeklyReview data).

Definition markWeeklyReview (now : time) (data : PerformanceData)
    : PerformanceData :=
  mkPerformanceData (recommendations data) (weeklyScores data)
    (strategyNotes data) (lastNightlyReview data) (isoDay now).

Definition getLastNightlyReview (data : PerformanceData) : JsString.t :=
  lastNightlyReview data.

Definition getLastWeeklyReview (data : PerformanceData) : JsString.t :=
  lastWeeklyReview data.

End Performance.

(* ================================================================== *)
(** ** scheduler.ts: the nightly and the weekly review *)
(* ================================================================== *)

Module Scheduler.
Import JsDate Performance Regex.
Local Open Scope Z_scope.

(** [getTodayET()]. *)
Definition getTodayET (now : time) : JsString.t :=
  isoDay (toNewYorkWallClock now).

(** [/REVIEW:\s*([^\n]+)/gi]; 10 is the line feed. *)
Definition reviewLinesRe : re :=
  seqs [litI "REVIEW:"; Star space; Group 1 (Plus (noneOf [10%N]))].

(** [/REVIEW:\s*\[?([^\]|]+)\]?\s*\|\s*(correct|wrong|partial|skip)\s*\|\s*(.+)/i];
    91 and 93 are the square brackets, 124 is the bar. *)
Definition reviewRe : re :=
  seqs [litI "REVIEW:"; Star space; Opt (chr 91);
        Group 1 (Plus (noneOf [93%N; 124%N])); Opt (chr 93);
        Star space; chr 124; Star space;
        Group 2 (Alt (litI "correct")
                  (Alt (litI "wrong") (Alt (litI "partial") (litI "skip"))));
        Star space; chr 124; Star space; Group 3 (Plus dot)].

(** [/LESSON:\s*(.+)/i]. *)
Definition lessonRe : re :=
  seqs [litI "LESSON:"; Star space; Group 1 (Plus dot)].

(** [/best\s*call[:\s]*(.{10,200})/i] and [/worst\s*call[:\s]*(.{10,200})/i];
    58 is the colon. *)
Definition keywordRe (word1 word2 : string) : re :=
  seqs [litI word1; Star space; litI word2;
        Star (classOr (N.eqb 58) JsString.isSpace);
        Group 1 (Between 10 200 dot)].

Definition bestRe : re := keywordRe "best" "call".
Definition worstRe : re := keywordRe "worst" "call".
Definition weeklyLessonRe : re :=
  seqs [litI "lesson"; Star (classOr (N.eqb 58) JsString.isSpace);
        Group 1 (Between 10 200 dot)].

(** The cast [outcome.toLowerCase() as 'correct' | 'wrong' | 'partial'] of a
    text matched by [(correct|wrong|partial|skip)] that is not [skip]. *)
Definition verdictOf (s : JsString.t) : Verdict :=
  if JsString.eqb s (js "correct") then Correct
  else if JsString.eqb s (js "wrong") then Wrong
  else Partial.

(** The body of the loop over [reviewLines]: [continue] leaves [updates] as
    it is, [push] appends. *)
Definition parseLine (updates : list Update) (line : JsString.t)
    : list Update :=
  match search reviewRe line with
  | None => updates
  | Some m =>
      let outcome := group 2 m in
      if JsString.eqb (JsString.toLowerCase outcome) (js "skip") then updates
      else updates ++
             [mkUpdate (JsString.trim (group 1 m))
                (verdictOf (JsString.toLowerCase outcome))
                (JsString.trim (group 3 m))]
  end.

(** The updates read off the response of the nightly review. *)
Definition parseReviews (response : JsString.t) : list Update :=
  fold_left parseLine (matchAll reviewLinesRe response) [].

(** [lessonMatch[1].trim()], when [/LESSON:\s*(.+)/i] matches. *)
Definition parseLesson (response : JsString.t) : option JsString.t :=
  option_map (fun m => JsString.trim (group 1 m)) (search lessonRe response).

(** What a run of a review job meets outside the ledger: the clock readings,
    the answer of the text-generation collaborator ([None] when [askClaude]
    rejects) and whether the posts and writes after the ledger updates went
    through (an exception there skips the final mark). *)
Record Run : Type := mkRun {
  startTime : time;
  answer : option JsString.t;
  updateClock : nat -> time;
  noteTime : time;
  delivered : bool;
  markTime : time
}.

(** [nightlyReview(client)], on the ledger document. *)
Definition nightlyReview (env : Run) (data : PerformanceData)
    : PerformanceData :=
  let today := getTodayET (startTime env) in
  if JsString.eqb (getLastNightlyReview data) today then data
  else
    let pendingRecs := getPendingReviews (startTime env) data in
    match pendingRecs with
    | [] => markNightlyReview (startTime env) data
    | _ :: _ =>
        match answer env with
        | None => data
        | Some response =>
            let updates := parseReviews response in
            let data1 :=
              if Nat.ltb 0 (List.length updates)
              then batchUpdateOutcomes (updateClock env) updates data
              else data in
            let data2 :=
              match parseLesson response with
              | Some l => addStrategyNote (noteTime env) l data1
              | None => data1
              end in
            if delivered env then markNightlyReview (markTime env) data2
            else data2
        end
    end.

(** *** Numbers

    [Math.round] of a double, as an integer: the nearest integer, a tie
    going up. NaN and the infinities do not arise below. *)
Definition Math_round (x : float) : Z :=
  match Prim2SF x with
  | S754_finite s m e =>
      let n := if s then Z.neg m else Z.pos m in
      if 0 <=? e then n * 2 ^ e else (2 * n + 2 ^ (- e)) / 2 ^ (1 - e)
  | _ => 0
  end.

(** The double of a count. *)
Definition number (n : Z) : float := PrimFloat.of_uint63 (Uint63.of_Z n).

(** [Math.round((correct + partial * 0.5) / total * 100)]. *)
Definition accuracyOf (nCorrect nPartial total : Z) : Z :=
  Math_round
    (((number nCorrect + number nPartial * 0.5) / number total) * 100)%float.

Definition hasOutcome (o : Outcome) (r : Recommendation) : bool :=
  match outcome r, o with
  | Some correct, correct => true
  | Some wrong, wrong => true
  | Some partial, partial => true
  | Some pending, pending => true
  | _, _ => false
  end.

(** [r.outcome && r.outcome !== 'pending']. *)
Definition isReviewed (r : Recommendation) : bool :=
  match outcome r with
  | Some pending => false
  | Some _ => true
  | None => false
  end.

Definition count (o : Outcome) (recs : list Recommendation) : Z :=
  Z.of_nat (List.length (filter (hasOutcome o) recs)).

(** [perf.recommendations.filter(r => r.date >= oneWeekAgo && ...)]. *)
Definition thisWeek (now : time) (data : PerformanceData)
    : list Recommendation :=
  let oneWeekAgo := isoDay (now - 7 * 24 * 60 * 60 * 1000) in
  filter (fun r => JsString.geb (date r) oneWeekAgo && isReviewed r)
    (recommendations data).

(** [m ? m[1].trim().slice(0, 200) : fallback]. *)
Definition extract (r : re) (fallback : string) (response : JsString.t)
    : JsString.t :=
  match search r response with
  | Some m => JsString.slice0 200 (JsString.trim (group 1 m))
  | None => js fallback
  end.

Definition weeklyScoreOf (now : time) (calls : list Recommendation)
    (response : JsString.t) : WeeklyScore :=
  let nCorrect := count correct calls in
  let nWrong := count wrong calls in
  let nPartial := count partial calls in
  let total := Z.of_nat (List.length calls) in
  mkWeeklyScore (isoDay (now - 7 * 24 * 60 * 60 * 1000)) total
    nCorrect nWrong nPartial (accuracyOf nCorrect nPartial total)
    (extract bestRe "N/A" response) (extract worstRe "N/A" response)
    (extract weeklyLessonRe "Keep refining analysis approach" response).

(** [weeklyReview(client)], on the ledger document. The export and the
    maintenance of the brain directory that follow the record are among the
    steps [delivered] stands for. *)
Definition weeklyReview (env : Run) (data : PerformanceData)
    : PerformanceData :=
  let today := getTodayET (startTime env) in
  if JsString.eqb (getLastWeeklyReview data) today then data
  else
    let calls := thisWeek (startTime env) data in
    if Nat.ltb (List.length calls) 2
    then markWeeklyReview (startTime env) data
    else
      match answer env with
      | None => data
      | Some response =>
          let data1 :=
            recordWeeklyScore (weeklyScoreOf (startTime env) calls response)
              data in
          if delivered env then markWeeklyReview (markTime env) data1
          else data1
      end.

(** [getETHour()], [getETMinute()] and [isWeekday()], each at its own
    clock reading. *)
Definition getETHour (now : time) : Z :=
  HourFromTime (toNewYorkWallClock now).

Definition getETMinute (now : time) : Z :=
  MinFromTime (toNewYorkWallClock now).

Definition isWeekday (now : time) : bool :=
  let day := WeekDay (toNewYorkWallClock now) in
  (1 <=? day) && (day <=? 5).

(** The names of the files the briefs save to the brain directory:
    [`morning-brief-${getTodayET()}.md`] and [`eod-recap-${getTodayET()}.md`],
    at the clock reading of the save. *)
Definition morningBriefFile (now : time) : JsString.t :=
  js "morning-brief-" ++ getTodayET now ++ js ".md".

Definition eodRecapFile (now : time) : JsString.t :=
  js "eod-recap-" ++ getTodayET now ++ js ".md".

(** [ranToday]: the date each scan last ran on, by scan name; [None] is a
    name the object does not hold. *)
Definition RanToday : Type := JsString.t -> option JsString.t.

Definition neverRan : RanToday := fun _ => None.

(** [hasRunToday(scanName)] at clock reading [now]. *)
Definition hasRunToday (now : time) (ranToday : RanToday)
    (scanName : JsString.t) : bool :=
  match ranToday scanName with
  | Some d => JsString.eqb d (getTodayET now)
  | None => false
  end.

(** [markRanToday(scanName)] at clock reading [now]. *)
Definition markRanToday (now : time) (ranToday : RanToday)
    (scanName : JsString.t) : RanToday :=
  fun n =>
    if JsString.eqb n scanName then Some (getTodayET now) else ranToday n.

(** The jobs the scheduler starts. *)
Inductive Job : Type :=
| MorningBrief
| EodRecap
| NightlyReview
| WeeklyReview
| Maintenance.

Definition scanName (j : Job) : JsString.t :=
  match j with
  | MorningBrief => js "morning"
  | EodRecap => js "eod"
  | NightlyReview => js "nightly-review"
  | WeeklyReview => js "weekly-review"
  | Maintenance => js "maintenance"
  end.

(** The places of the callback of [setInterval] that read the clock; each
    is passed at most once in a tick. *)
Inductive Site : Type :=
| AtHour
| AtMinute
| AtWeekday
| AtDay
| AtCheck (j : Job)
| AtMark (j : Job).

(** One [if (... && !hasRunToday(name)) { markRanToday(name); job(client); }]
    of the callback: [due] is the condition on the day, the hour and the
    minute. What is threaded is [ranToday] and the jobs started so far. *)
Definition launch (clock : Site -> time) (j : Job) (due : bool)
    (st : RanToday * list Job) : RanToday * list Job :=
  if due && negb (hasRunToday (clock (AtCheck j)) (fst st) (scanName j))
  then (markRanToday (clock (AtMark j)) (fst st) (scanName j), snd st ++ [j])
  else st.

(** The callback of [setInterval] in [startScheduler]: one tick. *)
Definition tick (clock : Site -> time) (ranToday : RanToday)
    : RanToday * list Job :=
  let hour := getETHour (clock AtHour) in
  let minute := getETMinute (clock AtMinute) in
  let weekday := isWeekday (clock AtWeekday) in
  let st0 := (ranToday, []) in
  let st1 :=
    if weekday then
      let sa :=
        launch clock MorningBrief
          ((hour =? 8) && (30 <=? minute) && (minute <=? 35)) st0 in
      let sb :=
        launch clock EodRecap
          ((hour =? 16) && (30 <=? minute) && (minute <=? 35)) sa in
      launch clock NightlyReview
        ((hour =? 20) && (0 <=? minute) && (minute <=? 5)) sb
    else st0 in
  let et := toNewYorkWallClock (clock AtDay) in
  let st2 :=
    launch clock WeeklyReview
      ((WeekDay et =? 5) && (hour =? 20) && (30 <=? minute) && (minute <=? 35))
      st1 in
  launch clock Maintenance
    ((WeekDay et =? 6) && (hour =? 9) && (0 <=? minute) && (minute <=? 5))
    st2.

(** The ticks of the interval one after the other, each with its clock
    readings: [ranToday] at the end and the jobs each tick started. *)
Fixpoint ticks (clocks : list (Site -> time)) (ranToday : RanToday)
    : RanToday * list (list Job) :=
  match clocks with
  | [] => (ranToday, [])
  | clock :: clocks' =>
      let '(ran1, jobs) := tick clock ranToday in
      let '(ran2, rest) := ticks clocks' ran1 in
      (ran2, jobs :: rest)
  end.

End Scheduler.

(* ================================================================== *)
(** ** brain-manager.ts: consolidation of old daily files *)
(* ================================================================== *)

Module BrainManager.
Import JsDate Regex.
Local Open Scope Z_scope.

(** A file of the brain directory. [readable] and [removable] say whether
    [readFileSync] and [unlinkSync] succeed on it: the source catches the
    failure of either. *)
Record File : Type := mkFile {
  name : JsString.t;
  content : JsString.t;
  mtime : time;
  readable : bool;
  removable : bool
}.

(** The directory [BRAIN_DIR], in the order [readdirSync] lists it; a
    missing directory lists nothing. *)
Definition Dir := list File.

Definition lookup (dir : Dir) (n : JsString.t) : option File :=
  find (fun f => JsString.eqb (name f) n) dir.

Definition existsSync (dir : Dir) (n : JsString.t) : bool :=
  existsb (fun f => JsString.eqb (name f) n) dir.

(** [None] when the call throws. *)
Definition readFileSync (dir : Dir) (n : JsString.t) : option JsString.t :=
  match lookup dir n with
  | Some f => if readable f then Some (content f) else None
  | None => None
  end.

Fixpoint overwrite (now : time) (n text : JsString.t) (dir : Dir) : Dir :=
  match dir with
  | [] => [mkFile n text now true true]
  | f :: dir' =>
      if JsString.eqb (name f) n
      then mkFile n text now (readable f) (removable f) :: dir'
      else f :: overwrite now n text dir'
  end.

(** [writeFileSync(path, text, 'utf-8')]: the content of the file is what
    [readFileSync(path, 'utf-8')] reads back, the text with every lone
    surrogate turned into U+FFFD by the encoding. The names the source
    writes to are made of ASCII characters. *)
Definition writeFileSync (now : time) (dir : Dir) (n text : JsString.t)
    : Dir :=
  overwrite now n (JsString.toWellFormed text) dir.

(** [None] when the call throws: no such file, or one that cannot be
    removed. *)
Definition unlinkSync (dir : Dir) (n : JsString.t) : option Dir :=
  match lookup dir n with
  | Some f =>
      if removable f
      then Some (filter (fun g => negb (JsString.eqb (name g) n)) dir)
      else None
  | None => None
  end.

Fixpoint insertByMtime (f : File) (l : list File) : list File :=
  match l with
  | [] => [f]
  | g :: l' =>
      if mtime f <=? mtime g then f :: l else g :: insertByMtime f l'
  end.

(** [files.sort((a, b) => a.mtime.getTime() - b.mtime.getTime())]: the sort
    is stable. *)
Definition sortByMtime (l : list File) : list File :=
  fold_right insertByMtime [] l.

(** [getBrainFiles()]. *)
Definition getBrainFiles (dir : Dir) : list File :=
  sortByMtime (filter (fun f => JsString.endsWith (name f) (js ".md")) dir).

Definition dailyPatterns : list JsString.t :=
  [js "morning-brief-"; js "eod-recap-"; js "scan-"].

(** [dailyPatterns.some(p => file.name.startsWith(p))]. *)
Definition isDaily (n : JsString.t) : bool :=
  existsb (JsString.startsWith n) dailyPatterns.

(** [/(\d{4}-\d{2}-\d{2})/]. *)
Definition dateRe : re :=
  Group 1 (seqs [Times 4 digit; chr 45; Times 2 digit; chr 45; Times 2 digit]).

(** The week key of an embedded date; [None] when [toISOString] throws its
    RangeError on an invalid date:
<<
    const fileDate = new Date(dateMatch[1]);
    const weekStart = new Date(fileDate);
    weekStart.setDate(weekStart.getDate() - weekStart.getDay() + 1);
    const weekKey = weekStart.toISOString().split('T')[0];
>> *)
Definition weekKeyOf (dateText : JsString.t) : option JsString.t :=
  let fileDate := parseISODate dateText in
  let weekStart := fileDate in
  let target :=
    match getDate weekStart, getDay weekStart with
    | Some dt, Some wd => Some (dt - wd + 1)
    | _, _ => None
    end in
  option_map isoDay (setDate weekStart target).

Definition Entry : Type := JsString.t * JsString.t.
Definition entryName (e : Entry) : JsString.t := fst e.
Definition entryContent (e : Entry) : JsString.t := snd e.

(** [weeklyGroups]: the keys of the object in the order of their creation,
    which is the order [Object.entries] lists them in. *)
Definition Groups := list (JsString.t * list Entry).

Definition hasKey (key : JsString.t) (groups : Groups) : bool :=
  existsb (fun g => JsString.eqb (fst g) key) groups.

(** [if (!weeklyGroups[weekKey]) weeklyGroups[weekKey] = [];]. *)
Definition ensureKey (key : JsString.t) (groups : Groups) : Groups :=
  if hasKey key groups then groups else groups ++ [(key, [])].

(** [weeklyGroups[weekKey].push(entry)]. *)
Fixpoint pushEntry (key : JsString.t) (e : Entry) (groups : Groups)
    : Groups :=
  match groups with
  | [] => []
  | (k, es) :: groups' =>
      if JsString.eqb k key then (k, es ++ [e]) :: groups'
      else (k, es) :: pushEntry key e groups'
  end.

(** The first loop; [None] when [weekKey] throws. *)
Fixpoint groupFiles (oneWeekAgo : time) (dir : Dir) (files : list File)
    (groups : Groups) : option Groups :=
  match files with
  | [] => Some groups
  | file :: files' =>
      if oneWeekAgo <=? mtime file then groupFiles oneWeekAgo dir files' groups
      else if negb (isDaily (name file))
      then groupFiles oneWeekAgo dir files' groups
      else
        match search dateRe (name file) with
        | None => groupFiles oneWeekAgo dir files' groups
        | Some dateMatch =>
            match weekKeyOf (group 1 dateMatch) with
            | None => None
            | Some weekKey =>
                let groups1 := ensureKey weekKey groups in
                let groups2 :=
                  match readFileSync dir (name file) with
                  | Some text => pushEntry weekKey (name file, text) groups1
                  | None => groups1
                  end in
                groupFiles oneWeekAgo dir files' groups2
            end
        end
  end.

Definition nl : JsString.t := [JsString.LF].

Definition summaryName (weekKey : JsString.t) : JsString.t :=
  js "weekly-summary-" ++ weekKey ++ js ".md".

(** The text of a weekly summary; 8212 is the dash of its title. *)
Definition summaryText (weekKey : JsString.t) (entries : list Entry)
    : JsString.t :=
  JsString.join (nl ++ nl)
    ((js "# Weekly Summary " ++ [8212%N] ++ js " Week of " ++ weekKey)
     :: (js "*Consolidated from "
           ++ JsString.toString10 (Z.of_nat (List.length entries))
           ++ js " daily files*" ++ nl)
     :: List.map
          (fun e => js "---" ++ nl ++ js "### " ++ entryName e ++ nl
                      ++ JsString.slice0 500 (entryContent e))
          entries).

Record Counts : Type := mkCounts { consolidated : Z; deleted : Z }.

(** The loop that deletes the originals of one group. *)
Fixpoint deleteEntries (entries : list Entry) (dir : Dir) (nDeleted : Z)
    : Dir * Z :=
  match entries with
  | [] => (dir, nDeleted)
  | e :: entries' =>
      match unlinkSync dir (entryName e) with
      | Some dir' => deleteEntries entries' dir' (nDeleted + 1)
      | None => deleteEntries entries' dir nDeleted
      end
  end.

(** The second loop. *)
Fixpoint writeSummaries (now : time) (groups : Groups) (dir : Dir)
    (c : Counts) : Dir * Counts :=
  match groups with
  | [] => (dir, c)
  | (weekKey, entries) :: groups' =>
      if Nat.ltb (List.length entries) 2
      then writeSummaries now groups' dir c
      else if existsSync dir (summaryName weekKey)
      then writeSummaries now groups' dir c
      else
        let dir1 :=
          writeFileSync now dir (summaryName weekKey)
            (summaryText weekKey entries) in
        let '(dir2, nDeleted) := deleteEntries entries dir1 (deleted c) in
        writeSummaries now groups' dir2
          (mkCounts (consolidated c + 1) nDeleted)
  end.

(** [consolidateOldFiles()] at clock reading [now]: the directory it leaves
    and the counts it returns, [None] when it throws. *)
Definition consolidateOldFiles (now : time) (dir : Dir)
    : Dir * option Counts :=
  let files := getBrainFiles dir in
  let oneWeekAgo := now - 7 * 24 * 60 * 60 * 1000 in
  match groupFiles oneWeekAgo dir files [] with
  | None => (dir, None)
  | Some weeklyGroups =>
      let '(dir', c) := writeSummaries now weeklyGroups dir (mkCounts 0 0) in
      (dir', Some c)
  end.

Definition analysisPatterns : list JsString.t :=
  [js "analysis-"; js "options-"; js "sentiment-"].

(** [analysisPatterns.some(p => file.name.startsWith(p))]. *)
Definition isAnalysis (n : JsString.t) : bool :=
  existsb (JsString.startsWith n) analysisPatterns.

(** The loop of [pruneOldAnalyses]; a file that cannot be removed is
    passed over. *)
Fixpoint pruneFiles (thirtyDaysAgo : time) (files : list File) (dir : Dir)
    (pruned : Z) : Dir * Z :=
  match files with
  | [] => (dir, pruned)
  | file :: files' =>
      if thirtyDaysAgo <=? mtime file
      then pruneFiles thirtyDaysAgo files' dir pruned
      else if negb (isAnalysis (name file))
      then pruneFiles thirtyDaysAgo files' dir pruned
      else
        match unlinkSync dir (name file) with
        | Some dir' => pruneFiles thirtyDaysAgo files' dir' (pruned + 1)
        | None => pruneFiles thirtyDaysAgo files' dir pruned
        end
  end.

(** [pruneOldAnalyses()] at clock reading [now]: the directory it leaves
    and the number it returns. *)
Definition pruneOldAnalyses (now : time) (dir : Dir) : Dir * Z :=
  let files := getBrainFiles dir in
  let thirtyDaysAgo := now - 30 * 24 * 60 * 60 * 1000 in
  pruneFiles thirtyDaysAgo files dir 0.

Record Stats : Type := mkStats {
  totalFiles : Z;
  totalSize : Z;
  oldestFile : JsString.t;
  newestFile : JsString.t
}.

(** [files[i]?.name || 'none']: an absent element and an empty name both
    give ['none']. *)
Definition nameOrNone (f : option File) : JsString.t :=
  match f with
  | Some g =>
      match name g with
      | [] => js "none"
      | _ :: _ => name g
      end
  | None => js "none"
  end.

(** [getBrainStats()]; [size] is the size [statSync] reports for a file,
    which the directory above does not hold. *)
Definition getBrainStats (size : File -> Z) (dir : Dir) : Stats :=
  let files := getBrainFiles dir in
  mkStats (Z.of_nat (List.length files))
    (fold_left (fun sum f => sum + size f) files 0)
    (nameOrNone (nth_error files 0))
    (nameOrNone (nth_error files (List.length files - 1))).

(** [runBrainMaintenance()]: consolidation at clock reading [now1], then
    pruning at [now2]; the statistics are only logged. The flag is [false]
    when consolidation throws, which ends the run before pruning. *)
Definition runBrainMaintenance (now1 now2 : time) (dir : Dir) : Dir * bool :=
  match consolidateOldFiles now1 dir with
  | (dir1, None) => (dir1, false)
  | (dir1, Some _) => (fst (pruneOldAnalyses now2 dir1), true)
  end.

End BrainManager.

(* ================================================================== *)
(** ** Numbers *)
(* ================================================================== *)

Module JsNumber.
Local Open Scope Z_scope.

(** The double of an integer, exact below 2^53 in magnitude. *)
Definition ofInt (n : Z) : float :=
  if n <? 0 then PrimFloat.opp (PrimFloat.of_uint63 (Uint63.of_Z (- n)))
  else PrimFloat.of_uint63 (Uint63.of_Z n).

(** [x.toFixed(0)] (ECMA-262 21.1.3.3) of a double below 10^21 in magnitude:
    the sign of a negative number, then the digits of the integer nearest
    to its magnitude, the larger one on a tie. Doubles of 10^21 and more,
    which print with an exponent, do not arise below. *)
Definition toFixed0 (x : float) : JsString.t :=
  match Prim2SF x with
  | S754_zero _ => js "0"
  | S754_infinity s => if s then js "-Infinity" else js "Infinity"
  | S754_nan => js "NaN"
  | S754_finite s m e =>
      let n :=
        if 0 <=? e then Z.pos m * 2 ^ e
        else (2 * Z.pos m + 2 ^ (- e)) / 2 ^ (1 - e) in
      (if s then js "-" else []) ++ JsString.toString10 n
  end.

End JsNumber.

(* ================================================================== *)
(** ** performance.ts: the record handed to the prompt *)
(* ================================================================== *)

Module PerformanceContext.
Import Performance Scheduler.
Local Open Scope Z_scope.

(** [((correct + partial * 0.5) / reviewed.length * 100).toFixed(0)]. *)
Definition accuracyText (nCorrect nPartial total : Z) : JsString.t :=
  JsNumber.toFixed0
    (((JsNumber.ofInt nCorrect + JsNumber.ofInt nPartial * 0.5)
      / JsNumber.ofInt total) * 100)%float.

(** The line of the track record. *)
Definition trackRecord (reviewed : list Recommendation) : JsString.t :=
  let nCorrect := count correct reviewed in
  let nPartial := count partial reviewed in
  let total := Z.of_nat (List.length reviewed) in
  js "**Your Track Record:** " ++ JsString.toString10 total
    ++ js " reviewed calls | " ++ accuracyText nCorrect nPartial total
    ++ js "% accuracy | " ++ JsString.toString10 nCorrect
    ++ js " correct, " ++ JsString.toString10 (count wrong reviewed)
    ++ js " wrong, " ++ JsString.toString10 nPartial ++ js " partial".

(** [`${w.weekOf}: ${w.accuracy}%`]. *)
Definition weekText (w : WeeklyScore) : JsString.t :=
  weekOf w ++ js ": " ++ JsString.toString10 (accuracy w) ++ js "%".

(** [getPerformanceContext()]. *)
Definition getPerformanceContext (data : PerformanceData) : JsString.t :=
  let reviewed := filter isReviewed (recommendations data) in
  let parts1 :=
    if Nat.leb 5 (List.length reviewed) then [trackRecord reviewed] else [] in
  let recentWeeks := JsString.sliceLast 4 (weeklyScores data) in
  let parts2 :=
    if Nat.ltb 0 (List.length recentWeeks)
    then parts1 ++ [js "**Recent Weekly Scores:** "
                      ++ JsString.join (js " | ") (List.map weekText recentWeeks)]
    else parts1 in
  let parts3 :=
    if Nat.ltb 0 (List.length (strategyNotes data))
    then parts2 ++ [js "**Self-Improvement Notes:**" ++ [JsString.LF]
                      ++ JsString.join [JsString.LF]
                           (List.map (fun n => js "- " ++ n)
                              (JsString.sliceLast 5 (strategyNotes data)))]
    else parts2 in
  if Nat.ltb 0 (List.length parts3) then JsString.join [JsString.LF] parts3
  else [].

End PerformanceContext.

(* ================================================================== *)
(** ** utils/chunk.ts: messages cut to the size of a post *)
(* ================================================================== *)

Module Chunk.
Local Open Scope Z_scope.

Definition MAX_LENGTH : Z := 1950.

(** [index > MAX_LENGTH * 0.3], a comparison of doubles; the double that
    [0.3] denotes is 0x1.3333333333333p-2. *)
Definition farEnough (index : Z) : bool :=
  PrimFloat.ltb (JsNumber.ofInt MAX_LENGTH * 0x1.3333333333333p-2)%float
    (JsNumber.ofInt index).

(** The body of the loop up to the cut: a paragraph break, else a line
    break, else the end of a sentence, each when it lies far enough into
    the text, else a hard cut. 10 is the line feed, 46 the full stop and 32
    the space. *)
Definition splitPoint (remaining : JsString.t) : Z :=
  let splitAt0 := -1 in
  let paragraphBreak :=
    JsString.lastIndexOf remaining [10%N; 10%N] MAX_LENGTH in
  let splitAt1 :=
    if farEnough paragraphBreak then paragraphBreak + 2 else splitAt0 in
  let splitAt2 :=
    if splitAt1 =? -1 then
      let lineBreak := JsString.lastIndexOf remaining [10%N] MAX_LENGTH in
      if farEnough lineBreak then lineBreak + 1 else splitAt1
    else splitAt1 in
  let splitAt3 :=
    if splitAt2 =? -1 then
      let sentence :=
        JsString.lastIndexOf remaining [46%N; 32%N] MAX_LENGTH in
      if farEnough sentence then sentence + 2 else splitAt2
    else splitAt2 in
  if splitAt3 =? -1 then MAX_LENGTH else splitAt3.

(** The [while] loop, for at most [fuel] rounds; [None] when the rounds run
    out before the loop ends. *)
Fixpoint chunkLoop (fuel : nat) (remaining : JsString.t)
    (chunks : list JsString.t) : option (list JsString.t) :=
  match fuel with
  | O => None
  | S fuel' =>
      if Z.of_nat (List.length remaining) <=? 0 then Some chunks
      else if Z.of_nat (List.length remaining) <=? MAX_LENGTH
      then Some (chunks ++ [remaining])
      else
        let splitAt := Z.to_nat (splitPoint remaining) in
        chunkLoop fuel'
          (JsString.trimStart (skipn splitAt remaining))
          (chunks ++ [JsString.trimEnd (firstn splitAt remaining)])
  end.

(** [chunkMessage(text)]; the loop is given one round more than the text
    has code units. *)
Definition chunkMessage (text : JsString.t) : option (list JsString.t) :=
  if Z.of_nat (List.length text) <=? MAX_LENGTH then Some [text]
  else chunkLoop (S (List.length text)) text [].

End Chunk.
(* ================================================================== *)
(** ** Concrete ledgers, responses and directories *)
(* ================================================================== *)

Module Examples.
Import JsDate Performance Scheduler BrainManager.
Local Open Scope Z_scope.

(** A call that has not been reviewed, or has been with outcome [o]. *)
Definition call (i d tk : string) (o : option Outcome) : Recommendation :=
  mkRecommendation (js i) (js d) (js tk) bullish 50 (js "signal")
    (js "summary") o None None.

Definition ledgerOf (recs : list Recommendation) : PerformanceData :=
  setRecommendations defaultPerformance recs.

(** A ledger at its cap. *)
Definition fullLedger : PerformanceData :=
  ledgerOf (repeat (call "2024-01-02-SPY-lr0a" "2024-01-02" "SPY" None) 200).

(** Two pending calls of 2024-01-08. *)
Definition twoPending : PerformanceData :=
  ledgerOf [call "abc-1" "2024-01-08" "NVDA" None;
            call "abc-2" "2024-01-08" "TSLA" None].

(** 2024-01-11T01:00:00Z, which is Wednesday 2024-01-10, 20:00 in New York:
    the minute the nightly review is due. *)
Definition nightlyTime : time := 1704934800000.

(** A call recorded by the morning brief of that Wednesday. *)
Definition sameDayLedger : PerformanceData :=
  ledgerOf [call "2024-01-10-NVDA-lr7iso00" "2024-01-10" "NVDA" None].

(** 2024-01-13T01:30:00Z, which is Friday 2024-01-12, 20:30 in New York:
    the minute the weekly review is due. *)
Definition weeklyTime : time := 1705109400000.

(** Two calls of the week, one reviewed correct and one wrong. *)
Definition reviewedLedger : PerformanceData :=
  ledgerOf [call "2024-01-09-NVDA-lr6a0000" "2024-01-09" "NVDA" (Some correct);
            call "2024-01-10-TSLA-lr7iso00" "2024-01-10" "TSLA" (Some wrong)].



Definition weeklyResponse : JsString.t :=
  js "Best call: NVDA long into earnings. Worst call: TSLA short too early. Lesson: wait for confirmation.".

(** A run in which the collaborator answers and every post goes through,
    with one clock reading throughout. *)
Definition runAt (now : time) (response : JsString.t) : Run :=
  mkRun now (Some response) (fun _ => now) now true now.

(** The answer of the collaborator to the list of [twoPending]. *)
Definition reviewResponse : JsString.t :=
  js "REVIEW: [abc-1] | correct | good call" ++ [JsString.LF]
    ++ js "REVIEW: [abc-2] | skip | too early" ++ [JsString.LF]
    ++ js "LESSON: trust the trend".

(** 2024-01-20T14:00:00Z, a Saturday, 09:00 in New York: the minute the
    weekly maintenance is due. *)
Definition maintenanceTime : time := 1705759200000.

Definition daily (n text : string) (modified : time) : File :=
  mkFile (js n) (js text) modified true true.

(** The morning brief of Tuesday 2024-01-02 and the recap of Wednesday
    2024-01-03, as written on those days at 13:30Z and 21:30Z. *)
Definition twoDailies : Dir :=
  [daily "morning-brief-2024-01-02.md" "# Morning Brief" 1704202200000;
   daily "eod-recap-2024-01-03.md" "# End of Day Recap" 1704317400000].

(** The same two and the recap of Wednesday 2024-01-10, alone in its
    week. *)
Definition threeDailies : Dir :=
  twoDailies
    ++ [daily "eod-recap-2024-01-10.md" "# End of Day Recap" 1704922200000].


(** 2024-01-13T14:00:00Z, Saturday 2024-01-13, 09:00 in New York: the
    maintenance of the morning after [weeklyTime]. *)
Definition saturdayMorning : time := 1705154400000.

(** Two scans saved on the evening of Friday 2024-01-05, at 21:00 and 21:30
    in New York (02:00Z and 02:30Z of the Saturday). *)
Definition fridayScans : Dir :=
  [daily "scan-momentum-2024-01-05.md" "# momentum Scan" 1704506400000;
   daily "scan-unusual-2024-01-05.md" "# unusual Scan" 1704508200000].

End Examples.

(* ================================================================== *)
(** ** Notions of the statements *)
(* ================================================================== *)

Section Notions.
Import JsDate Regex Performance Scheduler BrainManager.
Local Open Scope Z_scope.

(** What the three capped lists of the document do on a push: the list
    with its new last element, cut to its last [cap] elements. *)
Definition pushCapped {A : Type} (cap : nat) (l : list A) (x : A)
    : list A :=
  if Nat.ltb cap (length (l ++ [x])) then JsString.sliceLast cap (l ++ [x])
  else l ++ [x].

(** Value of a list of digits, least significant first. *)
Fixpoint valueOf (radix : Z) (ds : list Z) : Z :=
  match ds with
  | [] => 0
  | d :: ds' => d + radix * valueOf radix ds'
  end.

(** The digits of a positive number, as [toString36] lays them out. *)
Definition digitsOfTime (n : Z) : list Z :=
  JsString.digitsOf 36 (S (Z.to_nat (Z.log2 n))) n.

(** Calls recorded one after the other, each at its clock reading. *)
Definition recordAll (calls : list (time * Recommendation))
    (data : PerformanceData) : PerformanceData :=
  fold_left (fun d c => recordRecommendation (fst c) (snd c) d) calls data.

(** Clock readings that increase strictly, from [bound] on. *)
Fixpoint increasingFrom (bound : time) (calls : list (time * Recommendation))
    : Prop :=
  match calls with
  | [] => True
  | c :: calls' => bound <= fst c /\ increasingFrom (fst c + 1) calls'
  end.

(** Every id is that of a call recorded at a clock reading below [bound]. *)
Definition stampedBefore (bound : time) (recs : list Recommendation) : Prop :=
  Forall (fun r => exists t rec, 0 <= t < bound /\ id r = makeId t rec) recs.

(** The percentage rounded to the nearest integer in exact arithmetic, a
    tie going up. *)
Definition exactPercent (nCorrect nPartial total : Z) : Z :=
  (100 * (2 * nCorrect + nPartial) + total) / (2 * total).


(** The tuple a review line carries: the three captures of the line
    pattern at its leftmost match, the outcome in lower case. *)
Definition reviewTuple (line : JsString.t)
    : option (JsString.t * JsString.t * JsString.t) :=
  option_map
    (fun m => (group 1 m, JsString.toLowerCase (group 2 m), group 3 m))
    (search reviewRe line).

(** The updates of a line: none when the line does not match or says
    [skip]. *)
Definition updatesOfLine (line : JsString.t) : list Update :=
  match reviewTuple line with
  | None => []
  | Some (i, o, notes) =>
      if JsString.eqb o (js "skip") then []
      else [mkUpdate (JsString.trim i) (verdictOf o) (JsString.trim notes)]
  end.

(** What the first loop does with a file: it passes over it, it throws on
    its date, or it files it under a week key. *)
Inductive Class : Type :=
| Skipped
| Throws
| Keyed (key : JsString.t).

Definition classOf (oneWeekAgo : time) (f : File) : Class :=
  if oneWeekAgo <=? mtime f then Skipped
  else if negb (isDaily (name f)) then Skipped
  else
    match search dateRe (name f) with
    | None => Skipped
    | Some dateMatch =>
        match weekKeyOf (group 1 dateMatch) with
        | None => Throws
        | Some weekKey => Keyed weekKey
        end
    end.

(** The groups after a file has been filed under [key]. *)
Definition filed (dir : Dir) (key : JsString.t) (f : File) (g : Groups)
    : Groups :=
  match readFileSync dir (name f) with
  | Some text => pushEntry key (name f, text) (ensureKey key g)
  | None => ensureKey key g
  end.

(** The entries filed under a key. *)
Definition entriesOf (k : JsString.t) (g : Groups) : list Entry :=
  match find (fun p => JsString.eqb (fst p) k) g with
  | Some p => snd p
  | None => []
  end.

(** The entry a file contributes when it can be read. *)
Definition entryIn (dir : Dir) (f : File) : list Entry :=
  match readFileSync dir (name f) with
  | Some text => [(name f, text)]
  | None => []
  end.

(** What the files contribute to the group of a key, in their order. *)
Definition membersOf (w : time) (dir : Dir) (k : JsString.t)
    (files : list File) : list Entry :=
  flat_map
    (fun f =>
       match classOf w f with
       | Keyed k' => if JsString.eqb k' k then entryIn dir f else []
       | _ => []
       end)
    files.

(** Whether a file is a member of the group of [k]: old, daily, dated in
    the week of [k], readable. *)
Definition isMember (w : time) (k : JsString.t) (f : File) : bool :=
  match classOf w f with
  | Keyed k' => JsString.eqb k' k && readable f
  | _ => false
  end.

(** The groups the second loop acts on: two entries or more. *)
Definition acted (g : Groups) (k : JsString.t) (es : list Entry) : Prop :=
  In (k, es) g /\ (2 <= length es)%nat.

Section StarLoop.
Context {R : Type} (r1 : re) (k : JsString.t -> captures -> option R).

(** The loop of [Star], by name. *)
Fixpoint starFrom (fuel : nat) (s : JsString.t) (caps : captures)
    : option R :=
  match fuel with
  | O => k s caps
  | S fuel' =>
      match run r1 s caps
              (fun s' caps' =>
                 if Nat.ltb (length s') (length s)
                 then starFrom fuel' s' caps' else None) with
      | Some x => Some x
      | None => k s caps
      end
  end.

End StarLoop.

(** [s] starts with the pattern text, letters compared without case. *)
Fixpoint startsWithI (s pat : JsString.t) {struct pat} : bool :=
  match pat, s with
  | [], _ => true
  | _ :: _, [] => false
  | y :: pat', x :: s' =>
      (JsString.upperAscii x =? JsString.upperAscii y)%N && startsWithI s' pat'
  end.

(** The keyword that opens both review patterns. *)
Definition keyword : JsString.t := js "REVIEW:".

Definition keywordAt (s : JsString.t) : bool := startsWithI s keyword.

(** The text of a line from its first keyword on. *)
Fixpoint fromKeyword (line : JsString.t) : option JsString.t :=
  if keywordAt line then Some line
  else
    match line with
    | [] => None
    | _ :: line' => fromKeyword line'
    end.

(** A line is dangling when its first keyword has only blanks behind it:
    the pattern of the review lines then runs on into the lines below. *)
Definition notDangling (line : JsString.t) : bool :=
  match fromKeyword line with
  | None => true
  | Some chunk =>
      existsb (fun c => negb (JsString.isSpace c))
        (skipn (length keyword) chunk)
  end.

(** The text whose lines are [lines]: [lines.join('\n')]. *)
Definition unlines (lines : list JsString.t) : JsString.t :=
  JsString.join [JsString.LF] lines.

(** The lines of a text: [text.split('\n')]. *)
Fixpoint splitLines (s : JsString.t) : list JsString.t :=
  match s with
  | [] => [[]]
  | c :: s' =>
      if (c =? JsString.LF)%N then [] :: splitLines s'
      else
        match splitLines s' with
        | line :: lines => (c :: line) :: lines
        | [] => [[c]]
        end
  end.

(** A line of a response: no line feed in it, and not dangling. *)
Definition isLine (line : JsString.t) : Prop :=
  ~ In JsString.LF line /\ notDangling line = true.

Definition chunkOf (line : JsString.t) : list JsString.t :=
  match fromKeyword line with
  | Some chunk => [chunk]
  | None => []
  end.

End Notions.

(* ================================================================== *)
(** ** Notions of the further statements *)
(* ================================================================== *)

Section FurtherNotions.
Import JsDate Regex Performance Scheduler BrainManager.
Local Open Scope Z_scope.

(** A text made of white space only. *)
Definition blank (s : JsString.t) : bool := forallb JsString.isSpace s.

(** The chunks laid end to end, each followed by its gap. *)
Fixpoint weave (chunks gaps : list JsString.t) : JsString.t :=
  match chunks, gaps with
  | c :: chunks', g :: gaps' => c ++ g ++ weave chunks' gaps'
  | _, _ => []
  end.

(** The indices a search from [MAX_LENGTH] down can return. *)
Definition indices : list Z :=
  map (fun n => Z.of_nat n - 1) (seq 0 1952).

(** Civil dates in their order: by year, then month, then day. *)
Definition earlier (a b : Z * Z * Z) : Prop :=
  let '(y1, m1, d1) := a in
  let '(y2, m2, d2) := b in
  y1 < y2 \/ (y1 = y2 /\ (m1 < m2 \/ (m1 = m2 /\ d1 < d2))).

(** The days of the years 0 to 9999, whose dates [toISOString] writes with
    four digits of year: from 0000-01-01 to 9999-12-31. *)
Definition fourDigitYear (day : Z) : Prop := -719528 <= day <= 2932896.

Definition Job_eq_dec (a b : Job) : {a = b} + {a <> b}.
Proof. decide equality. Defined.

(** How many times a job was started. *)
Definition started (j : Job) (jobs : list Job) : nat :=
  count_occ Job_eq_dec jobs j.

(** What a tick knows of a job: the date the job is marked with and the
    times the tick has started it. *)
Definition view (j : Job) (st : RanToday * list Job)
    : option JsString.t * nat :=
  (fst st (scanName j), started j (snd st)).

(** The hour and the minutes of a job on the clock of New York. *)
Definition window (j : Job) : Z * Z * Z :=
  match j with
  | MorningBrief => (8, 30, 35)
  | EodRecap => (16, 30, 35)
  | NightlyReview => (20, 0, 5)
  | WeeklyReview => (20, 30, 35)
  | Maintenance => (9, 0, 5)
  end.

(** Whether the readings of a tick fall on a day of the job and into its
    window: Monday to Friday for the briefs and the nightly review, Friday
    for the weekly review, Saturday for the maintenance. *)
Definition dueAt (clock : Site -> time) (j : Job) : bool :=
  let '(h, lo, hi) := window j in
  let onDay :=
    match j with
    | WeeklyReview => WeekDay (toNewYorkWallClock (clock AtDay)) =? 5
    | Maintenance => WeekDay (toNewYorkWallClock (clock AtDay)) =? 6
    | _ => isWeekday (clock AtWeekday)
    end in
  onDay && (getETHour (clock AtHour) =? h)
    && (lo <=? getETMinute (clock AtMinute))
    && (getETMinute (clock AtMinute) <=? hi).

(** The operations that write the ledger document. *)
Inductive Op : Type :=
| DoRecord (now : time) (rec : Recommendation)
| DoUpdate (now : time) (i : JsString.t) (o : Verdict) (notes : JsString.t)
| DoBatch (clock : nat -> time) (updates : list Update)
| DoScore (score : WeeklyScore)
| DoNote (now : time) (note : JsString.t)
| DoMarkNightly (now : time)
| DoMarkWeekly (now : time)
| DoNightlyReview (env : Run)
| DoWeeklyReview (env : Run).

Definition perform (op : Op) (data : PerformanceData) : PerformanceData :=
  match op with
  | DoRecord now rec => recordRecommendation now rec data
  | DoUpdate now i o notes => updateOutcome now i o notes data
  | DoBatch clock updates => batchUpdateOutcomes clock updates data
  | DoScore score => recordWeeklyScore score data
  | DoNote now note => addStrategyNote now note data
  | DoMarkNightly now => markNightlyReview now data
  | DoMarkWeekly now => markWeeklyReview now data
  | DoNightlyReview env => nightlyReview env data
  | DoWeeklyReview env => weeklyReview env data
  end.

(** The document after a history of operations on the document that stands
    for a missing file. *)
Definition after (ops : list Op) : PerformanceData :=
  fold_left (fun data op => perform op data) ops defaultPerformance.

(** The document within its three caps. *)
Definition withinCaps (data : PerformanceData) : Prop :=
  (length (recommendations data) <= 200)%nat
  /\ (length (weeklyScores data) <= 52)%nat
  /\ (length (strategyNotes data) <= 30)%nat.

(** What a call is, apart from its review. *)
Definition theCall (r : Recommendation)
    : JsString.t * JsString.t * JsString.t * Direction * Z * JsString.t
      * JsString.t :=
  (id r, date r, ticker r, direction r, confidence r, type r, summary r).

(** Whether an update of the batch names the entry. *)
Definition named (updates : list Update) (r : Recommendation) : bool :=
  existsb (fun u => JsString.eqb (id r) (updId u)) updates.

(** The files [pruneOldAnalyses] is after at clock reading [now], and can
    remove: the analyses, option plays and sentiment reads among the [.md]
    files, last modified more than thirty days ago. *)
Definition prunable (now : time) (f : File) : bool :=
  JsString.endsWith (name f) (js ".md")
  && negb (now - 30 * 24 * 60 * 60 * 1000 <=? mtime f)
  && isAnalysis (name f) && removable f.

(** The daily files consolidation is after at clock reading [now]: the
    [.md] files of the daily kinds, last modified more than seven days
    ago. *)
Definition oldDaily (now : time) (f : File) : bool :=
  JsString.endsWith (name f) (js ".md")
  && negb (now - 7 * 24 * 60 * 60 * 1000 <=? mtime f)
  && isDaily (name f).

(** The file of a weekly summary, as [writeFileSync] creates it. *)
Definition summaryFile (now : time) (weekKey : JsString.t)
    (entries : list Entry) : File :=
  mkFile (summaryName weekKey)
    (JsString.toWellFormed (summaryText weekKey entries)) now true true.

(** What the loop of [pruneOldAnalyses] removes of the files it is given:
    the analyses older than the limit [w] that can be removed. *)
Definition aim (w : time) (f : File) : bool :=
  negb (w <=? mtime f) && isAnalysis (name f) && removable f.

(** Files in the order of their modification times. *)
Fixpoint ascending (l : list File) : Prop :=
  match l with
  | [] => True
  | f :: l' => (forall g, In g l' -> mtime f <= mtime g) /\ ascending l'
  end.

(** The sizes of files, added up. *)
Fixpoint sizeOf (size : File -> Z) (l : list File) : Z :=
  match l with
  | [] => 0
  | f :: l' => size f + sizeOf size l'
  end.

(** The [.md] files of a directory, in its order. *)
Definition markdown (dir : Dir) : list File :=
  filter (fun f => JsString.endsWith (name f) (js ".md")) dir.

(** The integers from 0 to [n]. *)
Definition upTo (n : Z) : list Z := map Z.of_nat (seq 0 (S (Z.to_nat n))).

(** The percentage of [k] half calls among [total] calls. *)
Definition percentOfHalves (k total : Z) : Z :=
  Math_round (((number k * 0.5) / number total) * 100)%float.

(** A text without a line terminator. *)
Definition oneLine (s : JsString.t) : bool :=
  forallb (fun c => negb (JsString.isLineTerminator c)) s.

(** A pattern without groups that, where it matches, takes units of the
    class [p] only and hands the rest of the input on. *)
Definition consumes (p : N -> bool) (r : re) : Prop :=
  forall (R : Type) (s : JsString.t) (caps : captures)
         (k : JsString.t -> captures -> option R) (x : R),
    run r s caps k = Some x ->
    exists W s', s = W ++ s' /\ forallb p W = true /\ k s' caps = Some x.

(** A pattern whose first group, where the pattern matches, holds units of
    the class [p] only. *)
Definition captures1 (p : N -> bool) (r : re) : Prop :=
  forall (s : JsString.t) (caps : captures)
         (k : JsString.t -> captures -> option result) (m : result),
    (forall s' caps' m', k s' caps' = Some m' -> groups m' = caps') ->
    run r s caps k = Some m -> forallb p (group 1 m) = true.

(** The part of a weekly summary that holds a file: its name and the
    first 500 code units of its content. *)
Definition summaryBlock (f : File) : JsString.t :=
  js "---" ++ nl ++ js "### " ++ name f ++ nl
    ++ JsString.slice0 500 (content f).

End FurtherNotions.
(* ================================================================== *)
(** * Properties *)
(* ================================================================== *)

(** ** Strings and capped lists *)

Section StringFacts.

Lemma jseqb_eq (a b : JsString.t) : JsString.eqb a b = true <-> a = b.
Proof.
  revert b; induction a as [|x a IH]; intros [|y b]; simpl;
    try (split; [discriminate | congruence]); try tauto.
  rewrite andb_true_iff, N.eqb_eq, IH. split.
  - intros [-> ->]; reflexivity.
  - intros H; injection H; auto.
Qed.

Lemma jseqb_refl (a : JsString.t) : JsString.eqb a a = true.
Proof. apply jseqb_eq; reflexivity. Qed.

Lemma jseqb_neq (a b : JsString.t) : JsString.eqb a b = false <-> a <> b.
Proof.
  rewrite <- jseqb_eq. destruct (JsString.eqb a b); split; congruence.
Qed.

Lemma splitHead_app (sep : N) (a b : JsString.t) :
  ~ In sep a -> JsString.splitHead sep (a ++ sep :: b) = a.
Proof.
  induction a as [|c a IH]; simpl; intros H.
  - rewrite N.eqb_refl; reflexivity.
  - destruct (N.eqb_spec c sep) as [->|_]; [tauto|].
    rewrite IH; auto.
Qed.

End StringFacts.

Section Capped.
Context {A : Type}.

Lemma pushCapped_split (cap : nat) (l : list A) (x : A) :
  l ++ [x] = firstn (S (length l) - cap) (l ++ [x]) ++ pushCapped cap l x.
Proof.
  unfold pushCapped, JsString.sliceLast. rewrite last_length.
  destruct (Nat.ltb_spec cap (S (length l))) as [H|H].
  - symmetry; apply firstn_skipn.
  - replace (S (length l) - cap)%nat with 0%nat by lia. reflexivity.
Qed.

Lemma pushCapped_length (cap : nat) (l : list A) (x : A) :
  length (pushCapped cap l x) = Nat.min (S (length l)) cap.
Proof.
  unfold pushCapped, JsString.sliceLast. rewrite last_length.
  destruct (Nat.ltb_spec cap (S (length l))) as [H|H].
  - rewrite length_skipn, last_length; lia.
  - rewrite last_length; lia.
Qed.


Lemma pushCapped_dropped_old (cap : nat) (l : list A) (x : A) :
  (0 < cap)%nat ->
  firstn (S (length l) - cap) (l ++ [x]) = firstn (S (length l) - cap) l.
Proof.
  intros Hcap. rewrite firstn_app.
  replace (S (length l) - cap - length l)%nat with 0%nat by lia.
  rewrite firstn_O. apply app_nil_r.
Qed.

End Capped.

(** ** The ledger: recording, reviewing, noting *)

Section Ledger.
Import JsDate Performance.

Lemma recordRecommendation_recs (now : time) (rec : Recommendation)
    (data : PerformanceData) :
  recommendations (recordRecommendation now rec data)
  = pushCapped 200 (recommendations data) (withId rec (makeId now rec)).
Proof. reflexivity. Qed.

(** C2, as the code has it: a call to [recordRecommendation] leaves the old
    ledger followed by the new entry, cut to its last 200 entries. The
    length becomes [min (n + 1) 200]: one more below the cap, 200 at the cap
    and above it, never more than 200; what is dropped is a prefix of the
    old ledger, its oldest entries. *)
Theorem recordRecommendation_length_and_eviction (now : time)
    (rec : Recommendation) (data : PerformanceData) :
  let old := recommendations data in
  let new := recommendations (recordRecommendation now rec data) in
  length new = Nat.min (S (length old)) 200
  /\ (length new <= 200)%nat
  /\ old ++ [withId rec (makeId now rec)]
     = firstn (S (length old) - 200) old ++ new.
Proof.
  cbv zeta. rewrite recordRecommendation_recs.
  split; [apply pushCapped_length|].
  split; [rewrite pushCapped_length; lia|].
  rewrite <- (pushCapped_dropped_old 200 (recommendations data)
                (withId rec (makeId now rec))) by lia.
  apply pushCapped_split.
Qed.

(** C2 as stated fails at the cap: recording into a ledger of 200 entries
    leaves 200 entries, not 201. *)
Lemma recordRecommendation_at_cap_keeps_length :
  ~ (forall now rec data,
       length (recommendations (recordRecommendation now rec data))
       = S (length (recommendations data))).
Proof.
  intros H.
  specialize (H 0%Z (Examples.call "" "2024-01-03" "SPY" None)
                Examples.fullLedger).
  rewrite recordRecommendation_recs, pushCapped_length in H.
  vm_compute in H. discriminate.
Qed.

(** *** Strategy notes *)

Lemma isoDate_no_T (day : Z) : ~ In 84%N (isoDateOfDay day).
Proof.
  assert (Hd : forall d, (0 <= d < 10)%Z -> JsString.digit d <> 84%N).
  { intros d Hd. unfold JsString.digit. lia. }
  assert (Hp : forall w n acc, ~ In 84%N acc ->
                 ~ In 84%N (JsString.padDigits w n acc)).
  { induction w as [|w IH]; simpl; intros n acc Hacc; auto.
    apply IH. simpl. intros [E|E]; [|tauto].
    apply (Hd (n mod 10)%Z); [apply Z.mod_pos_bound; lia | assumption]. }
  assert (Hy : forall y, ~ In 84%N (isoYear y)).
  { intros y. unfold isoYear, JsString.pad.
    destruct ((0 <=? y) && (y <=? 9999))%Z.
    - apply Hp; simpl; tauto.
    - apply not_in_cons. split.
      + destruct (y <? 0)%Z; discriminate.
      + apply Hp; simpl; tauto. }
  unfold isoDateOfDay. destruct (civilFromDays day) as [[y m] d].
  rewrite !in_app_iff. unfold JsString.pad.
  intros [E|[E|[E|[E|E]]]].
  - exact (Hy _ E).
  - simpl in E. destruct E as [E|[]]; discriminate.
  - revert E; apply Hp; simpl; tauto.
  - simpl in E. destruct E as [E|[]]; discriminate.
  - revert E; apply Hp; simpl; tauto.
Qed.

(** [toISOString().split('T')[0]] is the date of the time value. *)
Lemma isoDay_isoDate (t : time) : isoDay t = isoDate t.
Proof.
  unfold isoDay, toISOString.
  change (js "T" ++ ?x) with (84%N :: x).
  apply splitHead_app. apply isoDate_no_T.
Qed.


(** *** Outcome updates *)

Lemma applyUpdate_ids (now : time) (u : Update) (recs : list Recommendation) :
  map id (applyUpdate now u recs) = map id recs.
Proof.
  induction recs as [|r recs IH]; simpl; [reflexivity|].
  destruct (JsString.eqb (id r) (updId u)); simpl; congruence.
Qed.

Lemma applyUpdate_nth_other (now : time) (u : Update)
    (recs : list Recommendation) (i : nat) (r : Recommendation) :
  nth_error recs i = Some r -> id r <> updId u ->
  nth_error (applyUpdate now u recs) i = Some r.
Proof.
  revert i; induction recs as [|r0 recs IH]; intros [|i]; simpl;
    try discriminate.
  - intros [= ->] Hne. apply jseqb_neq in Hne. rewrite Hne. reflexivity.
  - intros Hn Hne. destruct (JsString.eqb (id r0) (updId u)); simpl; auto.
Qed.

Lemma applyUpdate_nth_first (now : time) (u : Update)
    (recs : list Recommendation) (i : nat) (r : Recommendation) :
  nth_error recs i = Some r -> id r = updId u ->
  ~ In (id r) (map id (firstn i recs)) ->
  nth_error (applyUpdate now u recs) i = Some (review now u r).
Proof.
  revert i; induction recs as [|r0 recs IH]; intros [|i]; simpl;
    try discriminate.
  - intros [= ->] He _. apply jseqb_eq in He. rewrite He. reflexivity.
  - intros Hn He Hfirst.
    destruct (JsString.eqb (id r0) (updId u)) eqn:E.
    + apply jseqb_eq in E. exfalso. apply Hfirst. left. congruence.
    + simpl. apply IH; auto.
Qed.

Lemma applyUpdate_absent (now : time) (u : Update)
    (recs : list Recommendation) :
  ~ In (updId u) (map id recs) -> applyUpdate now u recs = recs.
Proof.
  induction recs as [|r recs IH]; simpl; intros H; [reflexivity|].
  destruct (JsString.eqb (id r) (updId u)) eqn:E.
  - apply jseqb_eq in E. tauto.
  - f_equal. apply IH. tauto.
Qed.

Lemma applyUpdates_ids (clock : nat -> time) (updates : list Update) :
  forall k recs, map id (applyUpdates clock k updates recs) = map id recs.
Proof.
  induction updates as [|u updates IH]; simpl; intros k recs; [reflexivity|].
  rewrite IH. apply applyUpdate_ids.
Qed.

Lemma applyUpdates_absent (clock : nat -> time) (updates : list Update) :
  forall k recs,
    (forall u, In u updates -> ~ In (updId u) (map id recs)) ->
    applyUpdates clock k updates recs = recs.
Proof.
  induction updates as [|u updates IH]; simpl; intros k recs H;
    [reflexivity|].
  rewrite applyUpdate_absent by auto. apply IH; auto.
Qed.

Lemma applyUpdates_nth_other (clock : nat -> time) (updates : list Update) :
  forall k recs i r,
    nth_error recs i = Some r -> ~ In (id r) (map updId updates) ->
    nth_error (applyUpdates clock k updates recs) i = Some r.
Proof.
  induction updates as [|u updates IH]; simpl; intros k recs i r Hn Hne;
    [assumption|].
  apply IH; [|tauto]. apply applyUpdate_nth_other; [assumption|].
  intros E. apply Hne. left. congruence.
Qed.

Lemma firstn_map_ids (i : nat) (recs recs' : list Recommendation) :
  map id recs' = map id recs ->
  map id (firstn i recs') = map id (firstn i recs).
Proof. intros H. rewrite <- !firstn_map. congruence. Qed.

Lemma applyUpdates_nth_last (clock : nat -> time) (us1 : list Update) :
  forall k recs i r u us2,
    nth_error recs i = Some r ->
    ~ In (id r) (map id (firstn i recs)) ->
    updId u = id r -> ~ In (id r) (map updId us2) ->
    nth_error (applyUpdates clock k (us1 ++ u :: us2) recs) i
    = Some (review (clock (k + length us1)%nat) u r).
Proof.
  induction us1 as [|u0 us1 IH]; simpl; intros k recs i r u us2 Hn Hfirst Hu Hus2.
  - rewrite Nat.add_0_r. apply applyUpdates_nth_other; [|assumption].
    apply applyUpdate_nth_first; auto.
  - replace (k + S (length us1))%nat with (S k + length us1)%nat by lia.
    destruct (JsString.eqb (id r) (updId u0)) eqn:E.
    + apply jseqb_eq in E.
      rewrite (IH (S k) _ i (review (clock k) u0 r) u us2); auto.
      * apply applyUpdate_nth_first; auto.
      * simpl. rewrite (firstn_map_ids i _ _ (applyUpdate_ids (clock k) u0 recs)).
        assumption.
    + apply jseqb_neq in E.
      apply IH; auto.
      * apply applyUpdate_nth_other; auto.
      * rewrite (firstn_map_ids i _ _ (applyUpdate_ids (clock k) u0 recs)).
        assumption.
Qed.

Lemma setRecommendations_same (data : PerformanceData) :
  setRecommendations data (recommendations data) = data.
Proof. destruct data; reflexivity. Qed.

(** C9: [batchUpdateOutcomes] is total; updates whose ids the ledger does
    not hold change nothing; whatever the other updates, an entry whose id
    no update names stays as it is; and the first entry with an id that is
    named ends with the outcome and the notes of the last update naming it
    and with [reviewedAt] set to the clock reading of that update, its other
    fields untouched. *)
Theorem batchUpdateOutcomes_by_id (clock : nat -> time)
    (updates : list Update) (data : PerformanceData) :
  let after := batchUpdateOutcomes clock updates data in
  ((forall u, In u updates -> ~ In (updId u) (map id (recommendations data)))
   -> after = data)
  /\ (forall i r,
        nth_error (recommendations data) i = Some r ->
        ~ In (id r) (map updId updates) ->
        nth_error (recommendations after) i = Some r)
  /\ (forall i r us1 u us2,
        nth_error (recommendations data) i = Some r ->
        ~ In (id r) (map id (firstn i (recommendations data))) ->
        updates = us1 ++ u :: us2 -> updId u = id r ->
        ~ In (id r) (map updId us2) ->
        nth_error (recommendations after) i
        = Some (mkRecommendation (id r) (date r) (ticker r) (direction r)
                  (confidence r) (type r) (summary r)
                  (Some (outcomeOf (updOutcome u)))
                  (Some (toISOString (clock (length us1))))
                  (Some (updNotes u)))).
Proof.
  cbv zeta. unfold batchUpdateOutcomes. split; [|split].
  - intros H. rewrite applyUpdates_absent by assumption.
    apply setRecommendations_same.
  - intros i r Hn Hne. simpl. apply applyUpdates_nth_other; assumption.
  - intros i r us1 u us2 Hn Hfirst -> Hu Hus2. simpl.
    rewrite (applyUpdates_nth_last clock us1 0%nat _ i r u us2); auto.
Qed.

(** An instance of C9: an update for an id the ledger does not hold leaves
    it as it is, and an update for [abc-1] rewrites the first entry. *)
Lemma batchUpdateOutcomes_by_id_witness :
  batchUpdateOutcomes (fun _ => 0%Z)
    [mkUpdate (js "zzz-9") Correct (js "good call")] Examples.twoPending
  = Examples.twoPending
  /\ nth_error
       (recommendations
          (batchUpdateOutcomes (fun _ => 1704934800000%Z)
             [mkUpdate (js "abc-1") Correct (js "good call")]
             Examples.twoPending)) 0
     = Some (mkRecommendation (js "abc-1") (js "2024-01-08") (js "NVDA")
               bullish 50 (js "signal") (js "summary") (Some correct)
               (Some (js "2024-01-11T01:00:00.000Z")) (Some (js "good call"))).
Proof.
  split.
  - apply (batchUpdateOutcomes_by_id (fun _ => 0%Z)
             [mkUpdate (js "zzz-9") Correct (js "good call")]
             Examples.twoPending).
    intros u [<-|[]]. vm_compute.
    intros [E|[E|[]]]; discriminate.
  - apply (proj2 (proj2 (batchUpdateOutcomes_by_id (fun _ => 1704934800000%Z)
             [mkUpdate (js "abc-1") Correct (js "good call")]
             Examples.twoPending)) 0%nat
             (Examples.call "abc-1" "2024-01-08" "NVDA" None) []
             (mkUpdate (js "abc-1") Correct (js "good call")) []).
    + reflexivity.
    + simpl; tauto.
    + reflexivity.
    + reflexivity.
    + simpl; tauto.
Defined.

End Ledger.

(** ** Recommendation ids *)

Section Ids.
Import JsDate Performance.
Local Open Scope Z_scope.

Lemma digitsOf_value (radix : Z) (fuel : nat) :
  2 <= radix ->
  forall n, 0 <= n < 2 ^ Z.of_nat fuel ->
    valueOf radix (JsString.digitsOf radix fuel n) = n
    /\ Forall (fun d => 0 <= d < radix) (JsString.digitsOf radix fuel n).
Proof.
  intros Hr. induction fuel as [|fuel IH]; intros n Hn.
  - simpl in *. split; [lia | constructor].
  - simpl JsString.digitsOf. destruct (Z.leb_spec n 0) as [H0|H0].
    + simpl. split; [lia | constructor].
    + assert (Hq : 0 <= n / radix < 2 ^ Z.of_nat fuel).
      { rewrite Nat2Z.inj_succ, Z.pow_succ_r in Hn by lia.
        split; [apply Z.div_pos; lia|].
        apply Z.div_lt_upper_bound; [lia|]. nia. }
      destruct (IH _ Hq) as [Hv Hd]. simpl. rewrite Hv. split.
      * rewrite Z.add_comm. symmetry. apply Z.div_mod. lia.
      * constructor; [apply Z.mod_pos_bound; lia | assumption].
Qed.

Lemma digit36_inj (a b : Z) :
  0 <= a < 36 -> 0 <= b < 36 ->
  JsString.digit36 a = JsString.digit36 b -> a = b.
Proof.
  unfold JsString.digit36. intros Ha Hb.
  destruct (Z.ltb_spec a 10), (Z.ltb_spec b 10); lia.
Qed.

Lemma digit36_not_dash (a : Z) : 0 <= a < 36 -> JsString.digit36 a <> 45%N.
Proof.
  unfold JsString.digit36. intros Ha. destruct (Z.ltb_spec a 10); lia.
Qed.

Lemma map_digit36_inj (l1 l2 : list Z) :
  Forall (fun d => 0 <= d < 36) l1 -> Forall (fun d => 0 <= d < 36) l2 ->
  map JsString.digit36 l1 = map JsString.digit36 l2 -> l1 = l2.
Proof.
  intros H1; revert l2; induction H1 as [|a l1 Ha H1 IH];
    intros l2 H2 E; destruct H2 as [|b l2 Hb H2]; simpl in E;
    try discriminate; [reflexivity|].
  injection E as E1 E2. f_equal; [apply digit36_inj; assumption | auto].
Qed.

Lemma digitsOfTime_spec (n : Z) :
  0 < n ->
  valueOf 36 (digitsOfTime n) = n
  /\ Forall (fun d => 0 <= d < 36) (digitsOfTime n).
Proof.
  intros Hn. apply digitsOf_value; [lia|].
  split; [lia|].
  rewrite Nat2Z.inj_succ, Z2Nat.id by apply Z.log2_nonneg.
  apply Z.log2_spec; assumption.
Qed.

Lemma toString36_pos (n : Z) :
  0 < n -> JsString.toString36 n = map JsString.digit36 (rev (digitsOfTime n)).
Proof.
  intros Hn. unfold JsString.toString36, JsString.toStringRadix.
  destruct (Z.eqb_spec n 0); [lia|].
  destruct (Z.ltb_spec n 0); [lia|].
  rewrite Z.abs_eq by lia. reflexivity.
Qed.

(** The radix-36 text of a clock reading has no dash in it. *)
Lemma toString36_no_dash (n : Z) : 0 <= n -> ~ In 45%N (JsString.toString36 n).
Proof.
  intros Hn. destruct (Z.eq_dec n 0) as [->|Hne].
  - vm_compute. intros [E|[]]; discriminate.
  - rewrite toString36_pos by lia. rewrite in_map_iff.
    intros [d [Hd Hin]]. apply in_rev in Hin.
    destruct (digitsOfTime_spec n) as [_ Hall]; [lia|].
    rewrite Forall_forall in Hall. exact (digit36_not_dash _ (Hall _ Hin) Hd).
Qed.

(** Two clock readings with the same radix-36 text are the same. *)
Lemma toString36_inj (a b : Z) :
  0 <= a -> 0 <= b -> JsString.toString36 a = JsString.toString36 b -> a = b.
Proof.
  assert (Hzero : forall n, 0 < n ->
            JsString.toString36 n <> JsString.toString36 0).
  { intros n Hn E. rewrite toString36_pos in E by assumption.
    destruct (digitsOfTime_spec n Hn) as [Hv Hall].
    change (JsString.toString36 0) with (map JsString.digit36 (rev [0])) in E.
    apply map_digit36_inj in E.
    - apply (f_equal (@rev Z)) in E. rewrite rev_involutive in E.
      rewrite E in Hv. simpl in Hv. lia.
    - apply Forall_rev; assumption.
    - repeat constructor; lia. }
  intros Ha Hb E.
  destruct (Z.eq_dec a 0) as [->|Ha0], (Z.eq_dec b 0) as [->|Hb0];
    try reflexivity.
  - exfalso. apply (Hzero b); [lia | congruence].
  - exfalso. apply (Hzero a); [lia | congruence].
  - rewrite !toString36_pos in E by lia.
    destruct (digitsOfTime_spec a) as [Hva Halla]; [lia|].
    destruct (digitsOfTime_spec b) as [Hvb Hallb]; [lia|].
    apply map_digit36_inj in E; try (apply Forall_rev; assumption).
    apply (f_equal (@rev Z)) in E. rewrite !rev_involutive in E.
    congruence.
Qed.

(** The text before the first occurrence of a unit is determined. *)
Lemma app_before_first (c : N) (x x' y y' : JsString.t) :
  ~ In c x -> ~ In c x' -> x ++ c :: y = x' ++ c :: y' -> x = x'.
Proof.
  revert x'; induction x as [|a x IH]; intros [|a' x'] Hx Hx' E;
    simpl in *.
  - reflexivity.
  - injection E as E1 _. subst. tauto.
  - injection E as E1 _. subst. tauto.
  - injection E as E1 E2. subst. f_equal. apply (IH x'); tauto.
Qed.

(** The text after the last occurrence of a unit is determined. *)
Lemma app_after_last (c : N) (x x' y y' : JsString.t) :
  ~ In c y -> ~ In c y' -> x ++ c :: y = x' ++ c :: y' -> y = y'.
Proof.
  intros Hy Hy' E. apply (f_equal (@rev N)) in E.
  rewrite !rev_app_distr in E. simpl in E. rewrite <- !app_assoc in E.
  simpl in E.
  apply app_before_first in E; try (rewrite <- in_rev; assumption).
  apply (f_equal (@rev N)) in E. rewrite !rev_involutive in E. exact E.
Qed.

Lemma makeId_shape (now : time) (rec : Recommendation) :
  makeId now rec
  = (date rec ++ js "-" ++ ticker rec) ++ 45%N :: JsString.toString36 now.
Proof. unfold makeId. rewrite <- !app_assoc. reflexivity. Qed.

(** The clock reading of an id is determined by the id. *)
Lemma makeId_time_inj (now1 now2 : time) (rec1 rec2 : Recommendation) :
  0 <= now1 -> 0 <= now2 -> makeId now1 rec1 = makeId now2 rec2 ->
  now1 = now2.
Proof.
  intros H1 H2 E. rewrite !makeId_shape in E.
  apply app_after_last in E; try (apply toString36_no_dash; assumption).
  apply toString36_inj; assumption.
Qed.




(** *** Ids in the ledger *)

Lemma NoDup_skipn (A : Type) (n : nat) (l : list A) :
  NoDup l -> NoDup (skipn n l).
Proof.
  intros H. rewrite <- (firstn_skipn n l) in H.
  apply NoDup_app_remove_l in H. assumption.
Qed.

Lemma In_skipn_In (A : Type) (n : nat) (l : list A) (x : A) :
  In x (skipn n l) -> In x l.
Proof.
  intros H. rewrite <- (firstn_skipn n l). apply in_or_app. tauto.
Qed.

Lemma pushCapped_suffix (A : Type) (cap : nat) (l : list A) (x : A) :
  exists n, pushCapped cap l x = skipn n (l ++ [x]).
Proof.
  unfold pushCapped, JsString.sliceLast.
  destruct (Nat.ltb cap (length (l ++ [x]))); [eauto|].
  exists 0%nat. reflexivity.
Qed.

Lemma stampedBefore_weaken (b b' : time) (recs : list Recommendation) :
  b <= b' -> stampedBefore b recs -> stampedBefore b' recs.
Proof.
  intros Hb H. unfold stampedBefore in *. rewrite Forall_forall in *.
  intros r Hr. destruct (H r Hr) as [t [rec [Ht E]]].
  exists t, rec. split; [lia | assumption].
Qed.

(** A call recorded at a clock reading above those of the ledger keeps the
    ids of the ledger unique. *)
Lemma recordRecommendation_keeps_ids_unique (now : time)
    (rec : Recommendation) (data : PerformanceData) :
  0 <= now -> stampedBefore now (recommendations data) ->
  NoDup (map id (recommendations data)) ->
  NoDup (map id (recommendations (recordRecommendation now rec data)))
  /\ stampedBefore (now + 1)
       (recommendations (recordRecommendation now rec data)).
Proof.
  intros Hnow Hst Hnd. rewrite recordRecommendation_recs.
  destruct (pushCapped_suffix _ 200 (recommendations data)
              (withId rec (makeId now rec))) as [n ->].
  split.
  - rewrite <- skipn_map. apply NoDup_skipn.
    rewrite map_app. simpl.
    apply NoDup_app; [assumption | repeat constructor; simpl; tauto |].
    intros i Hin [<-|[]]. apply in_map_iff in Hin.
    destruct Hin as [r [E Hr]]. unfold stampedBefore in Hst.
    rewrite Forall_forall in Hst.
    destruct (Hst r Hr) as [t [rec' [Ht E']]]. rewrite E' in E.
    apply makeId_time_inj in E; lia.
  - unfold stampedBefore. apply Forall_forall. intros r Hr.
    apply In_skipn_In in Hr. apply in_app_or in Hr.
    destruct Hr as [Hr|[<-|[]]].
    + unfold stampedBefore in Hst. rewrite Forall_forall in Hst.
      destruct (Hst r Hr) as [t [rec' [Ht E]]].
      exists t, rec'. split; [lia | assumption].
    + exists now, rec. split; [lia | reflexivity].
Qed.

(** Calls recorded at strictly increasing clock readings, from the empty
    ledger on, leave a ledger of unique ids. *)
Lemma recordAll_ids_unique (calls : list (time * Recommendation)) :
  forall bound data,
    0 <= bound -> stampedBefore bound (recommendations data) ->
    NoDup (map id (recommendations data)) ->
    increasingFrom bound calls ->
    NoDup (map id (recommendations (recordAll calls data))).
Proof.
  induction calls as [|[t rec] calls IH]; intros bound data Hb Hst Hnd Hinc;
    [assumption|].
  simpl in Hinc. destruct Hinc as [Ht Hinc]. simpl.
  destruct (recordRecommendation_keeps_ids_unique t rec data) as [Hnd' Hst'];
    [lia | apply (stampedBefore_weaken bound); assumption | assumption|].
  apply (IH (t + 1)); [lia | assumption | assumption | assumption].
Qed.

End Ids.

(** ** The reviews *)

Section Reviews.
Import JsDate Performance Scheduler.
Local Open Scope Z_scope.

(** What [getPendingReviews] returns: the entries without a verdict whose
    date is at most the UTC date of the instant 24 hours before the clock
    reading. *)
Lemma getPendingReviews_In (now : time) (data : PerformanceData)
    (r : Recommendation) :
  In r (getPendingReviews now data)
  <-> In r (recommendations data)
      /\ (outcome r = None \/ outcome r = Some pending)
      /\ JsString.leb (date r) (isoDate (now - msPerDay)) = true.
Proof.
  unfold getPendingReviews. rewrite !filter_In, isoDay_isoDate.
  change (24 * 60 * 60 * 1000) with msPerDay.
  unfold isPending. destruct (outcome r) as [[]|]; intuition congruence.
Qed.

(** Whenever the UTC date of 24 hours ago is today's date in New York, as
    it is from 19:00 (20:00 in summer) to midnight there, a pending call
    dated today is returned. *)
Lemma getPendingReviews_same_day (now : time) (data : PerformanceData)
    (r : Recommendation) :
  In r (recommendations data) -> outcome r = None ->
  date r = getTodayET now -> isoDate (now - msPerDay) = getTodayET now ->
  In r (getPendingReviews now data).
Proof.
  intros Hin Ho Hd Hu. apply getPendingReviews_In.
  split; [assumption|]. split; [left; assumption|].
  rewrite Hd, Hu. clear. induction (getTodayET now) as [|c s IH]; simpl.
  - reflexivity.
  - rewrite N.ltb_irrefl. assumption.
Qed.

(** C1 fails on the code at the minute the nightly review runs: at
    2024-01-11T01:00Z it is 20:00 of 2024-01-10 in New York, and
    [getPendingReviews] returns the call dated 2024-01-10, which is today
    there: the threshold is the UTC date of 24 hours ago, 2024-01-10. *)
Theorem getPendingReviews_returns_call_of_today :
  getTodayET Examples.nightlyTime = js "2024-01-10"
  /\ getPendingReviews Examples.nightlyTime Examples.sameDayLedger
     = [Examples.call "2024-01-10-NVDA-lr7iso00" "2024-01-10" "NVDA" None].
Proof. split; vm_compute; reflexivity. Qed.

(** *** The weekly review *)




(** With 20 calls it need not be: 11 correct and 1 partial make 57.5
    percent, and the double-precision quotient falls just below it. *)
Lemma accuracyOf_below_exact :
  accuracyOf 11 1 20 = 57 /\ exactPercent 11 1 20 = 58.
Proof. split; vm_compute; reflexivity. Qed.

Lemma count_reviewed (l : list Recommendation) :
  forallb isReviewed l = true ->
  count correct l + count wrong l + count partial l = Z.of_nat (length l).
Proof.
  unfold count. induction l as [|r l IH]; intros H; [reflexivity|].
  simpl in H. apply andb_true_iff in H. destruct H as [Hr Hl].
  specialize (IH Hl).
  assert (Hf : forall o,
            length (filter (hasOutcome o) (r :: l))
            = ((if hasOutcome o r then 1 else 0)
               + length (filter (hasOutcome o) l))%nat).
  { intros o. simpl. destruct (hasOutcome o r); reflexivity. }
  rewrite !Hf. cbn [length].
  remember (hasOutcome correct r) as b1 eqn:E1.
  remember (hasOutcome wrong r) as b2 eqn:E2.
  remember (hasOutcome partial r) as b3 eqn:E3.
  unfold hasOutcome in E1, E2, E3. unfold isReviewed in Hr.
  destruct (outcome r) as [[]|]; try discriminate; subst; lia.
Qed.
Lemma thisWeek_reviewed (now : time) (data : PerformanceData) :
  forallb isReviewed (thisWeek now data) = true.
Proof.
  apply forallb_forall. intros r Hr. unfold thisWeek in Hr.
  apply filter_In in Hr. destruct Hr as [_ Hr].
  apply andb_true_iff in Hr. tauto.
Qed.

(** The day of the week of the week label is that of the run: the label is
    the UTC date seven days before the clock reading. *)
Lemma weekOf_weekday (now : time) (calls : list Recommendation)
    (response : JsString.t) :
  weekOf (weeklyScoreOf now calls response) = isoDate (now - 7 * msPerDay)
  /\ WeekDay (now - 7 * msPerDay) = WeekDay now.
Proof.
  split.
  - simpl. rewrite isoDay_isoDate. reflexivity.
  - unfold WeekDay, WeekDayOfDay, Day.
    replace (now - 7 * msPerDay) with (now + (-7) * msPerDay) by lia.
    rewrite Z.div_add by (unfold msPerDay; lia).
    replace (now / msPerDay + -7 + 4) with (now / msPerDay + 4 + (-1) * 7)
      by lia.
    apply Z.mod_add. lia.
Qed.

(** C8 fails on the code: the weekly review of Friday 2024-01-12, 20:30 in
    New York, appends a score labelled 2024-01-06, the UTC date seven days
    before the run, and that day is a Saturday (day 6 of the week), not a
    Monday (day 1). *)
Theorem weeklyReview_weekOf_is_a_saturday :
  exists score t,
    weeklyScores
      (weeklyReview (Examples.runAt Examples.weeklyTime Examples.weeklyResponse)
         Examples.reviewedLedger) = [score]
    /\ weekOf score = js "2024-01-06"
    /\ parseISODate (weekOf score) = Some t
    /\ WeekDay t = 6.
Proof.
  exists (weeklyScoreOf Examples.weeklyTime
            (recommendations Examples.reviewedLedger) Examples.weeklyResponse).
  exists 1704499200000.
  repeat split; vm_compute; reflexivity.
Qed.

End Reviews.

(** ** Extraction of the review lines *)

Section Extraction.
Import JsDate Performance Scheduler Regex.
Local Open Scope Z_scope.

Lemma parseLine_updatesOfLine (updates : list Update) (line : JsString.t) :
  parseLine updates line = updates ++ updatesOfLine line.
Proof.
  unfold parseLine, updatesOfLine, reviewTuple.
  destruct (search reviewRe line) as [m|]; simpl.
  - destruct (JsString.eqb _ _); [symmetry; apply app_nil_r | reflexivity].
  - symmetry; apply app_nil_r.
Qed.

Lemma fold_parseLine (lines : list JsString.t) :
  forall updates,
    fold_left parseLine lines updates
    = updates ++ flat_map updatesOfLine lines.
Proof.
  induction lines as [|line lines IH]; simpl; intros updates.
  - symmetry; apply app_nil_r.
  - rewrite IH, parseLine_updatesOfLine, <- app_assoc. reflexivity.
Qed.

(** The updates read off a response are, in order, those of its review
    lines, the matches of [/REVIEW:\s*([^\n]+)/gi]. *)
Lemma parseReviews_chunks (response : JsString.t) :
  parseReviews response
  = flat_map updatesOfLine (matchAll reviewLinesRe response).
Proof. apply (fold_parseLine _ []). Qed.

End Extraction.

(** ** The calendar *)

Section Calendar.
Import JsDate.
Local Open Scope Z_scope.

(** The year of the era and the day of the year that [civilFromDays]
    computes for a day of the era are in range. *)
Lemma era_bounds (doe : Z) :
  0 <= doe < 146097 ->
  let yoe := (doe - doe / 1460 + doe / 36524 - doe / 146096) / 365 in
  0 <= yoe <= 399 /\ 0 <= doe - (365 * yoe + yoe / 4 - yoe / 100) <= 365.
Proof. intros H. cbv zeta. Z.div_mod_to_equations. lia. Qed.

(** The day number of the civil date of a day number is that day
    number, and the month of a civil date is one of the twelve. *)
Lemma daysFromCivil_civilFromDays (z : Z) :
  let '(y, m, d) := civilFromDays z in
  daysFromCivil y m d = z /\ 1 <= m <= 12.
Proof.
  unfold civilFromDays.
  set (z' := z + 719468). set (era := z' / 146097).
  set (doe := z' mod 146097).
  assert (Hdoe : 0 <= doe < 146097) by (apply Z.mod_pos_bound; lia).
  pose proof (era_bounds doe Hdoe) as Hok. cbv zeta in Hok.
  set (yoe := (doe - doe / 1460 + doe / 36524 - doe / 146096) / 365) in *.
  set (doy := doe - (365 * yoe + yoe / 4 - yoe / 100)) in *.
  destruct Hok as [Hyoe Hdoy].
  set (mp := (5 * doy + 2) / 153).
  assert (Hmp : 0 <= mp <= 11).
  { unfold mp. split.
    - apply Z.div_pos; lia.
    - apply Z.lt_succ_r. apply Z.div_lt_upper_bound; lia. }
  assert (Hz : era * 146097 + doe = z').
  { unfold era, doe. rewrite Z.mul_comm. symmetry. apply Z.div_mod. lia. }
  assert (Hera : (yoe + era * 400) / 400 = era).
  { rewrite Z.div_add by lia. rewrite Z.div_small by lia. lia. }
  unfold daysFromCivil.
  destruct (Z.ltb_spec mp 10) as [Hlt|Hge].
  - destruct (Z.leb_spec (mp + 3) 2); [lia|].
    rewrite Hera. split; [|lia].
    replace (mp + 3 - 3) with mp by lia.
    replace (yoe + era * 400 - era * 400) with yoe by lia.
    unfold z', doy in *. lia.
  - destruct (Z.leb_spec (mp - 9) 2); [|lia].
    replace (yoe + era * 400 + 1 - 1) with (yoe + era * 400) by lia.
    rewrite Hera. split; [|lia].
    replace (mp - 9 + 9) with mp by lia.
    replace (yoe + era * 400 - era * 400) with yoe by lia.
    unfold z', doy in *. lia.
Qed.

Lemma Day_MakeDate (day : Z) : Day (MakeDate day 0) = day.
Proof.
  unfold Day, MakeDate. rewrite Z.add_0_r.
  apply Z.div_mul. unfold msPerDay. lia.
Qed.

Lemma TimeWithinDay_MakeDate (day : Z) : TimeWithinDay (MakeDate day 0) = 0.
Proof.
  unfold TimeWithinDay, MakeDate. rewrite Z.add_0_r.
  apply Z.mod_mul. unfold msPerDay. lia.
Qed.

(** [setDate(n)] moves a date within its month's numbering: the day
    becomes the one [n - getDate()] days away, the time of day stays. *)
Lemma setDate_moves (t : time) (n : Z) :
  setDate (Some t) (Some n)
  = Some (MakeDate (Day t + (n - DateFromTime t)) (TimeWithinDay t)).
Proof.
  unfold setDate, MakeDay, YearFromTime, MonthFromTime, DateFromTime.
  pose proof (daysFromCivil_civilFromDays (Day t)) as H.
  destruct (civilFromDays (Day t)) as [[y m] d]. simpl.
  destruct H as [H Hm].
  rewrite Z.div_small, Z.mod_small, Z.add_0_r by lia.
  replace (m - 1 + 1) with m by lia.
  do 2 f_equal. rewrite <- H. unfold daysFromCivil. lia.
Qed.

(** The week key of a date text that [new Date] accepts: the date of the
    day [1 - getDay()] days from it. *)
Lemma weekKeyOf_day (dateText : JsString.t) (t : time) :
  parseISODate dateText = Some t ->
  BrainManager.weekKeyOf dateText
  = Some (isoDateOfDay (Day t - WeekDay t + 1)).
Proof.
  intros Hp. unfold BrainManager.weekKeyOf. rewrite Hp.
  unfold getDate, getDay. cbn [option_map].
  rewrite setDate_moves. cbn [option_map]. f_equal.
  assert (Ht : exists day, t = MakeDate day 0).
  { unfold parseISODate in Hp.
    destruct (_ && _); [|discriminate]. injection Hp as <-. eauto. }
  destruct Ht as [day ->].
  rewrite Day_MakeDate, TimeWithinDay_MakeDate.
  rewrite isoDay_isoDate. unfold isoDate. rewrite Day_MakeDate.
  f_equal. unfold WeekDay. rewrite Day_MakeDate. lia.
Qed.

(** The day [1 - getDay()] days from a day is a Monday: the Monday on or
    before the day from Monday to Saturday, the Monday after a Sunday. *)
Lemma monday_of_week (day : Z) :
  let key := day - WeekDayOfDay day + 1 in
  WeekDayOfDay key = 1
  /\ (WeekDayOfDay day <> 0 -> key <= day < key + 6)
  /\ (WeekDayOfDay day = 0 -> key = day + 1).
Proof.
  cbv zeta. unfold WeekDayOfDay.
  pose proof (Z.mod_pos_bound (day + 4) 7 ltac:(lia)) as Hb.
  pose proof (Z.div_mod (day + 4) 7 ltac:(lia)) as Hd.
  split; [|lia].
  replace (day - (day + 4) mod 7 + 1 + 4)
    with (1 + ((day + 4) / 7) * 7) by lia.
  rewrite Z.mod_add by lia. reflexivity.
Qed.

End Calendar.

(** ** Consolidation: the directory *)

Section Directory.
Import JsDate BrainManager.
Local Open Scope Z_scope.

Lemma existsSync_In (dir : Dir) (n : JsString.t) :
  existsSync dir n = true <-> In n (map name dir).
Proof.
  unfold existsSync. rewrite existsb_exists, in_map_iff. split.
  - intros [f [Hf E]]. apply jseqb_eq in E. eauto.
  - intros [f [E Hf]]. exists f. split; [assumption|].
    apply jseqb_eq. assumption.
Qed.

Lemma existsSync_false (dir : Dir) (n : JsString.t) :
  existsSync dir n = false <-> ~ In n (map name dir).
Proof.
  rewrite <- existsSync_In. destruct (existsSync dir n); split; congruence.
Qed.

(** In a directory, where names are unique, a file is what its name looks
    up. *)
Lemma lookup_In (dir : Dir) (f : File) :
  NoDup (map name dir) -> In f dir -> lookup dir (name f) = Some f.
Proof.
  unfold lookup. induction dir as [|g dir IH]; simpl; intros Hnd Hin;
    [contradiction|].
  inversion Hnd as [|? ? Hg Hnd']; subst.
  destruct Hin as [->|Hin].
  - rewrite jseqb_refl. reflexivity.
  - destruct (JsString.eqb (name g) (name f)) eqn:E.
    + apply jseqb_eq in E. exfalso. apply Hg. rewrite E.
      apply in_map. assumption.
    + apply IH; assumption.
Qed.

Lemma readFileSync_In (dir : Dir) (f : File) :
  NoDup (map name dir) -> In f dir ->
  readFileSync dir (name f)
  = if readable f then Some (content f) else None.
Proof.
  intros Hnd Hin. unfold readFileSync. rewrite lookup_In by assumption.
  reflexivity.
Qed.

(** A write to a name the directory does not hold adds the file at the
    end. *)
Lemma overwrite_fresh (now : time) (n text : JsString.t) (dir : Dir) :
  ~ In n (map name dir) ->
  overwrite now n text dir = dir ++ [mkFile n text now true true].
Proof.
  induction dir as [|f dir IH]; simpl; intros H; [reflexivity|].
  destruct (JsString.eqb (name f) n) eqn:E.
  - apply jseqb_eq in E. tauto.
  - f_equal. apply IH. tauto.
Qed.

Lemma unlinkSync_spec (dir dir' : Dir) (n : JsString.t) :
  unlinkSync dir n = Some dir' ->
  dir' = filter (fun g => negb (JsString.eqb (name g) n)) dir.
Proof.
  unfold unlinkSync. destruct (lookup dir n) as [f|]; [|discriminate].
  destruct (removable f); [|discriminate]. intros [= <-]. reflexivity.
Qed.

Lemma NoDup_names_filter (p : File -> bool) (dir : Dir) :
  NoDup (map name dir) -> NoDup (map name (filter p dir)).
Proof.
  induction dir as [|f dir IH]; simpl; intros H; [constructor|].
  inversion H as [|? ? Hf Hnd]; subst.
  destruct (p f); simpl; auto.
  constructor; auto.
  intros Hin. apply Hf. apply in_map_iff in Hin.
  destruct Hin as [g [E Hg]]. apply filter_In in Hg.
  apply in_map_iff. exists g. tauto.
Qed.

Lemma NoDup_names_files (dir : Dir) : NoDup (map name dir) -> NoDup dir.
Proof. apply NoDup_map_inv. Qed.

(** *** Sorting by modification time *)

Lemma insertByMtime_perm (f : File) (l : list File) :
  Permutation (insertByMtime f l) (f :: l).
Proof.
  induction l as [|g l IH]; simpl; [reflexivity|].
  destruct (mtime f <=? mtime g); [reflexivity|].
  rewrite IH. apply perm_swap.
Qed.

Lemma sortByMtime_perm (l : list File) :
  Permutation (sortByMtime l) l.
Proof.
  induction l as [|f l IH]; simpl; [reflexivity|].
  rewrite insertByMtime_perm. constructor. assumption.
Qed.

Lemma getBrainFiles_In (dir : Dir) (f : File) :
  In f (getBrainFiles dir)
  <-> In f dir /\ JsString.endsWith (name f) (js ".md") = true.
Proof.
  unfold getBrainFiles.
  rewrite <- (filter_In (fun f => JsString.endsWith (name f) (js ".md"))).
  split; intros H.
  - eapply Permutation_in; [apply sortByMtime_perm | exact H].
  - eapply Permutation_in;
      [symmetry; apply sortByMtime_perm | exact H].
Qed.

Lemma getBrainFiles_NoDup (dir : Dir) :
  NoDup (map name dir) -> NoDup (getBrainFiles dir).
Proof.
  intros H. unfold getBrainFiles.
  eapply Permutation_NoDup;
    [symmetry; apply sortByMtime_perm|].
  apply NoDup_names_files. apply NoDup_names_filter. assumption.
Qed.

(** *** Names *)

Lemma summaryName_not_daily (k : JsString.t) : isDaily (summaryName k) = false.
Proof. reflexivity. Qed.

Lemma summaryName_inj (k k' : JsString.t) :
  summaryName k = summaryName k' -> k = k'.
Proof.
  unfold summaryName. intros E. apply app_inv_head in E.
  apply app_inv_tail in E. assumption.
Qed.

End Directory.

(** ** Consolidation: the weekly groups *)

Section Grouping.
Import JsDate BrainManager Regex.
Local Open Scope Z_scope.

Lemma groupFiles_cons (w : time) (dir : Dir) (f : File) (files : list File)
    (g : Groups) :
  groupFiles w dir (f :: files) g
  = match classOf w f with
    | Skipped => groupFiles w dir files g
    | Throws => None
    | Keyed k => groupFiles w dir files (filed dir k f g)
    end.
Proof.
  unfold classOf, filed. simpl.
  destruct (w <=? mtime f); [reflexivity|].
  destruct (isDaily (name f)); [|reflexivity]. simpl.
  destruct (search dateRe (name f)) as [m|]; [|reflexivity].
  destruct (weekKeyOf (group 1 m)); reflexivity.
Qed.

Lemma classOf_daily (w : time) (f : File) (k : JsString.t) :
  classOf w f = Keyed k ->
  isDaily (name f) = true /\ (w <=? mtime f) = false.
Proof.
  unfold classOf. destruct (w <=? mtime f); [discriminate|].
  destruct (isDaily (name f)); [tauto | discriminate].
Qed.

Lemma classOf_throws_daily (w : time) (f : File) :
  classOf w f = Throws ->
  isDaily (name f) = true /\ (w <=? mtime f) = false.
Proof.
  unfold classOf. destruct (w <=? mtime f); [discriminate|].
  destruct (isDaily (name f)); [tauto | discriminate].
Qed.

(** The class of a daily file depends on the clock through its age
    only. *)
Lemma classOf_same_age (w w' : time) (f : File) :
  (w <=? mtime f) = (w' <=? mtime f) -> classOf w f = classOf w' f.
Proof. unfold classOf. intros ->. reflexivity. Qed.

Lemma entriesOf_app_absent (k k' : JsString.t) (g : Groups) :
  entriesOf k (g ++ [(k', [])]) = entriesOf k g.
Proof.
  unfold entriesOf. induction g as [|[k0 es] g IH]; simpl.
  - destruct (JsString.eqb k' k); reflexivity.
  - destruct (JsString.eqb k0 k); [reflexivity | exact IH].
Qed.

Lemma entriesOf_ensureKey (k k' : JsString.t) (g : Groups) :
  entriesOf k (ensureKey k' g) = entriesOf k g.
Proof.
  unfold ensureKey. destruct (hasKey k' g); [reflexivity|].
  apply entriesOf_app_absent.
Qed.

Lemma hasKey_In (k : JsString.t) (g : Groups) :
  hasKey k g = true <-> In k (map fst g).
Proof.
  unfold hasKey. rewrite existsb_exists, in_map_iff. split.
  - intros [p [Hp E]]. apply jseqb_eq in E. eauto.
  - intros [p [E Hp]]. exists p. split; [assumption|].
    apply jseqb_eq; assumption.
Qed.

Lemma hasKey_ensureKey (k : JsString.t) (g : Groups) :
  hasKey k (ensureKey k g) = true.
Proof.
  unfold ensureKey. destruct (hasKey k g) eqn:E; [assumption|].
  unfold hasKey. rewrite existsb_app. simpl. rewrite jseqb_refl.
  apply orb_true_iff. right. reflexivity.
Qed.

Lemma entriesOf_pushEntry (k k' : JsString.t) (e : Entry) (g : Groups) :
  hasKey k' g = true ->
  entriesOf k (pushEntry k' e g)
  = entriesOf k g ++ (if JsString.eqb k' k then [e] else []).
Proof.
  unfold entriesOf, hasKey.
  induction g as [|[k0 es] g IH]; simpl; intros H; [discriminate|].
  destruct (JsString.eqb k0 k') eqn:E0; simpl.
  - apply jseqb_eq in E0. subst k0.
    destruct (JsString.eqb k' k); [reflexivity|].
    symmetry; apply app_nil_r.
  - simpl in H. destruct (JsString.eqb k0 k) eqn:E1.
    + destruct (JsString.eqb k' k) eqn:E2; [|symmetry; apply app_nil_r].
      apply jseqb_eq in E1, E2. subst. rewrite jseqb_refl in E0.
      discriminate.
    + apply IH. assumption.
Qed.

Lemma keys_pushEntry (k : JsString.t) (e : Entry) (g : Groups) :
  map fst (pushEntry k e g) = map fst g.
Proof.
  induction g as [|[k0 es] g IH]; simpl; [reflexivity|].
  destruct (JsString.eqb k0 k); simpl; congruence.
Qed.

Lemma keys_ensureKey_NoDup (k : JsString.t) (g : Groups) :
  NoDup (map fst g) -> NoDup (map fst (ensureKey k g)).
Proof.
  intros H. unfold ensureKey. destruct (hasKey k g) eqn:E; [assumption|].
  rewrite map_app. simpl.
  apply NoDup_app; [assumption | repeat constructor; simpl; tauto |].
  intros x Hx [<-|[]]. apply hasKey_In in Hx. congruence.
Qed.

Lemma keys_filed_NoDup (dir : Dir) (k : JsString.t) (f : File) (g : Groups) :
  NoDup (map fst g) -> NoDup (map fst (filed dir k f g)).
Proof.
  intros H. unfold filed. destruct (readFileSync dir (name f)).
  - rewrite keys_pushEntry. apply keys_ensureKey_NoDup. assumption.
  - apply keys_ensureKey_NoDup. assumption.
Qed.

Lemma entriesOf_filed (dir : Dir) (k k' : JsString.t) (f : File)
    (g : Groups) :
  entriesOf k (filed dir k' f g)
  = entriesOf k g ++ (if JsString.eqb k' k then entryIn dir f else []).
Proof.
  unfold filed, entryIn. destruct (readFileSync dir (name f)).
  - rewrite entriesOf_pushEntry by apply hasKey_ensureKey.
    rewrite entriesOf_ensureKey. reflexivity.
  - rewrite entriesOf_ensureKey.
    destruct (JsString.eqb k' k); symmetry; apply app_nil_r.
Qed.

(** The first loop, when it does not throw: every group grows by the
    readable files of its week, keys stay unique, and no file has an
    invalid date. *)
Lemma groupFiles_spec (w : time) (dir : Dir) (files : list File) :
  forall g g',
    groupFiles w dir files g = Some g' ->
    (forall k, entriesOf k g' = entriesOf k g ++ membersOf w dir k files)
    /\ (NoDup (map fst g) -> NoDup (map fst g'))
    /\ (forall f, In f files -> classOf w f <> Throws)
    /\ (forall k, In k (map fst g') ->
          In k (map fst g)
          \/ exists f, In f files /\ classOf w f = Keyed k).
Proof.
  induction files as [|f files IH]; intros g g' H.
  - simpl in H. injection H as <-. repeat split.
    + intros k. simpl. symmetry; apply app_nil_r.
    + tauto.
    + intros f [].
    + tauto.
  - rewrite groupFiles_cons in H.
    destruct (classOf w f) as [| |k0] eqn:Ec; [|discriminate|].
    + destruct (IH _ _ H) as [He [Hn [Ht Hk]]]. repeat split.
      * intros k. rewrite He. unfold membersOf. simpl. rewrite Ec.
        reflexivity.
      * assumption.
      * intros f' [<-|Hin]; [congruence | auto].
      * intros k Hin. destruct (Hk k Hin) as [?|[f' [? ?]]]; [tauto|].
        right. exists f'. simpl. tauto.
    + destruct (IH _ _ H) as [He [Hn [Ht Hk]]]. repeat split.
      * intros k. rewrite He, entriesOf_filed, <- app_assoc.
        unfold membersOf. simpl. rewrite Ec. reflexivity.
      * intros Hg. apply Hn. apply keys_filed_NoDup. assumption.
      * intros f' [<-|Hin]; [congruence | auto].
      * intros k Hin. destruct (Hk k Hin) as [Hin'|[f' [? ?]]].
        -- unfold filed in Hin'.
           assert (Hin'' : In k (map fst (ensureKey k0 g))).
           { destruct (readFileSync dir (name f));
               [rewrite keys_pushEntry in Hin'|]; assumption. }
           unfold ensureKey in Hin''. destruct (hasKey k0 g); [tauto|].
           rewrite map_app, in_app_iff in Hin''. simpl in Hin''.
           destruct Hin'' as [?|[<-|[]]]; [tauto|].
           right. exists f. simpl. tauto.
        -- right. exists f'. simpl. tauto.
Qed.

Lemma groupFiles_total (w : time) (dir : Dir) (files : list File) :
  (forall f, In f files -> classOf w f <> Throws) ->
  forall g, exists g', groupFiles w dir files g = Some g'.
Proof.
  induction files as [|f files IH]; intros H g.
  - simpl. eauto.
  - rewrite groupFiles_cons.
    destruct (classOf w f) eqn:Ec.
    + apply IH. intros; apply H; simpl; tauto.
    + exfalso. apply (H f); simpl; tauto.
    + apply IH. intros; apply H; simpl; tauto.
Qed.

Lemma groupFiles_throws (w : time) (dir : Dir) (files : list File) :
  forall g f, In f files -> classOf w f = Throws ->
    groupFiles w dir files g = None.
Proof.
  intros g f Hin Hc. destruct (groupFiles w dir files g) eqn:E;
    [|reflexivity].
  destruct (groupFiles_spec _ _ _ _ _ E) as [_ [_ [Ht _]]].
  exfalso. exact (Ht f Hin Hc).
Qed.

Lemma entriesOf_In (k : JsString.t) (es : list Entry) (g : Groups) :
  NoDup (map fst g) -> In (k, es) g -> entriesOf k g = es.
Proof.
  unfold entriesOf. induction g as [|[k0 es0] g IH]; simpl; intros Hnd Hin;
    [contradiction|].
  inversion Hnd as [|? ? Hk Hnd']; subst.
  destruct Hin as [[= -> ->]|Hin].
  - rewrite jseqb_refl. reflexivity.
  - destruct (JsString.eqb k0 k) eqn:E.
    + apply jseqb_eq in E. subst. exfalso. apply Hk.
      apply (in_map fst) in Hin. assumption.
    + apply IH; assumption.
Qed.

Lemma entriesOf_nonempty_In (k : JsString.t) (g : Groups) :
  entriesOf k g <> [] -> In (k, entriesOf k g) g.
Proof.
  unfold entriesOf. intros H.
  destruct (find (fun p => JsString.eqb (fst p) k) g) as [[k0 es]|] eqn:E;
    [|congruence].
  apply find_some in E. destruct E as [Hin E]. simpl in E.
  apply jseqb_eq in E. subst. assumption.
Qed.

(** *** Members, by file *)

Lemma membersOf_filter (w : time) (dir : Dir) (k : JsString.t)
    (files : list File) :
  NoDup (map name dir) -> (forall f, In f files -> In f dir) ->
  membersOf w dir k files
  = map (fun f => (name f, content f)) (filter (isMember w k) files).
Proof.
  intros Hnd. unfold membersOf.
  induction files as [|f files IH]; intros Hin; [reflexivity|].
  simpl. rewrite IH by (intros; apply Hin; simpl; tauto).
  unfold isMember at 2, entryIn.
  rewrite readFileSync_In by (auto; apply Hin; simpl; tauto).
  destruct (classOf w f) as [| |k']; try reflexivity.
  destruct (JsString.eqb k' k), (readable f); reflexivity.
Qed.

Lemma membersOf_names (w : time) (dir : Dir) (k : JsString.t)
    (files : list File) (e : Entry) :
  In e (membersOf w dir k files) ->
  exists f, In f files /\ classOf w f = Keyed k /\ entryName e = name f.
Proof.
  unfold membersOf. rewrite in_flat_map. intros [f [Hf He]].
  exists f. split; [assumption|].
  destruct (classOf w f) as [| |k'] eqn:Ec; try contradiction.
  destruct (JsString.eqb k' k) eqn:E; [|contradiction].
  apply jseqb_eq in E. subst k'. split; [reflexivity|].
  unfold entryIn in He. destruct (readFileSync dir (name f));
    [|contradiction].
  destruct He as [<-|[]]. reflexivity.
Qed.

End Grouping.

(** ** Consolidation: the summaries *)

Section Summaries.
Import JsDate BrainManager.
Local Open Scope Z_scope.

Lemma deleteEntries_spec (entries : list Entry) :
  forall dir n dir' n',
    deleteEntries entries dir n = (dir', n') ->
    (forall f, In f dir' -> In f dir)
    /\ (forall f, In f dir -> ~ In (name f) (map entryName entries) ->
          In f dir')
    /\ (NoDup (map name dir) -> NoDup (map name dir')).
Proof.
  induction entries as [|e entries IH]; intros dir n dir' n' H.
  - simpl in H. injection H as <- <-. tauto.
  - simpl in H. destruct (unlinkSync dir (entryName e)) as [d1|] eqn:Eu.
    + apply unlinkSync_spec in Eu. subst d1.
      destruct (IH _ _ _ _ H) as [H1 [H2 H3]]. repeat split.
      * intros f Hf. apply H1 in Hf. apply filter_In in Hf. tauto.
      * intros f Hf Hn. apply H2.
        -- apply filter_In. split; [assumption|].
           apply negb_true_iff. apply jseqb_neq. simpl in Hn. intuition.
        -- simpl in Hn. tauto.
      * intros Hnd. apply H3. apply NoDup_names_filter. assumption.
    + destruct (IH _ _ _ _ H) as [H1 [H2 H3]]. repeat split; auto.
      intros f Hf Hn. apply H2; [assumption|]. simpl in Hn. tauto.
Qed.

(** The second loop, from a directory [dir] to [dir']: what is new is not
    daily; names stay unique; a name that is not daily stays; every group
    acted on has its summary; a file that no group acted on names stays;
    and a name that is new is the summary of a group acted on. *)
Lemma writeSummaries_spec (now : time) (g : Groups) :
  (forall k es e, In (k, es) g -> In e es -> isDaily (entryName e) = true) ->
  forall dir c dir' c',
    writeSummaries now g dir c = (dir', c') ->
    (forall f, In f dir' -> In f dir \/ isDaily (name f) = false)
    /\ (NoDup (map name dir) -> NoDup (map name dir'))
    /\ (forall n, isDaily n = false -> In n (map name dir) ->
          In n (map name dir'))
    /\ (forall k es, acted g k es -> In (summaryName k) (map name dir'))
    /\ (forall f, In f dir ->
          (forall k es, acted g k es -> ~ In (name f) (map entryName es)) ->
          In f dir')
    /\ (forall n, In n (map name dir') ->
          In n (map name dir)
          \/ exists k es, acted g k es /\ n = summaryName k).
Proof.
  induction g as [|[k0 es0] g IH]; intros Hd dir c dir' c' H.
  - simpl in H. injection H as <- <-. unfold acted. simpl.
    repeat split; try tauto; try (intros ? ? [[] _]).
  - assert (Hd' : forall k es e, In (k, es) g -> In e es ->
                    isDaily (entryName e) = true).
    { intros k es e Hin. apply (Hd k es e). simpl. tauto. }
    assert (Hskip : writeSummaries now g dir c = (dir', c') ->
              (length es0 < 2)%nat \/ In (summaryName k0) (map name dir) ->
              (forall f, In f dir' -> In f dir \/ isDaily (name f) = false)
              /\ (NoDup (map name dir) -> NoDup (map name dir'))
              /\ (forall n, isDaily n = false -> In n (map name dir) ->
                    In n (map name dir'))
              /\ (forall k es, acted ((k0, es0) :: g) k es ->
                    In (summaryName k) (map name dir'))
              /\ (forall f, In f dir ->
                    (forall k es, acted ((k0, es0) :: g) k es ->
                       ~ In (name f) (map entryName es)) ->
                    In f dir')
              /\ (forall n, In n (map name dir') ->
                    In n (map name dir)
                    \/ exists k es,
                         acted ((k0, es0) :: g) k es /\ n = summaryName k)).
    { intros H' Hwhy.
      destruct (IH Hd' _ _ _ _ H') as [H1 [H2 [H3 [H4 [H5 H6]]]]].
      repeat split; auto.
      - intros k es [[[= <- <-]|Hin] Hlen].
        + destruct Hwhy as [?|Hex]; [lia|].
          apply H3; [apply summaryName_not_daily | assumption].
        + apply (H4 k es). split; assumption.
      - intros f Hf Hno. apply H5; [assumption|].
        intros k es [Hin Hlen]. apply (Hno k es).
        split; [simpl; tauto | assumption].
      - intros n Hn. destruct (H6 n Hn) as [?|[k [es [[Hin Hlen] ->]]]];
          [tauto|].
        right. exists k, es. split; [|reflexivity].
        split; [simpl; tauto | assumption]. }
    simpl in H. destruct (Nat.ltb_spec (length es0) 2) as [Hlt|Hge].
    { apply Hskip; [assumption | tauto]. }
    destruct (existsSync dir (summaryName k0)) eqn:Eex.
    { apply Hskip; [assumption|]. right. apply existsSync_In. assumption. }
    apply existsSync_false in Eex.
    unfold writeFileSync in H. rewrite overwrite_fresh in H by assumption.
    set (new := mkFile (summaryName k0)
                  (JsString.toWellFormed (summaryText k0 es0)) now true true)
      in H.
    destruct (deleteEntries es0 (dir ++ [new]) (deleted c)) as [d2 n2] eqn:Ed.
    destruct (deleteEntries_spec _ _ _ _ _ Ed) as [D1 [D2 D3]].
    destruct (IH Hd' _ _ _ _ H) as [H1 [H2 [H3 [H4 [H5 H6]]]]].
    assert (Hnew : In new d2).
    { apply D2; [apply in_or_app; right; simpl; tauto|].
      simpl. intros Hin. apply in_map_iff in Hin.
      destruct Hin as [e [He Hin]].
      pose proof (Hd k0 es0 e ltac:(simpl; tauto) Hin) as Hdaily.
      rewrite He, summaryName_not_daily in Hdaily. discriminate. }
    repeat split.
    + intros f Hf. destruct (H1 f Hf) as [Hf'|?]; [|tauto].
      apply D1 in Hf'. apply in_app_or in Hf'.
      destruct Hf' as [?|[<-|[]]]; [tauto | right; reflexivity].
    + intros Hnd. apply H2. apply D3. rewrite map_app. simpl.
      apply NoDup_app; [assumption | repeat constructor; simpl; tauto |].
      intros x Hx [<-|[]]. tauto.
    + intros n Hn Hin. apply H3; [assumption|].
      apply in_map_iff in Hin. destruct Hin as [f [<- Hf]].
      apply in_map. apply D2; [apply in_or_app; tauto|].
      intros Hin. apply in_map_iff in Hin. destruct Hin as [e [He Hin]].
      pose proof (Hd k0 es0 e ltac:(simpl; tauto) Hin) as Hdaily.
      rewrite He in Hdaily. congruence.
    + intros k es [[[= <- <-]|Hin] Hlen].
      * apply H3; [apply summaryName_not_daily|].
        apply (in_map name) in Hnew. exact Hnew.
      * apply (H4 k es). split; assumption.
    + intros f Hf Hno. apply H5.
      * apply D2; [apply in_or_app; tauto|].
        apply (Hno k0 es0). split; [simpl; tauto | lia].
      * intros k es [Hin Hlen]. apply (Hno k es).
        split; [simpl; tauto | assumption].
    + intros n Hn. destruct (H6 n Hn) as [Hin|[k [es [[Hin Hlen] ->]]]].
      * apply in_map_iff in Hin. destruct Hin as [f [<- Hf]].
        apply D1 in Hf. apply in_app_or in Hf.
        destruct Hf as [Hf|[<-|[]]]; [left; apply in_map; assumption|].
        right. exists k0, es0. split; [|reflexivity].
        split; [simpl; tauto | lia].
      * right. exists k, es. split; [|reflexivity].
        split; [simpl; tauto | assumption].
Qed.

(** The second loop does nothing when every group is small or has its
    summary. *)
Lemma writeSummaries_noop (now : time) (g : Groups) (dir : Dir) (c : Counts) :
  (forall k es, In (k, es) g ->
     (length es < 2)%nat \/ existsSync dir (summaryName k) = true) ->
  writeSummaries now g dir c = (dir, c).
Proof.
  induction g as [|[k es] g IH]; intros H; [reflexivity|].
  simpl. destruct (H k es ltac:(simpl; tauto)) as [Hlt|Hex].
  - apply Nat.ltb_lt in Hlt. rewrite Hlt. apply IH.
    intros; apply H; simpl; tauto.
  - rewrite Hex. destruct (Nat.ltb (length es) 2); apply IH;
      intros; apply H; simpl; tauto.
Qed.

End Summaries.

(** ** Consolidation: idempotence and week keys *)

Section Consolidation.
Import JsDate BrainManager.
Local Open Scope Z_scope.

Lemma names_inj (dir : Dir) (f f' : File) :
  NoDup (map name dir) -> In f dir -> In f' dir -> name f = name f' ->
  f = f'.
Proof.
  intros Hnd Hf Hf' E. pose proof (lookup_In dir f Hnd Hf) as L.
  rewrite E, (lookup_In dir f' Hnd Hf') in L. congruence.
Qed.

(** The groups of a directory, when the first loop returns: keys are
    unique, and the entries of a group are the readable files of its week,
    each named by one file only. *)
Lemma groups_of_directory (w : time) (dir : Dir) (g : Groups) :
  NoDup (map name dir) ->
  groupFiles w dir (getBrainFiles dir) [] = Some g ->
  NoDup (map fst g)
  /\ (forall k es, In (k, es) g ->
        es = map (fun f => (name f, content f))
               (filter (isMember w k) (getBrainFiles dir)))
  /\ (forall k es e, In (k, es) g -> In e es ->
        exists f, In f (getBrainFiles dir) /\ classOf w f = Keyed k
                  /\ entryName e = name f).
Proof.
  intros Hnd Hg.
  destruct (groupFiles_spec _ _ _ _ _ Hg) as [He [Hk _]].
  specialize (Hk (NoDup_nil _)).
  assert (Hes : forall k es, In (k, es) g ->
            es = membersOf w dir k (getBrainFiles dir)).
  { intros k es Hin. rewrite <- (entriesOf_In k es g Hk Hin). apply He. }
  split; [assumption|]. split.
  - intros k es Hin. rewrite (Hes k es Hin).
    apply membersOf_filter; [assumption|].
    intros f Hf. apply getBrainFiles_In in Hf. tauto.
  - intros k es e Hin Hine. rewrite (Hes k es Hin) in Hine.
    apply (membersOf_names _ _ _ _ _ Hine).
Qed.

Lemma groups_entries_daily (w : time) (dir : Dir) (g : Groups) :
  NoDup (map name dir) ->
  groupFiles w dir (getBrainFiles dir) [] = Some g ->
  forall k es e, In (k, es) g -> In e es -> isDaily (entryName e) = true.
Proof.
  intros Hnd Hg k es e Hin He.
  destruct (groups_of_directory w dir g Hnd Hg) as [_ [_ H]].
  destruct (H k es e Hin He) as [f [_ [Hc ->]]].
  apply (classOf_daily w f k Hc).
Qed.

(** The body of [consolidateOldFiles]. *)
Lemma consolidateOldFiles_unfold (now : time) (dir : Dir) :
  consolidateOldFiles now dir
  = match groupFiles (now - 7 * 24 * 60 * 60 * 1000) dir
            (getBrainFiles dir) [] with
    | None => (dir, None)
    | Some g =>
        (fst (writeSummaries now g dir (mkCounts 0 0)),
         Some (snd (writeSummaries now g dir (mkCounts 0 0))))
    end.
Proof.
  unfold consolidateOldFiles.
  destruct (groupFiles _ dir (getBrainFiles dir) []) as [g|]; [|reflexivity].
  destruct (writeSummaries now g dir (mkCounts 0 0)). reflexivity.
Qed.

(** C7, as the code has it: in a directory, where names are unique,
    consolidation is idempotent as long as no daily file grows old between
    the runs. A second run, at the same clock reading or at a later one
    at which no daily file has changed sides of the seven-day age limit,
    leaves the directory of the first run as it is and returns zero counts
    (or throws again, where the first run threw on an invalid date without
    touching anything). And a group of fewer than two entries is left
    alone: the files of its entries are still there after the run, and
    the summary of its week exists after the run exactly if it did
    before. *)
Theorem consolidateOldFiles_idempotent (now now' : time) (dir : Dir) :
  NoDup (map name dir) ->
  (forall f, In f dir -> isDaily (name f) = true ->
     (now - 7 * 24 * 60 * 60 * 1000 <=? mtime f)
     = (now' - 7 * 24 * 60 * 60 * 1000 <=? mtime f)) ->
  let dir1 := fst (consolidateOldFiles now dir) in
  consolidateOldFiles now' dir1
  = (dir1,
     option_map (fun _ => mkCounts 0 0) (snd (consolidateOldFiles now dir)))
  /\ (forall g k es,
        groupFiles (now - 7 * 24 * 60 * 60 * 1000) dir (getBrainFiles dir) []
        = Some g ->
        In (k, es) g -> (length es < 2)%nat ->
        (forall e, In e es ->
           exists f, In f dir /\ In f dir1 /\ name f = entryName e)
        /\ existsSync dir1 (summaryName k) = existsSync dir (summaryName k)).
Proof.
  intros Hnd Hage. cbv zeta.
  set (w := now - 7 * 24 * 60 * 60 * 1000) in *.
  set (w' := now' - 7 * 24 * 60 * 60 * 1000) in *.
  rewrite (consolidateOldFiles_unfold now dir). fold w.
  destruct (groupFiles w dir (getBrainFiles dir) []) as [g|] eqn:Hg.
  2:{ (* the first run threw *)
    simpl. split; [|discriminate].
    rewrite consolidateOldFiles_unfold. fold w'.
    assert (Hex : exists f, In f (getBrainFiles dir) /\ classOf w f = Throws).
    { destruct (existsb (fun f => match classOf w f with
                                   | Throws => true | _ => false end)
                  (getBrainFiles dir)) eqn:E.
      - apply existsb_exists in E. destruct E as [f [Hf E]].
        exists f. split; [assumption|].
        destruct (classOf w f); congruence.
      - exfalso.
        destruct (groupFiles_total w dir (getBrainFiles dir)) with (g := @nil (JsString.t * list Entry))
          as [g' Hg'].
        + intros f Hf Hc.
          assert (E' : existsb (fun f => match classOf w f with
                                         | Throws => true | _ => false end)
                        (getBrainFiles dir) = true).
          { apply existsb_exists. exists f. rewrite Hc. tauto. }
          congruence.
        + congruence. }
    destruct Hex as [f [Hf Hc]].
    rewrite (groupFiles_throws w' dir (getBrainFiles dir) [] f Hf);
      [reflexivity|].
    rewrite <- Hc. symmetry. apply classOf_same_age.
    apply Hage; [apply getBrainFiles_In in Hf; tauto|].
    apply (classOf_throws_daily w f Hc). }
  (* the first run returned *)
  destruct (writeSummaries now g dir (mkCounts 0 0)) as [dir1 c1] eqn:Hw.
  simpl fst. simpl snd. simpl option_map.
  destruct (groups_of_directory w dir g Hnd Hg) as [Hkeys [Hes Hnames]].
  pose proof (groups_entries_daily w dir g Hnd Hg) as Hdaily.
  destruct (writeSummaries_spec now g Hdaily _ _ _ _ Hw)
    as [S1 [S2 [S3 [S4 [S5 S6]]]]].
  specialize (S2 Hnd).
  (* a daily file of the second directory is one of the first, of the
     same class *)
  assert (Hback : forall f, In f (getBrainFiles dir1) ->
            isDaily (name f) = true ->
            In f (getBrainFiles dir) /\ classOf w' f = classOf w f).
  { intros f Hf Hd. apply getBrainFiles_In in Hf. destruct Hf as [Hf Hmd].
    destruct (S1 f Hf) as [Hin|Hnd']; [|congruence].
    split; [apply getBrainFiles_In; tauto|].
    symmetry. apply classOf_same_age. apply Hage; assumption. }
  split.
  - rewrite consolidateOldFiles_unfold. fold w'.
    destruct (groupFiles_total w' dir1 (getBrainFiles dir1)) with (g := @nil (JsString.t * list Entry))
      as [g2 Hg2].
    { intros f Hf Hc.
      destruct (Hback f Hf (proj1 (classOf_throws_daily w' f Hc)))
        as [Hin Hsame].
      destruct (groupFiles_spec _ _ _ _ _ Hg) as [_ [_ [Ht _]]].
      apply (Ht f Hin). congruence. }
    rewrite Hg2.
    destruct (groups_of_directory w' dir1 g2 S2 Hg2) as [_ [Hes2 _]].
    rewrite writeSummaries_noop; [reflexivity|].
    intros k es2 Hin2.
    destruct (Nat.ltb_spec (length es2) 2) as [?|Hlen]; [tauto|].
    right. apply existsSync_In.
    assert (Hle : (length (filter (isMember w' k) (getBrainFiles dir1))
                   <= length (filter (isMember w k) (getBrainFiles dir)))%nat).
    { apply NoDup_incl_length.
      - apply NoDup_filter. apply getBrainFiles_NoDup. assumption.
      - intros f Hf. apply filter_In in Hf. destruct Hf as [Hf Hm].
        assert (Hd : isDaily (name f) = true).
        { unfold isMember in Hm.
          destruct (classOf w' f) as [| |k'] eqn:Ec; try discriminate.
          apply (classOf_daily w' f k' Ec). }
        destruct (Hback f Hf Hd) as [Hin Hsame].
        apply filter_In. split; [assumption|].
        unfold isMember in *. rewrite <- Hsame. assumption. }
    rewrite (Hes2 k es2 Hin2), length_map in Hlen.
    assert (Hlen1 : (2 <= length (entriesOf k g))%nat).
    { destruct (groupFiles_spec _ _ _ _ _ Hg) as [He _].
      rewrite He. simpl.
      rewrite membersOf_filter;
        [|assumption | intros f Hf; apply getBrainFiles_In in Hf; tauto].
      rewrite length_map. lia. }
    apply (S4 k (entriesOf k g)). split; [|assumption].
    apply entriesOf_nonempty_In.
    destruct (entriesOf k g); [simpl in Hlen1; lia | discriminate].
  - intros g0 k es [= <-] Hin Hlen.
    assert (Hnot : forall k' es', acted g k' es' -> k' <> k).
    { intros k' es' [Hin' Hlen'] ->.
      rewrite <- (entriesOf_In k es g Hkeys Hin) in Hlen.
      rewrite <- (entriesOf_In k es' g Hkeys Hin') in Hlen'. lia. }
    split.
    + intros e He.
      destruct (Hnames k es e Hin He) as [f [Hf [Hc Hn]]].
      apply getBrainFiles_In in Hf. destruct Hf as [Hf _].
      exists f. split; [assumption|]. split; [|congruence].
      apply S5; [assumption|].
      intros k' es' Hact Hin'. apply in_map_iff in Hin'.
      destruct Hin' as [e' [He' Hin']].
      destruct (Hnames k' es' e' (proj1 Hact) Hin') as [f' [Hf' [Hc' Hn']]].
      apply getBrainFiles_In in Hf'. destruct Hf' as [Hf' _].
      assert (f' = f) by (apply (names_inj dir); congruence).
      subst f'. apply (Hnot k' es' Hact). congruence.
    + destruct (existsSync dir (summaryName k)) eqn:E.
      * apply existsSync_In. apply S3; [apply summaryName_not_daily|].
        apply existsSync_In. assumption.
      * apply existsSync_false. intros Hin1.
        destruct (S6 _ Hin1) as [Hin0|[k' [es' [Hact Heq]]]].
        -- apply existsSync_false in E. tauto.
        -- apply summaryName_inj in Heq. apply (Hnot k' es' Hact).
           congruence.
Qed.

End Consolidation.

Section ConsolidationExamples.
Import JsDate BrainManager.
Local Open Scope Z_scope.

(** An instance of C7: the three dailies, consolidated on the Saturday
    and again a day later. *)
Lemma consolidateOldFiles_idempotent_witness :
  consolidateOldFiles (Examples.maintenanceTime + msPerDay)
    (fst (consolidateOldFiles Examples.maintenanceTime Examples.threeDailies))
  = (fst (consolidateOldFiles Examples.maintenanceTime Examples.threeDailies),
     Some (mkCounts 0 0)).
Proof.
  assert (Hnd : NoDup (map name Examples.threeDailies)).
  { vm_compute. repeat constructor; simpl; intuition discriminate. }
  assert (Hage : forall f, In f Examples.threeDailies ->
            isDaily (name f) = true ->
            (Examples.maintenanceTime - 7 * 24 * 60 * 60 * 1000 <=? mtime f)
            = (Examples.maintenanceTime + msPerDay - 7 * 24 * 60 * 60 * 1000
               <=? mtime f)).
  { intros f [<-|[<-|[<-|[]]]] _; vm_compute; reflexivity. }
  destruct (consolidateOldFiles_idempotent Examples.maintenanceTime
              (Examples.maintenanceTime + msPerDay) Examples.threeDailies
              Hnd Hage) as [H _].
  exact H.
Defined.

(** C7 as stated fails when time passes between the runs. Two scans saved
    on the evening of Friday 2024-01-05, at 21:00 and 21:30 in New York, are
    not yet seven days old at the maintenance the weekly review runs on
    Friday 2024-01-12 at 20:30, which leaves the directory as it is and
    counts 0 and 0. The maintenance of the Saturday morning at 09:00, with
    nothing added to the directory in between, writes one summary and
    deletes both scans. *)
Lemma second_run_consolidates_what_grew_old :
  NoDup (map name Examples.fridayScans)
  /\ consolidateOldFiles Examples.weeklyTime Examples.fridayScans
     = (Examples.fridayScans, Some (mkCounts 0 0))
  /\ map name
       (fst (consolidateOldFiles Examples.saturdayMorning
               (fst (consolidateOldFiles Examples.weeklyTime
                       Examples.fridayScans))))
     = [js "weekly-summary-2024-01-01.md"]
  /\ snd (consolidateOldFiles Examples.saturdayMorning
            (fst (consolidateOldFiles Examples.weeklyTime
                    Examples.fridayScans)))
     = Some (mkCounts 1 2).
Proof.
  split.
  - vm_compute. repeat constructor; simpl; intuition discriminate.
  - repeat split; vm_compute; reflexivity.
Qed.




End ConsolidationExamples.

(** ** The matcher on the review patterns *)

Section Matching.
Import Regex.

Lemma run_Star (R : Type) (r1 : re) (s : JsString.t) (caps : captures)
    (k : JsString.t -> captures -> option R) :
  run (Star r1) s caps k = starFrom r1 k (length s) s caps.
Proof. reflexivity. Qed.

(** A greedy [Star] of a character class runs to the end of the units of the
    class, when what follows matches there. *)
Lemma starFrom_class (R : Type) (p : N -> bool)
    (k : JsString.t -> captures -> option R) (caps : captures) (x : R)
    (s' : JsString.t) :
  (s' = [] \/ exists c t, s' = c :: t /\ p c = false) ->
  k s' caps = Some x ->
  forall W fuel,
    (length (W ++ s') <= fuel)%nat -> Forall (fun c => p c = true) W ->
    starFrom (Chr p) k fuel (W ++ s') caps = Some x.
Proof.
  intros Hstop Hk. induction W as [|c W IH]; intros fuel Hfuel HW.
  - simpl. destruct fuel as [|fuel]; simpl; [assumption|].
    destruct Hstop as [->|[c [t [-> Hc]]]]; simpl; [assumption|].
    rewrite Hc. assumption.
  - destruct fuel as [|fuel]; [simpl in Hfuel; lia|].
    inversion HW as [|? ? Hc HW']; subst. simpl. rewrite Hc.
    destruct (Nat.ltb_spec (length (W ++ s')) (S (length (W ++ s'))));
      [|lia].
    rewrite IH; [reflexivity | simpl in Hfuel; lia | assumption].
Qed.

Lemma run_seqOf_chrI (R : Type) (pat s : JsString.t) (caps : captures)
    (k : JsString.t -> captures -> option R) :
  run (seqOf chrI pat) s caps k
  = if startsWithI s pat then k (skipn (length pat) s) caps else None.
Proof.
  revert s. induction pat as [|y pat IH]; intros s; [reflexivity|].
  destruct pat as [|y' pat].
  - simpl. destruct s as [|x s]; [reflexivity|].
    rewrite andb_true_r. destruct (_ =? _)%N; reflexivity.
  - change (seqOf chrI (y :: y' :: pat))
      with (Seq (chrI y) (seqOf chrI (y' :: pat))).
    cbn [run chrI]. destruct s as [|x s]; [reflexivity|].
    cbn [startsWithI].
    destruct (JsString.upperAscii x =? JsString.upperAscii y)%N;
      [|reflexivity].
    rewrite IH. reflexivity.
Qed.

Lemma startsWithI_app (pat x t : JsString.t) :
  startsWithI x pat = true -> startsWithI (x ++ t) pat = true.
Proof.
  revert x. induction pat as [|y pat IH]; intros x; [reflexivity|].
  destruct x as [|a x]; simpl; [discriminate|].
  rewrite !andb_true_iff. intros [-> H]. auto.
Qed.

Lemma startsWithI_length (pat x : JsString.t) :
  startsWithI x pat = true -> (length pat <= length x)%nat.
Proof.
  revert x. induction pat as [|y pat IH]; intros x; simpl; [lia|].
  destruct x as [|a x]; [discriminate|].
  rewrite andb_true_iff. intros [_ H]. apply IH in H. simpl. lia.
Qed.

(** A pattern that opens with the keyword matches only where the keyword
    stands. *)
Lemma matchAt_keyword (r' : re) (s : JsString.t) :
  keywordAt s = false -> matchAt (Seq (litI "REVIEW:") r') s = None.
Proof.
  intros H. unfold matchAt. cbn [run]. unfold litI.
  rewrite run_seqOf_chrI. fold keyword. unfold keywordAt in H. rewrite H.
  reflexivity.
Qed.

Lemma search_skip (r : re) (pre s : JsString.t) :
  (forall i, (i < length pre)%nat -> matchAt r (skipn i (pre ++ s)) = None) ->
  search r (pre ++ s) = search r s.
Proof.
  induction pre as [|c pre IH]; intros H; [reflexivity|].
  assert (H0 : matchAt r ((c :: pre) ++ s) = None)
    by (apply (H 0%nat); simpl; lia).
  simpl app in *.
  change (search r (c :: pre ++ s))
    with (match matchAt r (c :: pre ++ s) with
          | Some m => Some m
          | None => search r (pre ++ s)
          end).
  rewrite H0. apply IH. intros i Hi. apply (H (S i)). simpl. lia.
Qed.

Lemma run_Seq (R : Type) (r1 r2 : re) (s : JsString.t) (caps : captures)
    (k : JsString.t -> captures -> option R) :
  run (Seq r1 r2) s caps k
  = run r1 s caps (fun s' caps' => run r2 s' caps' k).
Proof. reflexivity. Qed.

Lemma run_Group (R : Type) (n : nat) (r1 : re) (s : JsString.t)
    (caps : captures) (k : JsString.t -> captures -> option R) :
  run (Group n r1) s caps k
  = run r1 s caps (fun s' caps' => k s' ((n, consumed s s') :: caps')).
Proof. reflexivity. Qed.

Lemma run_Chr_cons (R : Type) (p : N -> bool) (c : N) (s : JsString.t)
    (caps : captures) (k : JsString.t -> captures -> option R) :
  run (Chr p) (c :: s) caps k = if p c then k s caps else None.
Proof. reflexivity. Qed.

End Matching.
(** ** Extraction, line by line *)

Section Lines.
Import Regex Performance Scheduler.

Lemma keyword_alien_LF :
  Forall (fun y => JsString.upperAscii JsString.LF <> JsString.upperAscii y)
    keyword.
Proof. repeat constructor; vm_compute; discriminate. Qed.

Lemma startsWithI_app_other (pat x t : JsString.t) (c : N) :
  Forall (fun y => JsString.upperAscii c <> JsString.upperAscii y) pat ->
  startsWithI (x ++ c :: t) pat = startsWithI x pat.
Proof.
  intros Hpat. revert x. induction Hpat as [|y pat Hy Hpat IH]; intros x;
    [reflexivity|].
  destruct x as [|a x]; simpl.
  - apply N.eqb_neq in Hy. rewrite Hy. reflexivity.
  - rewrite IH. reflexivity.
Qed.

Lemma keywordAt_before_LF (x t : JsString.t) :
  keywordAt (x ++ JsString.LF :: t) = keywordAt x.
Proof. apply startsWithI_app_other. apply keyword_alien_LF. Qed.

Lemma fromKeyword_None (line : JsString.t) :
  fromKeyword line = None -> forall i, keywordAt (skipn i line) = false.
Proof.
  induction line as [|c line IH]; intros H i.
  - rewrite skipn_nil. reflexivity.
  - simpl in H. destruct (keywordAt (c :: line)) eqn:E; [discriminate|].
    destruct i as [|i]; [assumption|]. simpl. apply IH. assumption.
Qed.

Lemma fromKeyword_Some (line chunk : JsString.t) :
  fromKeyword line = Some chunk ->
  exists pre,
    line = pre ++ chunk /\ keywordAt chunk = true
    /\ forall i, (i < length pre)%nat -> keywordAt (skipn i line) = false.
Proof.
  induction line as [|c line IH]; intros H.
  - simpl in H. destruct (keywordAt []); [|discriminate].
    discriminate.
  - simpl in H. destruct (keywordAt (c :: line)) eqn:E.
    + injection H as <-. exists []. split; [reflexivity|].
      split; [assumption|]. simpl. intros i Hi. lia.
    + destruct (IH H) as [pre [-> [Hk Hpre]]].
      exists (c :: pre). split; [reflexivity|]. split; [assumption|].
      intros [|i] Hi; [assumption|]. simpl. apply Hpre. simpl in Hi. lia.
Qed.

Lemma search_None (r : re) (s : JsString.t) :
  (forall i, matchAt r (skipn i s) = None) -> search r s = None.
Proof.
  induction s as [|c s IH]; intros H; pose proof (H 0%nat) as H0;
    simpl skipn in H0; cbn [search]; rewrite H0; [reflexivity|].
  apply IH. intros i. apply (H (S i)).
Qed.

Lemma search_matchAt (r : re) (s : JsString.t) (m : result) :
  matchAt r s = Some m -> search r s = Some m.
Proof. intros H. destruct s; cbn [search]; rewrite H; reflexivity. Qed.

Lemma search_without_keyword (r' : re) (line : JsString.t) :
  fromKeyword line = None -> search (Seq (litI "REVIEW:") r') line = None.
Proof.
  intros H. apply search_None. intros i. apply matchAt_keyword.
  apply fromKeyword_None. assumption.
Qed.

Lemma search_next_line (r' : re) (line t : JsString.t) :
  fromKeyword line = None ->
  search (Seq (litI "REVIEW:") r') (line ++ JsString.LF :: t)
  = search (Seq (litI "REVIEW:") r') t.
Proof.
  intros H.
  replace (line ++ JsString.LF :: t) with ((line ++ [JsString.LF]) ++ t)
    by (rewrite <- app_assoc; reflexivity).
  apply search_skip. intros i Hi. apply matchAt_keyword.
  rewrite <- app_assoc. simpl app.
  rewrite last_length in Hi.
  rewrite skipn_app.
  destruct (Nat.eq_dec i (length line)) as [->|Hne].
  - rewrite skipn_all, Nat.sub_diag. simpl. reflexivity.
  - replace (i - length line)%nat with 0%nat by lia. simpl skipn.
    rewrite keywordAt_before_LF. apply fromKeyword_None. assumption.
Qed.

Lemma search_from_keyword (r' : re) (pre chunk : JsString.t) :
  (forall i, (i < length pre)%nat ->
     keywordAt (skipn i (pre ++ chunk)) = false) ->
  search (Seq (litI "REVIEW:") r') (pre ++ chunk)
  = search (Seq (litI "REVIEW:") r') chunk.
Proof.
  intros H. apply search_skip. intros i Hi. apply matchAt_keyword. auto.
Qed.

Lemma consumed_app (a b : JsString.t) : consumed (a ++ b) b = a.
Proof.
  unfold consumed. rewrite length_app.
  replace (length a + length b - length b)%nat with (length a) by lia.
  rewrite firstn_app, Nat.sub_diag, firstn_all. simpl. apply app_nil_r.
Qed.

(** A list up to its first element that passes a test. *)
Lemma existsb_split (p : N -> bool) (l : JsString.t) :
  existsb p l = true ->
  exists w c t,
    l = w ++ c :: t /\ Forall (fun x => p x = false) w /\ p c = true.
Proof.
  induction l as [|a l IH]; simpl; [discriminate|].
  destruct (p a) eqn:E.
  - intros _. exists [], a, l. repeat split; [constructor | assumption].
  - simpl. intros H. destruct (IH H) as [w [c [t [-> [Hw Hc]]]]].
    exists (a :: w), c, t. repeat split; [constructor|]; assumption.
Qed.

(** Where the keyword stands with something other than blanks behind it on
    its line, the pattern of the review lines matches from the keyword to the
    end of the line. *)
Lemma matchAt_reviewLines (chunk after : JsString.t) :
  keywordAt chunk = true -> ~ In JsString.LF chunk ->
  existsb (fun c => negb (JsString.isSpace c)) (skipn (length keyword) chunk)
  = true ->
  (after = [] \/ exists t, after = JsString.LF :: t) ->
  exists caps,
    matchAt reviewLinesRe (chunk ++ after) = Some (mkResult chunk caps after).
Proof.
  intros Hk Hlf Hex Hafter.
  destruct (existsb_split _ _ Hex) as [w [c [t [Hpost [Hw Hc]]]]].
  assert (Hchunk : chunk = firstn (length keyword) chunk ++ w ++ c :: t).
  { rewrite <- Hpost. symmetry. apply firstn_skipn. }
  assert (Hskip : skipn (length keyword) (chunk ++ after)
                  = w ++ (c :: t ++ after)).
  { rewrite skipn_app, Hpost.
    replace (length keyword - length chunk)%nat with 0%nat
      by (apply startsWithI_length in Hk; lia).
    simpl skipn. rewrite <- app_assoc. reflexivity. }
  assert (Hnl : forall x, In x (c :: t) -> x <> JsString.LF).
  { intros x Hx ->. apply Hlf. rewrite Hchunk.
    apply in_or_app. right. apply in_or_app. right. assumption. }
  exists [(1%nat, c :: t)].
  unfold matchAt.
  change reviewLinesRe
    with (Seq (litI "REVIEW:")
            (Seq (Star space)
               (Group 1 (Seq (noneOf [10%N]) (Star (noneOf [10%N])))))).
  rewrite run_Seq. unfold litI. rewrite run_seqOf_chrI. fold keyword.
  rewrite (startsWithI_app _ _ after Hk), Hskip.
  rewrite run_Seq, run_Star. unfold space.
  apply starFrom_class.
  - right. exists c, (t ++ after). split; [reflexivity|].
    apply negb_true_iff. assumption.
  - rewrite run_Group, run_Seq. unfold noneOf at 1. rewrite run_Chr_cons.
    replace (negb (existsb (N.eqb c) [10%N])) with true.
    2:{ symmetry. simpl. rewrite orb_false_r. apply negb_true_iff.
        apply N.eqb_neq. apply Hnl. simpl. tauto. }
    rewrite run_Star. unfold noneOf.
    apply starFrom_class.
    + destruct Hafter as [->|[t' ->]]; [left; reflexivity|].
      right. exists JsString.LF, t'. split; reflexivity.
    + f_equal. f_equal.
      * apply consumed_app.
      * f_equal. f_equal.
        change (c :: t ++ after) with ((c :: t) ++ after).
        apply consumed_app.
    + lia.
    + apply Forall_forall. intros x Hx.
      assert (Hx' : x <> JsString.LF) by (apply Hnl; simpl; tauto).
      simpl. rewrite orb_false_r. apply negb_true_iff. apply N.eqb_neq.
      assumption.
  - lia.
  - apply Forall_forall. intros x Hx. rewrite Forall_forall in Hw.
    specialize (Hw x Hx). apply negb_false_iff in Hw. assumption.
Qed.

End Lines.

Section LineByLine.
Import Regex Performance Scheduler.

Lemma reviewLinesRe_shape :
  exists r', reviewLinesRe = Seq (litI "REVIEW:") r'.
Proof. eexists. reflexivity. Qed.

Lemma reviewRe_shape : exists r', reviewRe = Seq (litI "REVIEW:") r'.
Proof. eexists. reflexivity. Qed.

Lemma matchAllFrom_step (fuel : nat) (r : re) (s1 s2 : JsString.t) :
  search r s1 = search r s2 ->
  matchAllFrom (S fuel) r s1 = matchAllFrom (S fuel) r s2.
Proof. intros H. simpl. rewrite H. reflexivity. Qed.

Lemma matchAllFrom_nil (fuel : nat) : matchAllFrom fuel reviewLinesRe [] = [].
Proof. destruct fuel; reflexivity. Qed.

(** The search for the next review line, at the head of a line followed by
    [after], the end of the text or a line feed and more text. *)
Lemma search_reviewLines (line after : JsString.t) :
  isLine line -> (after = [] \/ exists t, after = JsString.LF :: t) ->
  match fromKeyword line with
  | None =>
      search reviewLinesRe (line ++ after)
      = search reviewLinesRe (skipn 1 after)
  | Some chunk =>
      exists caps,
        search reviewLinesRe (line ++ after)
        = Some (mkResult chunk caps after)
  end.
Proof.
  intros [Hlf Hnd] Hafter. destruct reviewLinesRe_shape as [r' Hr'].
  unfold notDangling in Hnd.
  destruct (fromKeyword line) as [chunk|] eqn:Ek.
  - destruct (fromKeyword_Some _ _ Ek) as [pre [-> [Hk Hpre]]].
    destruct (matchAt_reviewLines chunk after Hk) as [caps Hm];
      try assumption.
    { intros Hin. apply Hlf. apply in_or_app. tauto. }
    exists caps. rewrite <- app_assoc. rewrite Hr'.
    rewrite search_from_keyword.
    + rewrite <- Hr'. apply search_matchAt. assumption.
    + intros i Hi. specialize (Hpre i Hi).
      rewrite skipn_app in *.
      replace (i - length pre)%nat with 0%nat in * by lia.
      simpl skipn in *. rewrite app_assoc.
      unfold keywordAt in *. apply Bool.not_true_is_false. intros E.
      destruct Hafter as [->|[t ->]].
      * rewrite app_nil_r in E. congruence.
      * fold (keywordAt ((skipn i pre ++ chunk) ++ JsString.LF :: t)) in E.
        rewrite keywordAt_before_LF in E. unfold keywordAt in E. congruence.
  - destruct Hafter as [->|[t ->]].
    + rewrite app_nil_r. simpl skipn. rewrite Hr'.
      rewrite search_without_keyword by assumption.
      symmetry. apply search_None. intros i. apply matchAt_keyword.
      rewrite skipn_nil. reflexivity.
    + simpl skipn. rewrite Hr'. apply search_next_line. assumption.
Qed.

Lemma keywordAt_nonempty (s : JsString.t) : keywordAt s = true -> s <> [].
Proof. intros H ->. discriminate. Qed.

(** The review lines of a text, line by line: of each line with a keyword,
    the text from the first keyword to the end of the line. *)
Lemma matchAllFrom_unlines (lines : list JsString.t) :
  Forall isLine lines ->
  forall fuel, (length (unlines lines) < fuel)%nat ->
    matchAllFrom fuel reviewLinesRe (unlines lines) = flat_map chunkOf lines.
Proof.
  induction lines as [|line lines IH]; intros Hall fuel Hfuel.
  - apply matchAllFrom_nil.
  - inversion Hall as [|? ? Hline Hall']; subst.
    destruct fuel as [|fuel]; [lia|].
    assert (Hshape : exists after,
              unlines (line :: lines) = line ++ after
              /\ (after = [] \/ exists t, after = JsString.LF :: t)
              /\ skipn 1 after = unlines lines
              /\ (after = [] -> lines = [])).
    { unfold unlines. destruct lines as [|l2 ls].
      - exists []. simpl. rewrite app_nil_r. tauto.
      - exists (JsString.LF :: JsString.join [JsString.LF] (l2 :: ls)).
        split; [reflexivity|]. split; [right; eauto|].
        split; [reflexivity | discriminate]. }
    destruct Hshape as [after [Hu [Hafter [Hrest Hlast]]]].
    rewrite Hu in *. pose proof (search_reviewLines line after Hline Hafter) as Hs.
    simpl flat_map. unfold chunkOf at 1.
    destruct (fromKeyword line) as [chunk|] eqn:Ek.
    + destruct Hs as [caps Hs].
      destruct (fromKeyword_Some _ _ Ek) as [pre [Hpre [Hk _]]].
      cbn [matchAllFrom]. rewrite Hs. cbn [matched rest].
      destruct chunk as [|c0 chunk0] eqn:Ec;
        [exfalso; apply (keywordAt_nonempty [] Hk); reflexivity|].
      simpl app. f_equal.
      destruct Hafter as [->|[t ->]].
      * rewrite (Hlast eq_refl). apply matchAllFrom_nil.
      * change (skipn 1 (JsString.LF :: t)) with t in Hrest. subst t.
        destruct fuel as [|fuel];
          [rewrite length_app in Hfuel; simpl in Hfuel; lia|].
        destruct reviewLinesRe_shape as [r' Hr'].
        rewrite (matchAllFrom_step fuel reviewLinesRe
                   (JsString.LF :: unlines lines) (unlines lines)).
        -- apply IH; [assumption|].
           rewrite length_app in Hfuel. simpl in Hfuel. lia.
        -- rewrite Hr'. apply (search_next_line r' [] (unlines lines)).
           reflexivity.
    + simpl app. rewrite Hrest in Hs.
      rewrite (matchAllFrom_step fuel reviewLinesRe (line ++ after)
                 (unlines lines) Hs).
      apply IH; [assumption|].
      rewrite length_app in Hfuel.
      assert (length (unlines lines) <= length after)%nat.
      { rewrite <- Hrest. rewrite length_skipn. lia. }
      lia.
Qed.

Lemma updatesOfLine_chunk (line : JsString.t) :
  flat_map updatesOfLine (chunkOf line) = updatesOfLine line.
Proof.
  destruct reviewRe_shape as [r' Hr'].
  unfold chunkOf. destruct (fromKeyword line) as [chunk|] eqn:Ek.
  - destruct (fromKeyword_Some _ _ Ek) as [pre [-> [Hk Hpre]]].
    simpl. rewrite app_nil_r. unfold updatesOfLine, reviewTuple.
    rewrite Hr'. rewrite search_from_keyword by assumption. reflexivity.
  - simpl. unfold updatesOfLine, reviewTuple. rewrite Hr'.
    rewrite search_without_keyword by assumption. reflexivity.
Qed.

Lemma flat_map_chunks (lines : list JsString.t) :
  flat_map updatesOfLine (flat_map chunkOf lines)
  = flat_map updatesOfLine lines.
Proof.
  induction lines as [|line lines IH]; [reflexivity|].
  simpl. rewrite flat_map_app, IH, updatesOfLine_chunk. reflexivity.
Qed.

End LineByLine.

Section ExtractionClaim.
Import JsDate Regex Performance Scheduler.

Lemma splitLines_nonempty (s : JsString.t) : splitLines s <> [].
Proof.
  induction s as [|c s IH]; simpl; [discriminate|].
  destruct (c =? JsString.LF)%N; [discriminate|].
  destruct (splitLines s); discriminate.
Qed.

(** A text is its lines joined by line feeds. *)
Lemma unlines_splitLines (s : JsString.t) : unlines (splitLines s) = s.
Proof.
  unfold unlines. induction s as [|c s IH]; [reflexivity|].
  simpl splitLines. destruct (N.eqb_spec c JsString.LF) as [->|Hne].
  - pose proof (splitLines_nonempty s) as Hs.
    destruct (splitLines s) as [|l ls] eqn:E; [congruence|].
    change (JsString.join [JsString.LF] ([] :: l :: ls))
      with (JsString.LF :: JsString.join [JsString.LF] (l :: ls)).
    rewrite IH. reflexivity.
  - destruct (splitLines s) as [|l ls] eqn:E.
    + simpl in IH. subst s. reflexivity.
    + destruct ls as [|l2 ls]; simpl in *; rewrite <- IH; reflexivity.
Qed.

Lemma splitLines_no_LF (s : JsString.t) :
  Forall (fun line => ~ In JsString.LF line) (splitLines s).
Proof.
  induction s as [|c s IH]; simpl.
  - repeat constructor. simpl. tauto.
  - destruct (N.eqb_spec c JsString.LF) as [->|Hne].
    + constructor; [simpl; tauto | assumption].
    + destruct (splitLines s) as [|l ls].
      * repeat constructor. simpl. intuition.
      * inversion IH as [|? ? Hl Hls]; subst.
        constructor; [|assumption]. simpl. intuition.
Qed.

(** C6, as the code has it: on a text none of whose lines has its first
    [REVIEW:] followed by blanks only, the updates extracted are, in order,
    those of the lines that match the line pattern with an outcome other than
    [skip], outcome in any case, id and notes trimmed; the other lines give
    nothing. On the three lines of the example that is the one update of
    [abc-1] to correct; the lesson is the text of the [LESSON:] line; and the
    nightly review run on them reviews [abc-1], leaves [abc-2] as it was and
    stores one strategy note. *)
Theorem parseReviews_by_line (response : JsString.t) :
  Forall (fun line => notDangling line = true) (splitLines response) ->
  parseReviews response = flat_map updatesOfLine (splitLines response)
  /\ parseReviews Examples.reviewResponse
     = [mkUpdate (js "abc-1") Correct (js "good call")]
  /\ parseLesson Examples.reviewResponse = Some (js "trust the trend")
  /\ nightlyReview (Examples.runAt Examples.nightlyTime Examples.reviewResponse)
       Examples.twoPending
     = mkPerformanceData
         [mkRecommendation (js "abc-1") (js "2024-01-08") (js "NVDA")
            bullish 50 (js "signal") (js "summary") (Some correct)
            (Some (js "2024-01-11T01:00:00.000Z")) (Some (js "good call"));
          Examples.call "abc-2" "2024-01-08" "TSLA" None]
         [] [js "[2024-01-11] trust the trend"] (js "2024-01-11") [].
Proof.
  intros Hlines. split.
  - assert (Hall : Forall isLine (splitLines response)).
    { pose proof (splitLines_no_LF response) as Hlf.
      rewrite Forall_forall in *. intros line Hin. split; auto. }
    rewrite <- (unlines_splitLines response) at 1.
    rewrite parseReviews_chunks. unfold matchAll.
    rewrite matchAllFrom_unlines by (auto; lia).
    apply flat_map_chunks.
  - repeat split; vm_compute; reflexivity.
Qed.

(** An instance of C6: the three lines of the example. *)
Lemma parseReviews_by_line_witness :
  parseReviews Examples.reviewResponse
  = flat_map updatesOfLine
      [js "REVIEW: [abc-1] | correct | good call";
       js "REVIEW: [abc-2] | skip | too early";
       js "LESSON: trust the trend"].
Proof.
  apply (parseReviews_by_line Examples.reviewResponse).
  vm_compute. repeat constructor.
Defined.

(** C6 as stated fails where a keyword ends its line. Of the two lines
    [REVIEW:] and [[abc-1] | correct | good call] neither matches the line
    pattern, yet the update of [abc-1] is extracted: the blanks after the
    keyword that the first pattern passes over include the line feed. *)
Lemma keyword_alone_takes_the_next_line :
  parseReviews (unlines [js "REVIEW:"; js "[abc-1] | correct | good call"])
  = [mkUpdate (js "abc-1") Correct (js "good call")]
  /\ splitLines (unlines [js "REVIEW:"; js "[abc-1] | correct | good call"])
     = [js "REVIEW:"; js "[abc-1] | correct | good call"]
  /\ flat_map updatesOfLine
       [js "REVIEW:"; js "[abc-1] | correct | good call"] = [].
Proof. repeat split; vm_compute; reflexivity. Qed.

End ExtractionClaim.
(* ================================================================== *)
(** ** utils/chunk.ts: what [chunkMessage] returns *)
(* ================================================================== *)

Section Chunks.
Import Chunk.
Local Open Scope Z_scope.

Lemma trimStart_split (s : JsString.t) :
  exists w, s = w ++ JsString.trimStart s /\ blank w = true.
Proof.
  induction s as [|c s IH]; simpl.
  - exists []. split; reflexivity.
  - destruct (JsString.isSpace c) eqn:Hc.
    + destruct IH as [w [H1 H2]]. exists (c :: w). split.
      * simpl. f_equal. exact H1.
      * simpl. rewrite Hc. exact H2.
    + exists []. split; reflexivity.
Qed.

Lemma blank_rev (w : JsString.t) : blank (rev w) = blank w.
Proof.
  unfold blank. induction w as [|c w IH]; simpl; [reflexivity|].
  rewrite forallb_app. simpl. rewrite IH, andb_true_r. apply andb_comm.
Qed.

Lemma trimEnd_split (s : JsString.t) :
  exists w, s = JsString.trimEnd s ++ w /\ blank w = true.
Proof.
  unfold JsString.trimEnd.
  destruct (trimStart_split (rev s)) as [w [H1 H2]].
  exists (rev w). split.
  - rewrite <- rev_app_distr, <- H1, rev_involutive. reflexivity.
  - rewrite blank_rev. exact H2.
Qed.

Lemma trimStart_length (s : JsString.t) :
  (length (JsString.trimStart s) <= length s)%nat.
Proof.
  destruct (trimStart_split s) as [w [H _]].
  rewrite H at 2. rewrite length_app. lia.
Qed.

Lemma trimEnd_length (s : JsString.t) :
  (length (JsString.trimEnd s) <= length s)%nat.
Proof.
  destruct (trimEnd_split s) as [w [H _]].
  rewrite H at 2. rewrite length_app. lia.
Qed.

Lemma trimEnd_blank_tail (s w : JsString.t) :
  blank w = true -> JsString.trimEnd (s ++ w) = JsString.trimEnd s.
Proof.
  intros Hw. unfold JsString.trimEnd. f_equal.
  rewrite rev_app_distr.
  rewrite <- blank_rev in Hw. revert Hw.
  generalize (rev w) as v. induction v as [|c v IH]; simpl; intros Hv.
  - reflexivity.
  - apply andb_prop in Hv. destruct Hv as [Hc Hv]. rewrite Hc. auto.
Qed.

Lemma lastIndexFrom_spec (s pat : JsString.t) (i : nat) :
  JsString.lastIndexFrom s pat i = -1
  \/ (0 <= JsString.lastIndexFrom s pat i <= Z.of_nat i
      /\ JsString.startsWith
           (skipn (Z.to_nat (JsString.lastIndexFrom s pat i)) s) pat = true).
Proof.
  induction i as [|i IH]; cbn [JsString.lastIndexFrom].
  - destruct (JsString.startsWith (skipn 0 s) pat) eqn:H.
    + right. split; [lia|]. exact H.
    + left. reflexivity.
  - destruct (JsString.startsWith (skipn (S i) s) pat) eqn:H.
    + right. split; [lia|]. rewrite Nat2Z.id. exact H.
    + destruct IH as [IH|[IH1 IH2]]; [left; exact IH|].
      right. split; [lia|exact IH2].
Qed.

Lemma lastIndexOf_spec (s pat : JsString.t) (pos : Z) :
  JsString.lastIndexOf s pat pos = -1
  \/ (0 <= JsString.lastIndexOf s pat pos <= Z.max pos 0
      /\ JsString.startsWith
           (skipn (Z.to_nat (JsString.lastIndexOf s pat pos)) s) pat = true).
Proof.
  unfold JsString.lastIndexOf.
  destruct (Z.of_nat (length s) <? Z.of_nat (length pat)) eqn:Hlen;
    [left; reflexivity|].
  apply Z.ltb_ge in Hlen.
  match goal with |- context [JsString.lastIndexFrom s pat ?i] =>
    destruct (lastIndexFrom_spec s pat i) as [H|[H1 H2]] end.
  - left. exact H.
  - right. split; [lia|exact H2].
Qed.

Lemma startsWith_split (s p : JsString.t) :
  JsString.startsWith s p = true -> exists r, s = p ++ r.
Proof.
  revert s. induction p as [|y p IH]; intros s H.
  - exists s. reflexivity.
  - destruct s as [|x s]; simpl in H; [discriminate|].
    apply andb_prop in H. destruct H as [Hx Hs].
    apply N.eqb_eq in Hx. subst y.
    destruct (IH s Hs) as [r Hr]. exists r. simpl. f_equal. exact Hr.
Qed.

Lemma firstn_skipn_prefix (k : nat) (s p r : JsString.t) :
  skipn k s = p ++ r -> (k <= length s)%nat ->
  firstn (k + length p) s = firstn k s ++ p.
Proof.
  intros H Hk.
  rewrite <- (firstn_skipn k s) at 1.
  rewrite firstn_app, length_firstn, Nat.min_l by exact Hk.
  rewrite firstn_firstn, Nat.min_r by lia.
  f_equal. rewrite H.
  replace (k + length p - k)%nat with (length p) by lia.
  rewrite firstn_app, Nat.sub_diag, firstn_all. simpl. apply app_nil_r.
Qed.

Lemma farEnough_indices :
  forallb (fun i => implb (farEnough i) (586 <=? i)) indices = true.
Proof. vm_compute. reflexivity. Qed.

Lemma farEnough_far (i : Z) :
  -1 <= i <= 1950 -> farEnough i = true -> 586 <= i.
Proof.
  intros Hi H.
  pose proof farEnough_indices as Hall.
  rewrite forallb_forall in Hall.
  assert (Hin : In i indices).
  { unfold indices. apply in_map_iff. exists (Z.to_nat (i + 1)). split.
    - lia.
    - apply in_seq. lia. }
  specialize (Hall i Hin). rewrite H in Hall. simpl in Hall.
  apply Z.leb_le in Hall. exact Hall.
Qed.

(** What a cut at an occurrence of [pat] gives: the index is far enough into
    the text, and the text before the cut ends with [pat]. *)
Lemma cut_at (s pat : JsString.t) :
  let i := JsString.lastIndexOf s pat MAX_LENGTH in
  farEnough i = true ->
  586 <= i <= 1950
  /\ firstn (Z.to_nat (i + Z.of_nat (length pat))) s
     = firstn (Z.to_nat i) s ++ pat.
Proof.
  intros i Hfar.
  destruct (lastIndexOf_spec s pat MAX_LENGTH) as [H|[H1 H2]].
  - fold i in H. rewrite H in Hfar. vm_compute in Hfar. discriminate.
  - fold i in H1, H2. unfold MAX_LENGTH in H1.
    assert (Hi : 586 <= i) by (apply farEnough_far; [lia|exact Hfar]).
    split; [lia|].
    destruct (startsWith_split _ _ H2) as [r Hr].
    assert (Hk : (Z.to_nat i <= length s)%nat).
    { destruct (Nat.le_gt_cases (Z.to_nat i) (length s)) as [Hle|Hgt];
        [exact Hle|].
      rewrite skipn_all2 in H2 by lia.
      destruct pat; [|simpl in H2; discriminate].
      unfold i, JsString.lastIndexOf in Hgt. simpl in Hgt.
      destruct (Z.of_nat (length s) <? 0) eqn:E; [lia|].
      match type of Hgt with context [JsString.lastIndexFrom s [] ?n] =>
        destruct (lastIndexFrom_spec s [] n) as [H'|[H1' _]] end; lia. }
    replace (Z.to_nat (i + Z.of_nat (length pat)))
      with (Z.to_nat i + length pat)%nat by lia.
    apply firstn_skipn_prefix with (r := r); assumption.
Qed.

End Chunks.
Section ChunkLoop.
Import Chunk.
Local Open Scope Z_scope.

Lemma splitPoint_cases (s : JsString.t) :
  (exists pat,
     In pat [[10%N; 10%N]; [10%N]; [46%N; 32%N]]
     /\ farEnough (JsString.lastIndexOf s pat MAX_LENGTH) = true
     /\ splitPoint s
        = JsString.lastIndexOf s pat MAX_LENGTH + Z.of_nat (length pat))
  \/ splitPoint s = MAX_LENGTH.
Proof.
  unfold splitPoint.
  destruct (farEnough (JsString.lastIndexOf s [10%N; 10%N] MAX_LENGTH)) eqn:H1.
  - destruct (cut_at s [10%N; 10%N] H1) as [Hi _].
    left. exists [10%N; 10%N]. split; [simpl; auto|]. split; [exact H1|].
    repeat match goal with
           | |- context [?a =? -1] =>
               replace (a =? -1) with false by (symmetry; apply Z.eqb_neq; lia)
           end.
    reflexivity.
  - change (-1 =? -1) with true. cbv iota.
    destruct (farEnough (JsString.lastIndexOf s [10%N] MAX_LENGTH)) eqn:H2.
    + destruct (cut_at s [10%N] H2) as [Hi _].
      left. exists [10%N]. split; [simpl; auto|]. split; [exact H2|].
      repeat match goal with
             | |- context [?a =? -1] =>
                 replace (a =? -1) with false
                   by (symmetry; apply Z.eqb_neq; lia)
             end.
      reflexivity.
    + change (-1 =? -1) with true. cbv iota.
      destruct (farEnough (JsString.lastIndexOf s [46%N; 32%N] MAX_LENGTH))
        eqn:H3.
      * destruct (cut_at s [46%N; 32%N] H3) as [Hi _].
        left. exists [46%N; 32%N]. split; [simpl; auto|]. split; [exact H3|].
        repeat match goal with
               | |- context [?a =? -1] =>
                   replace (a =? -1) with false
                     by (symmetry; apply Z.eqb_neq; lia)
               end.
        reflexivity.
      * right. reflexivity.
Qed.

(** A cut lies between 587 and 1952 code units into the text, and the
    chunk before it, its trailing white space removed, has at most 1951. *)
Lemma splitPoint_bounds (s : JsString.t) :
  587 <= splitPoint s <= 1952
  /\ (length (JsString.trimEnd (firstn (Z.to_nat (splitPoint s)) s))
      <= 1951)%nat.
Proof.
  destruct (splitPoint_cases s) as [[pat [Hin [Hfar Hsp]]]|Hsp].
  - destruct (cut_at s pat Hfar) as [Hi Hcut].
    rewrite Hsp, Hcut.
    simpl in Hin.
    destruct Hin as [<-|[<-|[<-|[]]]]; simpl length.
    + split; [lia|].
      rewrite trimEnd_blank_tail by reflexivity.
      pose proof (trimEnd_length
        (firstn (Z.to_nat (JsString.lastIndexOf s [10%N; 10%N] MAX_LENGTH)) s)).
      rewrite length_firstn in H. lia.
    + split; [lia|].
      rewrite trimEnd_blank_tail by reflexivity.
      pose proof (trimEnd_length
        (firstn (Z.to_nat (JsString.lastIndexOf s [10%N] MAX_LENGTH)) s)).
      rewrite length_firstn in H. lia.
    + split; [lia|].
      set (i := JsString.lastIndexOf s [46%N; 32%N] MAX_LENGTH) in *.
      replace (firstn (Z.to_nat i) s ++ [46%N; 32%N])
        with ((firstn (Z.to_nat i) s ++ [46%N]) ++ [32%N])
        by (rewrite <- app_assoc; reflexivity).
      rewrite trimEnd_blank_tail by reflexivity.
      pose proof (trimEnd_length (firstn (Z.to_nat i) s ++ [46%N])).
      rewrite length_app, length_firstn in H. cbn [length] in H. lia.
  - rewrite Hsp. unfold MAX_LENGTH. split; [lia|].
    pose proof (trimEnd_length (firstn (Z.to_nat 1950) s)).
    rewrite length_firstn in H. lia.
Qed.

Lemma weave_snoc (chunks gaps : list JsString.t) (c g : JsString.t) :
  length chunks = length gaps ->
  weave (chunks ++ [c]) (gaps ++ [g]) = weave chunks gaps ++ c ++ g.
Proof.
  revert gaps. induction chunks as [|c0 chunks IH]; intros [|g0 gaps] H;
    simpl in H; try discriminate.
  - simpl. rewrite app_nil_r. reflexivity.
  - simpl. rewrite IH by lia. rewrite <- !app_assoc. reflexivity.
Qed.

(** The loop ends within as many rounds as the text has code units and one
    more. It appends chunks of at most 1951 code units, at least one when
    there is text left, and the text left is these chunks in their order
    with white space between them. *)
Lemma chunkLoop_spec (fuel : nat) :
  forall (remaining : JsString.t) (chunks : list JsString.t),
    (length remaining < fuel)%nat ->
    exists more gaps,
      chunkLoop fuel remaining chunks = Some (chunks ++ more)
      /\ Forall (fun c => (length c <= 1951)%nat) more
      /\ (remaining <> [] -> more <> [])
      /\ length more = length gaps
      /\ Forall (fun g => blank g = true) gaps
      /\ weave more gaps = remaining.
Proof.
  induction fuel as [|fuel IH]; intros remaining chunks Hfuel; [lia|].
  cbn [chunkLoop].
  destruct (Z.of_nat (length remaining) <=? 0) eqn:H0.
  - apply Z.leb_le in H0. destruct remaining; [|simpl in H0; lia].
    exists [], []. rewrite app_nil_r.
    repeat split; auto.
  - apply Z.leb_gt in H0.
    destruct (Z.of_nat (length remaining) <=? MAX_LENGTH) eqn:H1.
    + apply Z.leb_le in H1. unfold MAX_LENGTH in H1.
      exists [remaining], [[]].
      repeat split; auto.
      * constructor; [lia|constructor].
      * discriminate.
      * simpl. rewrite !app_nil_r. reflexivity.
    + apply Z.leb_gt in H1. unfold MAX_LENGTH in H1.
      destruct (splitPoint_bounds remaining) as [Hsp Hlen].
      set (k := Z.to_nat (splitPoint remaining)) in *.
      destruct (trimEnd_split (firstn k remaining)) as [w1 [E1 B1]].
      destruct (trimStart_split (skipn k remaining)) as [w2 [E2 B2]].
      assert (Hshrink :
        (length (JsString.trimStart (skipn k remaining)) < fuel)%nat).
      { pose proof (trimStart_length (skipn k remaining)) as Hl.
        rewrite length_skipn in Hl. lia. }
      destruct (IH (JsString.trimStart (skipn k remaining))
                  (chunks ++ [JsString.trimEnd (firstn k remaining)]) Hshrink)
        as [more [gaps [Hrun [Hshort [_ [Hlens [Hblank Hweave]]]]]]].
      exists (JsString.trimEnd (firstn k remaining) :: more),
             ((w1 ++ w2) :: gaps).
      split; [rewrite Hrun, <- app_assoc; reflexivity|].
      split; [constructor; assumption|].
      split; [discriminate|].
      split; [simpl; lia|].
      split.
      { constructor; [|exact Hblank].
        unfold blank in *. rewrite forallb_app, B1, B2. reflexivity. }
      simpl. rewrite Hweave.
      rewrite <- (firstn_skipn k remaining) at 3.
      rewrite E1 at 2. rewrite E2 at 2.
      rewrite <- !app_assoc. reflexivity.
Qed.

End ChunkLoop.
Section ChunkMessage.
Import Chunk.
Local Open Scope Z_scope.

(** X1: [chunkMessage] returns on every text, with at least one chunk, and no
    chunk has more than 1951 code units: a cut behind a full stop and a
    space leaves the full stop, so a chunk can be one unit longer than
    [MAX_LENGTH], and the text of 1950 letters followed by a sentence end
    is cut that way. A text of at most [MAX_LENGTH] units comes back as
    it is. *)
Theorem chunkMessage_returns_short_chunks :
  (forall text : JsString.t,
     exists chunks,
       chunkMessage text = Some chunks
       /\ chunks <> []
       /\ Forall (fun c => (length c <= 1951)%nat) chunks
       /\ ((length text <= 1950)%nat -> chunks = [text]))
  /\ chunkMessage (repeat 97%N 1950 ++ js ". " ++ repeat 98%N 10)
     = Some [repeat 97%N 1950 ++ js "."; repeat 98%N 10].
Proof.
  split.
  - intros text. unfold chunkMessage.
    destruct (Z.of_nat (length text) <=? MAX_LENGTH) eqn:H.
    + apply Z.leb_le in H. unfold MAX_LENGTH in H.
      exists [text]. split; [reflexivity|]. split; [discriminate|].
      split; [|reflexivity].
      constructor; [lia|constructor].
    + apply Z.leb_gt in H. unfold MAX_LENGTH in H.
      destruct (chunkLoop_spec (S (length text)) text [] (Nat.lt_succ_diag_r _))
        as [more [gaps [Hrun [Hshort [Hne _]]]]].
      exists more. split; [exact Hrun|].
      split; [apply Hne; destruct text; [simpl in H; lia|discriminate]|].
      split; [exact Hshort|]. lia.
  - vm_compute. reflexivity.
Qed.

(** X2: [chunkMessage] loses nothing but white space at its cuts: the text is
    its chunks, in their order, each followed by a gap of white space, which
    may be empty. *)
Theorem chunkMessage_keeps_the_text (text : JsString.t) :
  exists chunks gaps,
    chunkMessage text = Some chunks
    /\ length gaps = length chunks
    /\ Forall (fun g => blank g = true) gaps
    /\ weave chunks gaps = text.
Proof.
  unfold chunkMessage.
  destruct (Z.of_nat (length text) <=? MAX_LENGTH) eqn:H.
  - exists [text], [[]]. split; [reflexivity|]. split; [reflexivity|].
    split; [constructor; [reflexivity|constructor]|].
    simpl. rewrite !app_nil_r. reflexivity.
  - destruct (chunkLoop_spec (S (length text)) text [] (Nat.lt_succ_diag_r _))
      as [more [gaps [Hrun [_ [_ [Hlen [Hblank Hweave]]]]]]].
    exists more, gaps. split; [exact Hrun|]. split; [lia|].
    split; assumption.
Qed.

End ChunkMessage.

(* ================================================================== *)
(** ** Dates as strings and days *)
(* ================================================================== *)

Section CalendarOrder.
Import JsDate.
Local Open Scope Z_scope.

Lemma yoe_mono (doe1 doe2 : Z) :
  0 <= doe1 -> doe1 <= doe2 -> doe2 < 146097 ->
  (doe1 - doe1 / 1460 + doe1 / 36524 - doe1 / 146096) / 365
  <= (doe2 - doe2 / 1460 + doe2 / 36524 - doe2 / 146096) / 365.
Proof.
  intros H0 H1 H2. apply Z.div_le_mono; [lia|].
  Z.div_mod_to_equations. lia.
Qed.

Lemma civil_day_bounds (doy : Z) :
  0 <= doy <= 365 ->
  let mp := (5 * doy + 2) / 153 in
  0 <= mp <= 11 /\ 1 <= doy - (153 * mp + 2) / 5 + 1 <= 31.
Proof. intros H. cbv zeta. Z.div_mod_to_equations. lia. Qed.

Lemma civil_mp_mono (doy1 doy2 : Z) :
  0 <= doy1 -> doy1 < doy2 -> doy2 <= 365 ->
  let mp1 := (5 * doy1 + 2) / 153 in
  let mp2 := (5 * doy2 + 2) / 153 in
  mp1 < mp2
  \/ (mp1 = mp2 /\ doy1 - (153 * mp1 + 2) / 5 + 1 < doy2 - (153 * mp2 + 2) / 5 + 1).
Proof.
  intros H0 H1 H2. cbv zeta.
  assert (Hle : (5 * doy1 + 2) / 153 <= (5 * doy2 + 2) / 153)
    by (apply Z.div_le_mono; lia).
  destruct (Z.eq_dec ((5 * doy1 + 2) / 153) ((5 * doy2 + 2) / 153)) as [E|E].
  - right. split; [exact E|]. rewrite E. lia.
  - left. lia.
Qed.

Lemma civilFromDays_lt (a b : Z) :
  a < b -> earlier (civilFromDays a) (civilFromDays b).
Proof.
  intros Hab. unfold civilFromDays.
  set (za := a + 719468). set (zb := b + 719468).
  set (era1 := za / 146097). set (doe1 := za mod 146097).
  set (era2 := zb / 146097). set (doe2 := zb mod 146097).
  assert (Hd1 : 0 <= doe1 < 146097) by (apply Z.mod_pos_bound; lia).
  assert (Hd2 : 0 <= doe2 < 146097) by (apply Z.mod_pos_bound; lia).
  assert (Hza : za = 146097 * era1 + doe1) by (apply Z.div_mod; lia).
  assert (Hzb : zb = 146097 * era2 + doe2) by (apply Z.div_mod; lia).
  assert (Hera : era1 <= era2) by (apply Z.div_le_mono; lia).
  pose proof (era_bounds doe1 Hd1) as Hy1. cbv zeta in Hy1.
  pose proof (era_bounds doe2 Hd2) as Hy2. cbv zeta in Hy2.
  pose proof (yoe_mono doe1 doe2) as Hmono.
  set (yoe1 := (doe1 - doe1 / 1460 + doe1 / 36524 - doe1 / 146096) / 365) in *.
  set (yoe2 := (doe2 - doe2 / 1460 + doe2 / 36524 - doe2 / 146096) / 365) in *.
  set (doy1 := doe1 - (365 * yoe1 + yoe1 / 4 - yoe1 / 100)) in *.
  set (doy2 := doe2 - (365 * yoe2 + yoe2 / 4 - yoe2 / 100)) in *.
  destruct Hy1 as [Hy1 Hdoy1]. destruct Hy2 as [Hy2 Hdoy2].
  pose proof (civil_day_bounds doy1 Hdoy1) as Hm1. cbv zeta in Hm1.
  pose proof (civil_day_bounds doy2 Hdoy2) as Hm2. cbv zeta in Hm2.
  pose proof (civil_mp_mono doy1 doy2) as Hmp. cbv zeta in Hmp.
  set (mp1 := (5 * doy1 + 2) / 153) in *.
  set (mp2 := (5 * doy2 + 2) / 153) in *.
  set (d1 := doy1 - (153 * mp1 + 2) / 5 + 1) in *.
  set (d2 := doy2 - (153 * mp2 + 2) / 5 + 1) in *.
  assert (Horder :
    yoe1 + era1 * 400 < yoe2 + era2 * 400
    \/ (yoe1 + era1 * 400 = yoe2 + era2 * 400
        /\ (mp1 < mp2 \/ (mp1 = mp2 /\ d1 < d2)))).
  { destruct (Z.eq_dec era1 era2) as [E|E]; [|left; lia].
    assert (Hdoe : doe1 < doe2) by lia.
    specialize (Hmono ltac:(lia) ltac:(lia) ltac:(lia)).
    destruct (Z.eq_dec yoe1 yoe2) as [Ey|Ey]; [|left; lia].
    right. split; [lia|].
    apply Hmp; [lia| |lia].
    unfold doy1, doy2. rewrite Ey. lia. }
  clearbody d1 d2 mp1 mp2 yoe1 yoe2 era1 era2.
  unfold earlier.
  destruct (Z.ltb_spec mp1 10), (Z.ltb_spec mp2 10);
    repeat match goal with
           | |- context [?x <=? 2] => destruct (Z.leb_spec x 2)
           end; lia.
Qed.

Lemma civilFromDays_le (a b : Z) :
  a <= b ->
  civilFromDays a = civilFromDays b
  \/ earlier (civilFromDays a) (civilFromDays b).
Proof.
  intros H. destruct (Z.eq_dec a b) as [->|E]; [left; reflexivity|].
  right. apply civilFromDays_lt. lia.
Qed.

(** The civil date of a day of the years 0 to 9999 has its fields in the
    ranges the digits of [toISOString] can hold. *)
Lemma civilFromDays_fields (z : Z) :
  fourDigitYear z ->
  let '(y, m, d) := civilFromDays z in
  0 <= y <= 9999 /\ 1 <= m <= 12 /\ 1 <= d <= 31.
Proof.
  intros [Hlo Hhi].
  assert (Hfields : let '(y, m, d) := civilFromDays z in
                    1 <= m <= 12 /\ 1 <= d <= 31).
  { unfold civilFromDays.
    set (doe := (z + 719468) mod 146097).
    assert (Hd : 0 <= doe < 146097) by (apply Z.mod_pos_bound; lia).
    pose proof (era_bounds doe Hd) as Hy. cbv zeta in Hy.
    set (yoe := (doe - doe / 1460 + doe / 36524 - doe / 146096) / 365) in *.
    set (doy := doe - (365 * yoe + yoe / 4 - yoe / 100)) in *.
    destruct Hy as [_ Hdoy].
    pose proof (civil_day_bounds doy Hdoy) as Hm. cbv zeta in Hm.
    set (mp := (5 * doy + 2) / 153) in *.
    destruct (Z.ltb_spec mp 10); lia. }
  pose proof (civilFromDays_le (-719528) z Hlo) as H1.
  pose proof (civilFromDays_le z 2932896 Hhi) as H2.
  change (civilFromDays (-719528)) with (0, 1, 1) in H1.
  change (civilFromDays 2932896) with (9999, 12, 31) in H2.
  destruct (civilFromDays z) as [[y m] d].
  destruct Hfields as [Hm Hd].
  split; [|split; assumption].
  split.
  - destruct H1 as [H1|H1]; [injection H1; lia|]. unfold earlier in H1. lia.
  - destruct H2 as [H2|H2]; [injection H2; lia|]. unfold earlier in H2. lia.
Qed.

End CalendarOrder.
Section DateOrder.
Import JsDate.
Local Open Scope Z_scope.

Lemma padDigits_acc (w : nat) :
  forall (n : Z) (acc : JsString.t),
    JsString.padDigits w n acc = JsString.padDigits w n [] ++ acc.
Proof.
  induction w as [|w IH]; intros n acc; simpl; [reflexivity|].
  rewrite (IH _ (_ :: acc)), (IH _ [_]), <- app_assoc. reflexivity.
Qed.

Lemma pad_succ (w : nat) (n : Z) :
  JsString.pad (S w) n
  = JsString.pad w (n / 10) ++ [JsString.digit (n mod 10)].
Proof. unfold JsString.pad. simpl. apply padDigits_acc. Qed.

(** Numbers written with the same count of digits compare as strings the
    way they compare as numbers. *)
Lemma leb_pad (w : nat) :
  forall (a b : Z) (s t : JsString.t),
    0 <= a < 10 ^ Z.of_nat w -> 0 <= b < 10 ^ Z.of_nat w ->
    JsString.leb (JsString.pad w a ++ s) (JsString.pad w b ++ t)
    = if a <? b then true else if b <? a then false else JsString.leb s t.
Proof.
  induction w as [|w IH]; intros a b s t Ha Hb.
  - change (10 ^ Z.of_nat 0) with 1 in *.
    assert (a = 0) by lia. assert (b = 0) by lia. subst. reflexivity.
  - rewrite Nat2Z.inj_succ, Z.pow_succ_r in Ha, Hb by lia.
    rewrite !pad_succ, <- !app_assoc.
    rewrite IH by (split; [apply Z.div_pos; lia
                          |apply Z.div_lt_upper_bound; lia]).
    pose proof (Z.div_mod a 10 ltac:(lia)) as Ea.
    pose proof (Z.div_mod b 10 ltac:(lia)) as Eb.
    pose proof (Z.mod_pos_bound a 10 ltac:(lia)) as Ma.
    pose proof (Z.mod_pos_bound b 10 ltac:(lia)) as Mb.
    cbn [app JsString.leb]. unfold JsString.digit.
    destruct (Z.ltb_spec (a / 10) (b / 10));
      [destruct (Z.ltb_spec a b); [reflexivity|lia]|].
    destruct (Z.ltb_spec (b / 10) (a / 10)).
    { destruct (Z.ltb_spec a b); [lia|].
      destruct (Z.ltb_spec b a); [reflexivity|lia]. }
    destruct (N.ltb_spec (48 + Z.to_N (a mod 10)) (48 + Z.to_N (b mod 10))).
    { destruct (Z.ltb_spec a b); [reflexivity|lia]. }
    destruct (N.ltb_spec (48 + Z.to_N (b mod 10)) (48 + Z.to_N (a mod 10))).
    { destruct (Z.ltb_spec a b); [lia|].
      destruct (Z.ltb_spec b a); [reflexivity|lia]. }
    destruct (Z.ltb_spec a b); [lia|].
    destruct (Z.ltb_spec b a); [lia|reflexivity].
Qed.

Lemma leb_same_head (c : N) (s t : JsString.t) :
  JsString.leb (c :: s) (c :: t) = JsString.leb s t.
Proof. simpl. rewrite N.ltb_irrefl. reflexivity. Qed.

(** The dates that [toISOString] writes for the days of the years 0 to 9999
    compare as strings the way the days compare. *)
Lemma isoDateOfDay_leb (a b : Z) :
  fourDigitYear a -> fourDigitYear b ->
  JsString.leb (isoDateOfDay a) (isoDateOfDay b) = (a <=? b).
Proof.
  intros Ha Hb.
  pose proof (civilFromDays_fields a Ha) as Fa.
  pose proof (civilFromDays_fields b Hb) as Fb.
  assert (Horder :
    if a <=? b
    then civilFromDays a = civilFromDays b
         \/ earlier (civilFromDays a) (civilFromDays b)
    else earlier (civilFromDays b) (civilFromDays a)).
  { destruct (Z.leb_spec a b).
    - apply civilFromDays_le. assumption.
    - apply civilFromDays_lt. assumption. }
  unfold isoDateOfDay.
  destruct (civilFromDays a) as [[y1 m1] d1].
  destruct (civilFromDays b) as [[y2 m2] d2].
  destruct Fa as [Hy1 [Hm1 Hd1]]. destruct Fb as [Hy2 [Hm2 Hd2]].
  unfold isoYear.
  replace ((0 <=? y1) && (y1 <=? 9999)) with true
    by (symmetry; apply andb_true_intro; split; apply Z.leb_le; lia).
  replace ((0 <=? y2) && (y2 <=? 9999)) with true
    by (symmetry; apply andb_true_intro; split; apply Z.leb_le; lia).
  assert (Hdash : forall x : JsString.t, js "-" ++ x = 45%N :: x)
    by reflexivity.
  rewrite !Hdash.
  rewrite (leb_pad 4) by (change (10 ^ Z.of_nat 4) with 10000; lia).
  rewrite leb_same_head.
  rewrite (leb_pad 2) by (change (10 ^ Z.of_nat 2) with 100; lia).
  rewrite leb_same_head.
  rewrite <- (app_nil_r (JsString.pad 2 d1)), <- (app_nil_r (JsString.pad 2 d2)).
  rewrite (leb_pad 2) by (change (10 ^ Z.of_nat 2) with 100; lia).
  cbn [JsString.leb].
  unfold earlier in Horder.
  destruct (Z.leb_spec a b).
  - destruct Horder as [E|Horder].
    + injection E as -> -> ->. rewrite !Z.ltb_irrefl. reflexivity.
    + destruct (Z.ltb_spec y1 y2); [reflexivity|].
      destruct (Z.ltb_spec y2 y1); [lia|].
      destruct (Z.ltb_spec m1 m2); [reflexivity|].
      destruct (Z.ltb_spec m2 m1); [lia|].
      destruct (Z.ltb_spec d1 d2); [reflexivity|].
      destruct (Z.ltb_spec d2 d1); [lia|reflexivity].
  - destruct (Z.ltb_spec y1 y2); [lia|].
    destruct (Z.ltb_spec y2 y1); [reflexivity|].
    destruct (Z.ltb_spec m1 m2); [lia|].
    destruct (Z.ltb_spec m2 m1); [reflexivity|].
    destruct (Z.ltb_spec d1 d2); [lia|].
    destruct (Z.ltb_spec d2 d1); [reflexivity|lia].
Qed.

(** Different days of these years have different dates. *)
Lemma isoDateOfDay_inj (a b : Z) :
  fourDigitYear a -> fourDigitYear b ->
  isoDateOfDay a = isoDateOfDay b -> a = b.
Proof.
  intros Ha Hb E.
  pose proof (isoDateOfDay_leb a b Ha Hb) as H1.
  pose proof (isoDateOfDay_leb b a Hb Ha) as H2.
  rewrite E in H1. rewrite E in H2. rewrite H1 in H2.
  destruct (Z.leb_spec a b), (Z.leb_spec b a); try lia; discriminate.
Qed.

End DateOrder.

(* ================================================================== *)
(** ** The reviews and their dates *)
(* ================================================================== *)

Section DateWindows.
Import JsDate Performance Scheduler.
Local Open Scope Z_scope.

Lemma Day_minus_days (t n : Z) : Day (t - n * msPerDay) = Day t - n.
Proof.
  unfold Day, msPerDay.
  replace (t - n * 86400000) with (t + (- n) * 86400000) by lia.
  rewrite Z.div_add by lia. lia.
Qed.

(** X3: A call without a verdict, dated in the way [toISOString] writes dates,
    is handed to the nightly review exactly when the clock reads a later
    UTC day than its date: from the first instant of the next UTC day on,
    whatever the hour, and never on the UTC day of its date. *)
Theorem getPendingReviews_from_the_next_utc_day (now : time)
    (data : PerformanceData) (r : Recommendation) (day : Z) :
  fourDigitYear day -> fourDigitYear (Day now - 1) ->
  date r = isoDateOfDay day ->
  (In r (getPendingReviews now data)
   <-> In r (recommendations data) /\ isPending r = true /\ day < Day now).
Proof.
  intros Hday Hnow Hdate.
  unfold getPendingReviews. rewrite !filter_In, isoDay_isoDate.
  unfold isoDate.
  change (24 * 60 * 60 * 1000) with (1 * msPerDay).
  rewrite Day_minus_days, Hdate, isoDateOfDay_leb by assumption.
  rewrite Z.leb_le. intuition lia.
Qed.

Lemma getPendingReviews_from_the_next_utc_day_witness :
  In (Examples.call "2024-01-10-NVDA-lr7iso00" "2024-01-10" "NVDA" None)
     (getPendingReviews Examples.nightlyTime Examples.sameDayLedger)
  <-> In (Examples.call "2024-01-10-NVDA-lr7iso00" "2024-01-10" "NVDA" None)
        (recommendations Examples.sameDayLedger)
      /\ isPending
           (Examples.call "2024-01-10-NVDA-lr7iso00" "2024-01-10" "NVDA" None)
         = true
      /\ 19732 < Day Examples.nightlyTime.
Proof.
  apply (getPendingReviews_from_the_next_utc_day Examples.nightlyTime
           Examples.sameDayLedger
           (Examples.call "2024-01-10-NVDA-lr7iso00" "2024-01-10" "NVDA" None)
           19732).
  - unfold fourDigitYear. lia.
  - unfold fourDigitYear. vm_compute. split; discriminate.
  - vm_compute. reflexivity.
Defined.

(** X4: The calls the weekly review scores are the reviewed calls dated on the
    UTC day seven days before the clock reading or on any later day: eight
    dates up to today's, and any date in the future. *)
Theorem thisWeek_from_seven_days_back (now : time) (data : PerformanceData)
    (r : Recommendation) (day : Z) :
  fourDigitYear day -> fourDigitYear (Day now - 7) ->
  date r = isoDateOfDay day ->
  (In r (thisWeek now data)
   <-> In r (recommendations data) /\ isReviewed r = true
       /\ Day now - 7 <= day).
Proof.
  intros Hday Hnow Hdate.
  unfold thisWeek. rewrite filter_In, isoDay_isoDate.
  unfold isoDate, JsString.geb.
  change (7 * 24 * 60 * 60 * 1000) with (7 * msPerDay).
  rewrite Day_minus_days, Hdate, isoDateOfDay_leb by assumption.
  rewrite andb_true_iff, Z.leb_le. intuition lia.
Qed.

Lemma thisWeek_from_seven_days_back_witness :
  In (Examples.call "2024-01-09-NVDA-lr6a0000" "2024-01-09" "NVDA"
        (Some correct))
     (thisWeek Examples.weeklyTime Examples.reviewedLedger)
  <-> In (Examples.call "2024-01-09-NVDA-lr6a0000" "2024-01-09" "NVDA"
            (Some correct))
        (recommendations Examples.reviewedLedger)
      /\ isReviewed
           (Examples.call "2024-01-09-NVDA-lr6a0000" "2024-01-09" "NVDA"
              (Some correct))
         = true
      /\ Day Examples.weeklyTime - 7 <= 19731.
Proof.
  apply (thisWeek_from_seven_days_back Examples.weeklyTime
           Examples.reviewedLedger
           (Examples.call "2024-01-09-NVDA-lr6a0000" "2024-01-09" "NVDA"
              (Some correct))
           19731).
  - unfold fourDigitYear. lia.
  - unfold fourDigitYear. vm_compute. split; discriminate.
  - vm_compute. reflexivity.
Defined.

End DateWindows.
Section WeeklyAccuracy.
Import JsDate Performance Scheduler.
Local Open Scope Z_scope.



End WeeklyAccuracy.
Section ReviewGuards.
Import JsDate Performance Scheduler.
Local Open Scope Z_scope.

Lemma newYorkOffset_cases (t : time) :
  newYorkOffset t = -4 * msPerHour \/ newYorkOffset t = -5 * msPerHour.
Proof. unfold newYorkOffset. destruct (_ && _); auto. Qed.

Lemma wallClock_Day (t : time) :
  Day (toNewYorkWallClock t) = Day (t + newYorkOffset t).
Proof.
  unfold toNewYorkWallClock, Day, msPerSecond, msPerDay.
  generalize (t + newYorkOffset t). intros x.
  Z.div_mod_to_equations. lia.
Qed.

Lemma wallClock_Hour (t : time) :
  HourFromTime (toNewYorkWallClock t) = HourFromTime (t + newYorkOffset t).
Proof.
  unfold toNewYorkWallClock, HourFromTime, msPerSecond, msPerHour.
  generalize (t + newYorkOffset t). intros x. f_equal.
  Z.div_mod_to_equations. lia.
Qed.

Lemma getTodayET_day (t : time) :
  getTodayET t = isoDateOfDay (Day (toNewYorkWallClock t)).
Proof. unfold getTodayET. rewrite isoDay_isoDate. reflexivity. Qed.

(** From 20:00 in New York to midnight there, the UTC day is the day after
    the day in New York. *)
Lemma evening_is_tomorrow_in_utc (t : time) :
  20 <= getETHour t -> Day t = Day (toNewYorkWallClock t) + 1.
Proof.
  unfold getETHour. rewrite wallClock_Hour, wallClock_Day.
  unfold HourFromTime, Day, msPerHour, msPerDay.
  destruct (newYorkOffset_cases t) as [-> | ->]; unfold msPerHour;
    intros H; Z.div_mod_to_equations; lia.
Qed.

Lemma mark_of_the_evening (t t' : time) :
  20 <= getETHour t ->
  Day (toNewYorkWallClock t') = Day (toNewYorkWallClock t) + 1 ->
  getTodayET t' = isoDay t.
Proof.
  intros Hh Hd. rewrite getTodayET_day, isoDay_isoDate. unfold isoDate.
  rewrite Hd, <- evening_is_tomorrow_in_utc by assumption. reflexivity.
Qed.

Lemma lastNightlyReview_batch (clock : nat -> time) (us : list Update)
    (data : PerformanceData) :
  lastNightlyReview (batchUpdateOutcomes clock us data)
  = lastNightlyReview data.
Proof. reflexivity. Qed.

(** X5: The mark a nightly review leaves is the UTC date of its end, and the
    guard at its start compares the mark with the date in New York. A
    review that runs to its end in the evening of New York, from 20:00 on,
    therefore leaves the date of the next day there, and the review of the
    next day in New York returns at its guard: it changes nothing. *)
Theorem nightlyReview_skips_the_day_after (env env' : Run)
    (data : PerformanceData) (response : JsString.t) :
  getLastNightlyReview data <> getTodayET (startTime env) ->
  answer env = Some response -> delivered env = true ->
  20 <= getETHour (startTime env) -> 20 <= getETHour (markTime env) ->
  Day (toNewYorkWallClock (markTime env))
  = Day (toNewYorkWallClock (startTime env)) ->
  Day (toNewYorkWallClock (startTime env'))
  = Day (toNewYorkWallClock (startTime env)) + 1 ->
  nightlyReview env' (nightlyReview env data) = nightlyReview env data.
Proof.
  intros Hnew Hans Hdel Hs Hm Hsame Hnext.
  assert (Hmark : getLastNightlyReview (nightlyReview env data)
                  = getTodayET (startTime env')).
  { unfold nightlyReview at 1.
    apply jseqb_neq in Hnew. rewrite Hnew.
    destruct (getPendingReviews (startTime env) data).
    - symmetry. apply mark_of_the_evening; assumption.
    - rewrite Hans, Hdel.
      unfold getLastNightlyReview, markNightlyReview. cbn [lastNightlyReview].
      symmetry. apply mark_of_the_evening; [assumption|].
      rewrite Hsame. assumption. }
  unfold nightlyReview at 1.
  apply jseqb_eq in Hmark. rewrite Hmark. reflexivity.
Qed.

Lemma nightlyReview_skips_the_day_after_witness :
  nightlyReview
    (Examples.runAt (Examples.nightlyTime + msPerDay) Examples.reviewResponse)
    (nightlyReview (Examples.runAt Examples.nightlyTime Examples.reviewResponse)
       Examples.twoPending)
  = nightlyReview (Examples.runAt Examples.nightlyTime Examples.reviewResponse)
      Examples.twoPending.
Proof.
  apply (nightlyReview_skips_the_day_after
           (Examples.runAt Examples.nightlyTime Examples.reviewResponse)
           (Examples.runAt (Examples.nightlyTime + msPerDay)
              Examples.reviewResponse)
           Examples.twoPending Examples.reviewResponse).
  - vm_compute. discriminate.
  - reflexivity.
  - reflexivity.
  - vm_compute. discriminate.
  - vm_compute. discriminate.
  - reflexivity.
  - vm_compute. reflexivity.
Defined.

End ReviewGuards.
Section WeeklyGuard.
Import JsDate Performance Scheduler.
Local Open Scope Z_scope.

Lemma weeklyReview_recommendations (env : Run) (data : PerformanceData) :
  recommendations (weeklyReview env data) = recommendations data.
Proof.
  unfold weeklyReview.
  destruct (JsString.eqb _ _); [reflexivity|].
  destruct (Nat.ltb _ 2); [reflexivity|].
  destruct (answer env); [|reflexivity].
  destruct (delivered env); reflexivity.
Qed.

Lemma thisWeek_recommendations (now : time) (d d' : PerformanceData) :
  recommendations d = recommendations d' -> thisWeek now d = thisWeek now d'.
Proof. unfold thisWeek. intros ->. reflexivity. Qed.

(** X6: The mark a weekly review leaves is the UTC date of its end, which in
    the evening of New York is the date of the next day there, while the
    guard at the start compares the mark with the date in New York. So the
    guard does not hold back a second run on the evening of the first: when
    both have two reviewed calls or more and an answer, the ledger ends with
    a score of each. *)
Theorem weeklyReview_scores_twice_in_an_evening (env env' : Run)
    (data : PerformanceData) (response response' : JsString.t) :
  getLastWeeklyReview data <> getTodayET (startTime env) ->
  answer env = Some response -> delivered env = true ->
  answer env' = Some response' ->
  20 <= getETHour (markTime env) ->
  Day (toNewYorkWallClock (markTime env))
  = Day (toNewYorkWallClock (startTime env)) ->
  Day (toNewYorkWallClock (startTime env'))
  = Day (toNewYorkWallClock (startTime env)) ->
  fourDigitYear (Day (toNewYorkWallClock (startTime env))) ->
  fourDigitYear (Day (toNewYorkWallClock (startTime env)) + 1) ->
  (2 <= length (thisWeek (startTime env) data))%nat ->
  (2 <= length (thisWeek (startTime env') data))%nat ->
  weeklyScores (weeklyReview env' (weeklyReview env data))
  = pushCapped 52
      (pushCapped 52 (weeklyScores data)
         (weeklyScoreOf (startTime env) (thisWeek (startTime env) data)
            response))
      (weeklyScoreOf (startTime env') (thisWeek (startTime env') data)
         response').
Proof.
  intros Hnew Hans Hdel Hans' Hm Hsame Hsame' Hr Hr' Hn Hn'.
  assert (Hfirst :
    weeklyReview env data
    = markWeeklyReview (markTime env)
        (recordWeeklyScore
           (weeklyScoreOf (startTime env) (thisWeek (startTime env) data)
              response) data)).
  { unfold weeklyReview.
    apply jseqb_neq in Hnew. rewrite Hnew.
    replace (Nat.ltb _ 2) with false by (symmetry; apply Nat.ltb_ge; lia).
    rewrite Hans, Hdel. reflexivity. }
  assert (Hopen :
    JsString.eqb (getLastWeeklyReview (weeklyReview env data))
      (getTodayET (startTime env')) = false).
  { rewrite Hfirst. apply jseqb_neq.
    unfold getLastWeeklyReview, markWeeklyReview. cbn [lastWeeklyReview].
    rewrite getTodayET_day, isoDay_isoDate. unfold isoDate.
    rewrite (evening_is_tomorrow_in_utc (markTime env) Hm), Hsame, Hsame'.
    intros E. apply isoDateOfDay_inj in E; [lia|assumption|assumption]. }
  unfold weeklyReview at 1. rewrite Hopen.
  rewrite (thisWeek_recommendations (startTime env') _ data)
    by apply weeklyReview_recommendations.
  replace (Nat.ltb _ 2) with false by (symmetry; apply Nat.ltb_ge; lia).
  rewrite Hans'.
  assert (Hrec : forall s d,
            weeklyScores (recordWeeklyScore s d)
            = pushCapped 52 (weeklyScores d) s) by reflexivity.
  assert (Hscores :
    weeklyScores (weeklyReview env data)
    = pushCapped 52 (weeklyScores data)
        (weeklyScoreOf (startTime env) (thisWeek (startTime env) data)
           response)).
  { rewrite Hfirst. reflexivity. }
  destruct (delivered env').
  - unfold markWeeklyReview. cbn [weeklyScores].
    rewrite Hrec, Hscores. reflexivity.
  - rewrite Hrec, Hscores. reflexivity.
Qed.

Lemma weeklyReview_scores_twice_in_an_evening_witness :
  weeklyScores
    (weeklyReview
       (Examples.runAt (Examples.weeklyTime + 60000) Examples.weeklyResponse)
       (weeklyReview
          (Examples.runAt Examples.weeklyTime Examples.weeklyResponse)
          Examples.reviewedLedger))
  = pushCapped 52
      (pushCapped 52 (weeklyScores Examples.reviewedLedger)
         (weeklyScoreOf Examples.weeklyTime
            (thisWeek Examples.weeklyTime Examples.reviewedLedger)
            Examples.weeklyResponse))
      (weeklyScoreOf (Examples.weeklyTime + 60000)
         (thisWeek (Examples.weeklyTime + 60000) Examples.reviewedLedger)
         Examples.weeklyResponse).
Proof.
  apply (weeklyReview_scores_twice_in_an_evening
           (Examples.runAt Examples.weeklyTime Examples.weeklyResponse)
           (Examples.runAt (Examples.weeklyTime + 60000)
              Examples.weeklyResponse)
           Examples.reviewedLedger Examples.weeklyResponse
           Examples.weeklyResponse).
  - vm_compute. discriminate.
  - reflexivity.
  - reflexivity.
  - reflexivity.
  - vm_compute. discriminate.
  - reflexivity.
  - vm_compute. reflexivity.
  - unfold fourDigitYear. vm_compute. split; discriminate.
  - unfold fourDigitYear. vm_compute. split; discriminate.
  - vm_compute. lia.
  - vm_compute. lia.
Defined.

End WeeklyGuard.

(* ================================================================== *)
(** ** The ticks of the scheduler *)
(* ================================================================== *)

Section Ticks.
Import JsDate Performance Scheduler.
Local Open Scope Z_scope.

Lemma scanName_inj (a b : Job) : scanName a = scanName b -> a = b.
Proof. destruct a, b; intros H; try reflexivity; vm_compute in H; discriminate. Qed.

Lemma started_snoc (j j' : Job) (jobs : list Job) :
  started j (jobs ++ [j'])
  = (started j jobs + if Job_eq_dec j' j then 1 else 0)%nat.
Proof.
  unfold started. rewrite count_occ_app. simpl.
  destruct (Job_eq_dec j' j); reflexivity.
Qed.

Lemma view_launch_other (clock : Site -> time) (j j' : Job) (due : bool)
    (st : RanToday * list Job) :
  j' <> j -> view j (launch clock j' due st) = view j st.
Proof.
  intros Hne. unfold launch.
  destruct (due && negb _); [|reflexivity].
  unfold view, markRanToday. cbn [fst snd].
  rewrite started_snoc.
  destruct (Job_eq_dec j' j) as [E|_]; [contradiction|].
  replace (JsString.eqb (scanName j) (scanName j')) with false.
  - rewrite Nat.add_0_r. reflexivity.
  - symmetry. apply jseqb_neq. intros E. apply scanName_inj in E. congruence.
Qed.

Lemma view_launch_same (clock : Site -> time) (j : Job) (due : bool)
    (st : RanToday * list Job) :
  view j (launch clock j due st)
  = if due && negb (hasRunToday (clock (AtCheck j)) (fst st) (scanName j))
    then (Some (getTodayET (clock (AtMark j))), S (snd (view j st)))
    else view j st.
Proof.
  unfold launch.
  destruct (due && negb _); [|reflexivity].
  unfold view, markRanToday. cbn [fst snd].
  rewrite started_snoc, jseqb_refl.
  destruct (Job_eq_dec j j) as [_|E]; [|contradiction].
  f_equal. lia.
Qed.

Lemma hasRunToday_view (now : time) (j : Job) (st st' : RanToday * list Job) :
  fst (view j st) = fst (view j st') ->
  hasRunToday now (fst st) (scanName j) = hasRunToday now (fst st') (scanName j).
Proof. unfold view, hasRunToday. cbn [fst]. intros ->. reflexivity. Qed.

(** What a tick does about a job: it starts the job, once, and marks it
    with the date in New York when the job is due and not marked with the
    date of the check; otherwise it neither starts it nor touches its
    mark. *)
Lemma tick_view (clock : Site -> time) (ranToday : RanToday) (j : Job) :
  view j (tick clock ranToday)
  = if dueAt clock j
       && negb (hasRunToday (clock (AtCheck j)) ranToday (scanName j))
    then (Some (getTodayET (clock (AtMark j))), 1%nat)
    else (ranToday (scanName j), 0%nat).
Proof.
  unfold tick, dueAt.
  set (st0 := (ranToday, @nil Job)).
  assert (H0 : view j st0 = (ranToday (scanName j), 0%nat)) by reflexivity.
  destruct j; cbn [window];
    destruct (isWeekday (clock AtWeekday)) eqn:Hw;
    repeat first
      [ rewrite view_launch_other by discriminate
      | rewrite view_launch_same ];
    rewrite ?H0; cbn [andb fst snd];
    repeat first
      [ rewrite (hasRunToday_view _ _ _ st0)
          by (repeat rewrite view_launch_other by discriminate; reflexivity) ];
    try reflexivity.
Qed.

End Ticks.
Section TicksOfADay.
Import JsDate Performance Scheduler.
Local Open Scope Z_scope.

Lemma started_app (j : Job) (a b : list Job) :
  started j (a ++ b) = (started j a + started j b)%nat.
Proof. unfold started. apply count_occ_app. Qed.

Lemma ticks_cons (clock : Site -> time) (clocks : list (Site -> time))
    (ranToday : RanToday) :
  ticks (clock :: clocks) ranToday
  = (fst (ticks clocks (fst (tick clock ranToday))),
     snd (tick clock ranToday)
       :: snd (ticks clocks (fst (tick clock ranToday)))).
Proof.
  cbn [ticks]. destruct (tick clock ranToday) as [ran1 jobs]. cbn [fst snd].
  destruct (ticks clocks ran1). reflexivity.
Qed.

(** X7: Over the ticks of one day in New York, a job is started exactly once
    when some tick finds it due and it is not marked with that day
    beforehand, and not at all otherwise: the interval of a minute puts
    several ticks into the window of a job, and the mark keeps all but the
    first from starting it. *)
Theorem ticks_start_a_job_once_a_day (clocks : list (Site -> time))
    (ranToday : RanToday) (j : Job) (d : JsString.t) :
  Forall (fun clock => getTodayET (clock (AtCheck j)) = d
                       /\ getTodayET (clock (AtMark j)) = d) clocks ->
  started j (concat (snd (ticks clocks ranToday)))
  = if existsb (fun clock => dueAt clock j) clocks
       && negb match ranToday (scanName j) with
               | Some d' => JsString.eqb d' d
               | None => false
               end
    then 1%nat else 0%nat.
Proof.
  intros Hday. revert ranToday.
  induction Hday as [|clock clocks [Hcheck Hmark] _ IH]; intros ranToday.
  - reflexivity.
  - rewrite ticks_cons. cbn [snd concat existsb].
    rewrite started_app, IH.
    pose proof (tick_view clock ranToday j) as Hview.
    unfold view in Hview.
    unfold hasRunToday in Hview. rewrite Hcheck, Hmark in Hview.
    destruct (dueAt clock j);
      destruct (ranToday (scanName j)) as [d'|] eqn:Hran;
      try destruct (JsString.eqb d' d) eqn:Hd;
      cbn [andb negb orb] in Hview |- *;
      injection Hview as Hr Hs; rewrite Hr, Hs;
      rewrite ?jseqb_refl, ?Hd, ?andb_false_r, ?andb_true_r;
      cbn [andb negb orb]; try reflexivity;
      destruct (existsb _ clocks); reflexivity.
Qed.

Lemma ticks_start_a_job_once_a_day_witness :
  started NightlyReview
    (concat
       (snd (ticks [(fun _ => Examples.nightlyTime);
                    (fun _ => Examples.nightlyTime + 60000)] neverRan)))
  = if existsb (fun clock => dueAt clock NightlyReview)
         [(fun _ => Examples.nightlyTime);
          (fun _ => Examples.nightlyTime + 60000)]
       && negb match neverRan (scanName NightlyReview) with
               | Some d' => JsString.eqb d' (js "2024-01-10")
               | None => false
               end
    then 1%nat else 0%nat.
Proof.
  apply (ticks_start_a_job_once_a_day
           [(fun _ => Examples.nightlyTime);
            (fun _ => Examples.nightlyTime + 60000)]
           neverRan NightlyReview (js "2024-01-10")).
  repeat constructor; vm_compute; reflexivity.
Defined.

End TicksOfADay.

(* ================================================================== *)
(** ** The ledger under its operations *)
(* ================================================================== *)

Section LedgerInvariants.
Import JsDate Performance Scheduler.
Local Open Scope Z_scope.

Lemma pushCapped_within (A : Type) (cap : nat) (l : list A) (x : A) :
  (length l <= cap)%nat -> (length (pushCapped cap l x) <= cap)%nat.
Proof.
  intros H. unfold pushCapped.
  destruct (Nat.ltb_spec cap (length (l ++ [x]))) as [Hlt|Hge]; [|exact Hge].
  unfold JsString.sliceLast. rewrite length_skipn. lia.
Qed.

Lemma applyUpdate_length (now : time) (u : Update)
    (recs : list Recommendation) :
  length (applyUpdate now u recs) = length recs.
Proof.
  rewrite <- (length_map id), applyUpdate_ids, length_map. reflexivity.
Qed.

Lemma applyUpdates_length (clock : nat -> time) (updates : list Update)
    (k : nat) (recs : list Recommendation) :
  length (applyUpdates clock k updates recs) = length recs.
Proof.
  rewrite <- (length_map id), applyUpdates_ids, length_map. reflexivity.
Qed.

Lemma recordRecommendation_within (now : time) (rec : Recommendation)
    (data : PerformanceData) :
  withinCaps data -> withinCaps (recordRecommendation now rec data).
Proof.
  intros [H1 [H2 H3]]. split; [|split; assumption].
  apply (pushCapped_within _ 200 (recommendations data)). exact H1.
Qed.

Lemma recordWeeklyScore_within (score : WeeklyScore) (data : PerformanceData) :
  withinCaps data -> withinCaps (recordWeeklyScore score data).
Proof.
  intros [H1 [H2 H3]]. split; [assumption|]. split; [|assumption].
  apply (pushCapped_within _ 52 (weeklyScores data)). exact H2.
Qed.

Lemma addStrategyNote_within (now : time) (note : JsString.t)
    (data : PerformanceData) :
  withinCaps data -> withinCaps (addStrategyNote now note data).
Proof.
  intros [H1 [H2 H3]]. split; [assumption|]. split; [assumption|].
  apply (pushCapped_within _ 30 (strategyNotes data)). exact H3.
Qed.

Lemma batchUpdateOutcomes_within (clock : nat -> time)
    (updates : list Update) (data : PerformanceData) :
  withinCaps data -> withinCaps (batchUpdateOutcomes clock updates data).
Proof.
  intros [H1 [H2 H3]]. split; [|split; assumption].
  cbn [batchUpdateOutcomes setRecommendations recommendations].
  rewrite applyUpdates_length. exact H1.
Qed.

Lemma mark_within (data : PerformanceData) (a b : JsString.t) :
  withinCaps data ->
  withinCaps (mkPerformanceData (recommendations data) (weeklyScores data)
                (strategyNotes data) a b).
Proof. intros H. exact H. Qed.

Lemma nightlyReview_within (env : Run) (data : PerformanceData) :
  withinCaps data -> withinCaps (nightlyReview env data).
Proof.
  intros H. unfold nightlyReview.
  destruct (JsString.eqb _ _); [exact H|].
  destruct (getPendingReviews _ _); [exact H|].
  destruct (answer env) as [response|]; [|exact H].
  assert (H1 : withinCaps
                 (if Nat.ltb 0 (length (parseReviews response))
                  then batchUpdateOutcomes (updateClock env)
                         (parseReviews response) data
                  else data)).
  { destruct (Nat.ltb _ _); [apply batchUpdateOutcomes_within|]; exact H. }
  revert H1. generalize (if Nat.ltb 0 (length (parseReviews response))
                         then batchUpdateOutcomes (updateClock env)
                                (parseReviews response) data
                         else data).
  intros data1 H1.
  assert (H2 : withinCaps
                 match parseLesson response with
                 | Some l => addStrategyNote (noteTime env) l data1
                 | None => data1
                 end).
  { destruct (parseLesson response); [apply addStrategyNote_within|]; exact H1. }
  destruct (delivered env); exact H2.
Qed.

Lemma weeklyReview_within (env : Run) (data : PerformanceData) :
  withinCaps data -> withinCaps (weeklyReview env data).
Proof.
  intros H. unfold weeklyReview.
  destruct (JsString.eqb _ _); [exact H|].
  destruct (Nat.ltb _ 2); [exact H|].
  destruct (answer env); [|exact H].
  destruct (delivered env);
    apply (recordWeeklyScore_within _ data H).
Qed.

Lemma perform_within (op : Op) (data : PerformanceData) :
  withinCaps data -> withinCaps (perform op data).
Proof.
  intros H. destruct op; cbn [perform].
  - apply recordRecommendation_within. exact H.
  - destruct H as [H1 [H2 H3]]. split; [|split; assumption].
    cbn [updateOutcome setRecommendations recommendations].
    rewrite applyUpdate_length. exact H1.
  - apply batchUpdateOutcomes_within. exact H.
  - apply recordWeeklyScore_within. exact H.
  - apply addStrategyNote_within. exact H.
  - exact H.
  - exact H.
  - apply nightlyReview_within. exact H.
  - apply weeklyReview_within. exact H.
Qed.

(** X8: Whatever the history of calls, reviews, scores, notes and marks that
    wrote it, starting from no file, the document holds at most 200
    recommendations, 52 weekly scores and 30 strategy notes. *)
Theorem ledger_stays_within_its_caps (ops : list Op) :
  withinCaps (after ops).
Proof.
  unfold after.
  assert (H : withinCaps defaultPerformance) by (repeat split; simpl; lia).
  revert H. generalize defaultPerformance.
  induction ops as [|op ops IH]; intros data H; simpl; [exact H|].
  apply IH. apply perform_within. exact H.
Qed.

End LedgerInvariants.
Section ReviewedCalls.
Import JsDate Performance Scheduler.
Local Open Scope Z_scope.

Lemma applyUpdate_calls (now : time) (u : Update)
    (recs : list Recommendation) :
  map theCall (applyUpdate now u recs) = map theCall recs.
Proof.
  induction recs as [|r recs IH]; simpl; [reflexivity|].
  destruct (JsString.eqb (id r) (updId u)); simpl; [reflexivity|].
  f_equal. exact IH.
Qed.

Lemma applyUpdates_calls (clock : nat -> time) (updates : list Update) :
  forall k recs,
    map theCall (applyUpdates clock k updates recs) = map theCall recs.
Proof.
  induction updates as [|u updates IH]; simpl; intros k recs; [reflexivity|].
  rewrite IH. apply applyUpdate_calls.
Qed.

Lemma nightlyReview_recommendations (env : Run) (data : PerformanceData) :
  recommendations (nightlyReview env data) = recommendations data
  \/ exists updates,
       recommendations (nightlyReview env data)
       = applyUpdates (updateClock env) 0 updates (recommendations data).
Proof.
  unfold nightlyReview.
  destruct (JsString.eqb _ _); [left; reflexivity|].
  destruct (getPendingReviews _ _); [left; reflexivity|].
  destruct (answer env) as [response|]; [|left; reflexivity].
  destruct (Nat.ltb 0 (length (parseReviews response)));
    [right; exists (parseReviews response)|left];
    destruct (parseLesson response); destruct (delivered env); reflexivity.
Qed.

(** X9: The reviews judge the calls and leave them as they were made: the
    nightly review keeps every entry in its place with its id, date,
    ticker, direction, confidence, type and summary, and keeps the weekly
    scores; the weekly review keeps the recommendations and the strategy
    notes as they are. *)
Theorem reviews_keep_the_calls (env : Run) (data : PerformanceData) :
  map theCall (recommendations (nightlyReview env data))
  = map theCall (recommendations data)
  /\ weeklyScores (nightlyReview env data) = weeklyScores data
  /\ recommendations (weeklyReview env data) = recommendations data
  /\ strategyNotes (weeklyReview env data) = strategyNotes data.
Proof.
  split; [|split; [|split]].
  - destruct (nightlyReview_recommendations env data) as [->|[us ->]];
      [reflexivity|apply applyUpdates_calls].
  - unfold nightlyReview.
    destruct (JsString.eqb _ _); [reflexivity|].
    destruct (getPendingReviews _ _); [reflexivity|].
    destruct (answer env) as [response|]; [|reflexivity].
    destruct (Nat.ltb 0 (length (parseReviews response)));
      destruct (parseLesson response); destruct (delivered env); reflexivity.
  - apply weeklyReview_recommendations.
  - unfold weeklyReview.
    destruct (JsString.eqb _ _); [reflexivity|].
    destruct (Nat.ltb _ 2); [reflexivity|].
    destruct (answer env); [|reflexivity].
    destruct (delivered env); reflexivity.
Qed.

Lemma applyUpdate_behind (now : time) (u : Update) :
  forall (recs : list Recommendation) (i j : nat) (ri rj : Recommendation),
    (i < j)%nat -> nth_error recs i = Some ri -> nth_error recs j = Some rj ->
    id ri = id rj ->
    nth_error (applyUpdate now u recs) j = Some rj
    /\ exists ri', nth_error (applyUpdate now u recs) i = Some ri'
                   /\ id ri' = id rj.
Proof.
  induction recs as [|r recs IH]; intros i j ri rj Hij Hi Hj Hid.
  - destruct i; discriminate.
  - destruct j as [|j]; [lia|]. cbn [applyUpdate].
    destruct (JsString.eqb (id r) (updId u)) eqn:E.
    + split; [exact Hj|].
      destruct i as [|i].
      * injection Hi as ->. exists (review now u ri). split; [reflexivity|].
        exact Hid.
      * exists ri. split; [exact Hi|exact Hid].
    + destruct i as [|i].
      * injection Hi as ->. cbn [nth_error] in Hj |- *.
        split.
        -- apply applyUpdate_nth_other; [exact Hj|].
           apply jseqb_neq in E. congruence.
        -- exists ri. split; [reflexivity|exact Hid].
      * cbn [nth_error] in Hi, Hj |- *.
        apply (IH i j ri rj); [lia|assumption..].
Qed.

Lemma applyUpdates_behind (clock : nat -> time) (updates : list Update) :
  forall (k : nat) (recs : list Recommendation) (i j : nat)
         (ri rj : Recommendation),
    (i < j)%nat -> nth_error recs i = Some ri -> nth_error recs j = Some rj ->
    id ri = id rj ->
    nth_error (applyUpdates clock k updates recs) j = Some rj.
Proof.
  induction updates as [|u updates IH]; intros k recs i j ri rj Hij Hi Hj Hid;
    cbn [applyUpdates]; [exact Hj|].
  destruct (applyUpdate_behind (clock k) u recs i j ri rj Hij Hi Hj Hid)
    as [Hj' [ri' [Hi' Hid']]].
  apply (IH (S k) _ i j ri' rj); assumption.
Qed.

(** X10: An update reaches the first entry with its id only. An entry that has
    its id in common with an entry before it, as two calls recorded within
    a millisecond for the same date and ticker have, is therefore left as
    it is by [updateOutcome], by [batchUpdateOutcomes] and by the nightly
    review, whatever the updates and the answer: while it is pending, it
    stays pending. *)
Theorem entry_behind_its_id_is_never_reviewed (data : PerformanceData)
    (i j : nat) (ri rj : Recommendation) :
  (i < j)%nat ->
  nth_error (recommendations data) i = Some ri ->
  nth_error (recommendations data) j = Some rj ->
  id ri = id rj ->
  (forall now i0 o notes,
     nth_error (recommendations (updateOutcome now i0 o notes data)) j
     = Some rj)
  /\ (forall clock updates,
        nth_error (recommendations (batchUpdateOutcomes clock updates data)) j
        = Some rj)
  /\ (forall env,
        nth_error (recommendations (nightlyReview env data)) j = Some rj).
Proof.
  intros Hij Hi Hj Hid. split; [|split].
  - intros now i0 o notes.
    cbn [updateOutcome setRecommendations recommendations].
    apply (applyUpdate_behind now _ _ i j ri rj); assumption.
  - intros clock updates.
    cbn [batchUpdateOutcomes setRecommendations recommendations].
    apply (applyUpdates_behind clock updates 0%nat _ i j ri rj); assumption.
  - intros env.
    destruct (nightlyReview_recommendations env data) as [->|[us ->]];
      [exact Hj|].
    apply (applyUpdates_behind _ us 0%nat _ i j ri rj); assumption.
Qed.

Lemma entry_behind_its_id_is_never_reviewed_witness :
  nth_error
    (recommendations
       (nightlyReview
          (Examples.runAt Examples.nightlyTime
             (js "REVIEW: [abc-1] | correct | good call"))
          (Examples.ledgerOf
             [Examples.call "abc-1" "2024-01-08" "NVDA" None;
              Examples.call "abc-1" "2024-01-08" "NVDA" None]))) 1
  = Some (Examples.call "abc-1" "2024-01-08" "NVDA" None).
Proof.
  apply (entry_behind_its_id_is_never_reviewed
           (Examples.ledgerOf
              [Examples.call "abc-1" "2024-01-08" "NVDA" None;
               Examples.call "abc-1" "2024-01-08" "NVDA" None])
           0%nat 1%nat
           (Examples.call "abc-1" "2024-01-08" "NVDA" None)
           (Examples.call "abc-1" "2024-01-08" "NVDA" None)).
  - lia.
  - reflexivity.
  - reflexivity.
  - reflexivity.
Defined.

End ReviewedCalls.
Section PendingAfterBatch.
Import JsDate Performance Scheduler.
Local Open Scope Z_scope.

Lemma applyUpdate_unique (now : time) (u : Update)
    (recs : list Recommendation) :
  NoDup (map id recs) ->
  applyUpdate now u recs
  = map (fun r => if JsString.eqb (id r) (updId u) then review now u r else r)
      recs.
Proof.
  induction recs as [|r recs IH]; intros Hnd; [reflexivity|].
  cbn [applyUpdate map]. inversion Hnd as [|? ? Hnot Hnd']. subst.
  destruct (JsString.eqb (id r) (updId u)) eqn:E.
  - f_equal. apply jseqb_eq in E.
    rewrite <- (map_id recs) at 1. apply map_ext_in.
    intros r' Hr'.
    destruct (JsString.eqb (id r') (updId u)) eqn:E'; [|reflexivity].
    apply jseqb_eq in E'. exfalso. apply Hnot.
    rewrite E, <- E'. apply in_map. exact Hr'.
  - f_equal. apply IH. exact Hnd'.
Qed.

Lemma pending_after_update (now : time) (u : Update) (p : Recommendation -> bool)
    (recs : list Recommendation) :
  (forall r, p (review now u r) = p r) ->
  filter p
    (filter isPending
       (map (fun r => if JsString.eqb (id r) (updId u)
                      then review now u r else r) recs))
  = filter (fun r => negb (JsString.eqb (id r) (updId u)))
      (filter p (filter isPending recs)).
Proof.
  intros Hp. induction recs as [|r recs IH]; [reflexivity|].
  cbn [map filter].
  destruct (JsString.eqb (id r) (updId u)) eqn:E.
  - replace (isPending (review now u r)) with false
      by (unfold isPending, review; cbn; destruct (updOutcome u); reflexivity).
    rewrite IH.
    destruct (isPending r); [|reflexivity].
    cbn [filter]. destruct (p r); [|reflexivity].
    cbn [filter]. rewrite E. reflexivity.
  - destruct (isPending r); [|exact IH].
    cbn [filter]. destruct (p r); [|exact IH].
    cbn [filter]. rewrite E. cbn [negb]. f_equal. exact IH.
Qed.

Lemma filter_twice (A : Type) (f g : A -> bool) (l : list A) :
  filter f (filter g l) = filter (fun x => g x && f x) l.
Proof.
  induction l as [|x l IH]; [reflexivity|].
  cbn [filter]. destruct (g x); cbn [filter andb]; [|exact IH].
  destruct (f x); [f_equal|]; exact IH.
Qed.

Lemma pending_after_updates (clock : nat -> time) (p : Recommendation -> bool)
    (updates : list Update) :
  (forall now u r, p (review now u r) = p r) ->
  forall (k : nat) (recs : list Recommendation),
    NoDup (map id recs) ->
    filter p (filter isPending (applyUpdates clock k updates recs))
    = filter (fun r => negb (named updates r))
        (filter p (filter isPending recs)).
Proof.
  intros Hp.
  induction updates as [|u updates IH]; intros k recs Hnd.
  - cbn [applyUpdates]. symmetry.
    rewrite <- (filter_ext (fun _ => true)) by reflexivity.
    generalize (filter p (filter isPending recs)). intros l.
    induction l as [|x l IHl]; [reflexivity|]. cbn [filter]. f_equal. exact IHl.
  - cbn [applyUpdates].
    rewrite IH by (rewrite applyUpdate_ids; exact Hnd).
    rewrite applyUpdate_unique by exact Hnd.
    rewrite pending_after_update by (intros r; apply Hp).
    rewrite filter_twice. apply filter_ext.
    intros r. unfold named. cbn [existsb].
    rewrite negb_orb. reflexivity.
Qed.

(** X11: In a ledger whose ids differ, a batch of updates takes exactly the
    entries it names off the list of pending reviews: what is pending
    after the batch is what was pending before it and is named by no
    update, each entry as it was and in the order it had. *)
Theorem batchUpdateOutcomes_clears_the_named (now : time)
    (clock : nat -> time) (updates : list Update) (data : PerformanceData) :
  NoDup (map id (recommendations data)) ->
  getPendingReviews now (batchUpdateOutcomes clock updates data)
  = filter (fun r => negb (named updates r)) (getPendingReviews now data).
Proof.
  intros Hnd. unfold getPendingReviews.
  cbn [batchUpdateOutcomes setRecommendations recommendations].
  apply pending_after_updates; [|exact Hnd].
  intros t u r. reflexivity.
Qed.

Lemma batchUpdateOutcomes_clears_the_named_witness :
  getPendingReviews Examples.nightlyTime
    (batchUpdateOutcomes (fun _ => Examples.nightlyTime)
       [mkUpdate (js "abc-1") Correct (js "good call")] Examples.twoPending)
  = filter
      (fun r => negb (named [mkUpdate (js "abc-1") Correct (js "good call")] r))
      (getPendingReviews Examples.nightlyTime Examples.twoPending).
Proof.
  apply (batchUpdateOutcomes_clears_the_named Examples.nightlyTime
           (fun _ => Examples.nightlyTime)
           [mkUpdate (js "abc-1") Correct (js "good call")]
           Examples.twoPending).
  vm_compute. repeat constructor; simpl; intuition discriminate.
Defined.

End PendingAfterBatch.

(* ================================================================== *)
(** ** brain-manager.ts: pruning, consolidation and maintenance *)
(* ================================================================== *)

Section Pruning.
Import JsDate BrainManager.
Local Open Scope Z_scope.

Lemma jseqb_comm (a b : JsString.t) : JsString.eqb a b = JsString.eqb b a.
Proof.
  destruct (JsString.eqb a b) eqn:E.
  - apply jseqb_eq in E. subst. symmetry. apply jseqb_refl.
  - symmetry. apply jseqb_neq. apply jseqb_neq in E. congruence.
Qed.

Lemma Permutation_filter (A : Type) (p : A -> bool) (l l' : list A) :
  Permutation l l' -> Permutation (filter p l) (filter p l').
Proof.
  induction 1 as [|x l l' _ IH|x y l|l l' l'' _ IH1 _ IH2]; cbn [filter].
  - constructor.
  - destruct (p x); [constructor|]; exact IH.
  - destruct (p x), (p y); try reflexivity. apply perm_swap.
  - etransitivity; eassumption.
Qed.

Lemma getBrainFiles_names_NoDup (dir : Dir) :
  NoDup (map name dir) -> NoDup (map name (getBrainFiles dir)).
Proof.
  intros H. unfold getBrainFiles.
  eapply Permutation_NoDup;
    [apply Permutation_map; symmetry; apply sortByMtime_perm|].
  apply NoDup_names_filter. exact H.
Qed.

Lemma filter_all (A : Type) (p : A -> bool) (l : list A) :
  (forall x, p x = true) -> filter p l = l.
Proof.
  intros H. induction l as [|x l IH]; [reflexivity|].
  cbn [filter]. rewrite H, IH. reflexivity.
Qed.

Lemma pruneFiles_spec (w : time) :
  forall (files : list File) (dir : Dir) (n : Z),
    NoDup (map name dir) -> NoDup (map name files) ->
    (forall f, In f files -> In f dir) ->
    pruneFiles w files dir n
    = (filter
         (fun g => negb (existsb (fun f => JsString.eqb (name f) (name g))
                           (filter (aim w) files))) dir,
       n + Z.of_nat (length (filter (aim w) files))).
Proof.
  induction files as [|f files IH]; intros dir n Hnd Hnf Hin.
  - cbn [pruneFiles filter length existsb].
    rewrite filter_all by reflexivity. rewrite Z.add_0_r. reflexivity.
  - inversion Hnf as [|? ? Hf Hnf']. subst.
    assert (Hin' : forall f', In f' files -> In f' dir)
      by (intros; apply Hin; simpl; tauto).
    cbn [pruneFiles filter].
    assert (Haim : aim w f
                   = negb (w <=? mtime f) && isAnalysis (name f) && removable f)
      by reflexivity.
    destruct (w <=? mtime f); cbn [negb andb] in Haim |- *;
      [rewrite Haim; apply IH; assumption|].
    destruct (isAnalysis (name f)); cbn [negb andb] in Haim |- *;
      [|rewrite Haim; apply IH; assumption].
    unfold unlinkSync.
    rewrite lookup_In by (auto; apply Hin; simpl; tauto).
    destruct (removable f); rewrite Haim; [|apply IH; assumption].
    rewrite IH.
    + rewrite filter_twice. cbn [length existsb]. f_equal; [|lia].
      apply filter_ext. intros g.
      rewrite negb_orb, (jseqb_comm (name f) (name g)). reflexivity.
    + apply NoDup_names_filter. exact Hnd.
    + exact Hnf'.
    + intros f' Hf'. apply filter_In. split; [auto|].
      apply negb_true_iff. apply jseqb_neq. intros E.
      apply Hf. rewrite <- E. apply in_map. exact Hf'.
Qed.

(** What [pruneOldAnalyses] leaves of a directory, where names are unique,
    and what it returns. *)
Lemma pruneOldAnalyses_spec (now : time) (dir : Dir) :
  NoDup (map name dir) ->
  pruneOldAnalyses now dir
  = (filter (fun f => negb (prunable now f)) dir,
     Z.of_nat (length (filter (prunable now) dir))).
Proof.
  intros Hnd. unfold pruneOldAnalyses.
  rewrite pruneFiles_spec;
    [|exact Hnd|apply getBrainFiles_names_NoDup; exact Hnd
     |intros f Hf; apply getBrainFiles_In in Hf; tauto].
  set (w := now - 30 * 24 * 60 * 60 * 1000).
  f_equal.
  - apply filter_ext_in. intros g Hg. f_equal.
    destruct (prunable now g) eqn:Ep.
    + apply existsb_exists. exists g. split; [|apply jseqb_refl].
      unfold prunable in Ep. fold w in Ep.
      apply andb_prop in Ep. destruct Ep as [Ep Hr].
      apply andb_prop in Ep. destruct Ep as [Ep Ha].
      apply andb_prop in Ep. destruct Ep as [Hmd Hold].
      apply filter_In. split; [apply getBrainFiles_In; tauto|].
      unfold aim. rewrite Hold, Ha, Hr. reflexivity.
    + apply not_true_is_false. intros Hex.
      apply existsb_exists in Hex. destruct Hex as [f [Hf E]].
      apply jseqb_eq in E. apply filter_In in Hf. destruct Hf as [Hf Haim].
      apply getBrainFiles_In in Hf. destruct Hf as [Hf Hmd].
      assert (f = g) by (apply (names_inj dir); assumption). subst f.
      unfold prunable in Ep. fold w in Ep. unfold aim in Haim.
      rewrite Hmd in Ep. cbn [andb] in Ep. congruence.
  - simpl. f_equal.
    unfold getBrainFiles.
    rewrite (Permutation_length
               (Permutation_filter _ (aim w) _ _ (sortByMtime_perm _))).
    rewrite filter_twice. f_equal. apply filter_ext. intros f.
    unfold prunable, aim. fold w. rewrite !andb_assoc. reflexivity.
Qed.

(** X12: In a directory, where names are unique, [pruneOldAnalyses] removes the
    files named [analysis-], [options-] or [sentiment-] and [.md] that were
    last modified more than thirty days before the clock reading and can
    be removed, and no other file; what remains is as it was and in its
    order; the number returned is the number of files removed; and a second
    run at the same clock reading removes nothing. *)
Theorem pruneOldAnalyses_removes_the_old_analyses (now : time) (dir : Dir) :
  NoDup (map name dir) ->
  let dir' := fst (pruneOldAnalyses now dir) in
  dir' = filter (fun f => negb (prunable now f)) dir
  /\ snd (pruneOldAnalyses now dir)
     = Z.of_nat (length dir) - Z.of_nat (length dir')
  /\ pruneOldAnalyses now dir' = (dir', 0).
Proof.
  intros Hnd. cbv zeta. rewrite pruneOldAnalyses_spec by exact Hnd.
  cbn [fst snd]. split; [reflexivity|]. split.
  - pose proof (filter_length (prunable now) dir). lia.
  - rewrite pruneOldAnalyses_spec by (apply NoDup_names_filter; exact Hnd).
    assert (Hnone : filter (prunable now)
                      (filter (fun f => negb (prunable now f)) dir) = []).
    { rewrite filter_twice.
      induction dir as [|f dir IH]; [reflexivity|]. cbn [filter].
      destruct (prunable now f); cbn [negb andb]; apply IH;
        inversion Hnd; assumption. }
    rewrite Hnone. f_equal.
    rewrite filter_twice. apply filter_ext. intros f. apply andb_diag.
Qed.

Lemma pruneOldAnalyses_removes_the_old_analyses_witness :
  let dir := Examples.twoDailies
             ++ [Examples.daily "analysis-NVDA-2023-11-01.md" "# NVDA"
                   1698845400000] in
  let dir' := fst (pruneOldAnalyses Examples.maintenanceTime dir) in
  dir' = filter (fun f => negb (prunable Examples.maintenanceTime f)) dir
  /\ snd (pruneOldAnalyses Examples.maintenanceTime dir)
     = Z.of_nat (length dir) - Z.of_nat (length dir')
  /\ pruneOldAnalyses Examples.maintenanceTime dir' = (dir', 0).
Proof.
  apply (pruneOldAnalyses_removes_the_old_analyses Examples.maintenanceTime
           (Examples.twoDailies
              ++ [Examples.daily "analysis-NVDA-2023-11-01.md" "# NVDA"
                    1698845400000])).
  vm_compute. repeat constructor; simpl; intuition discriminate.
Defined.

End Pruning.
Section SafeConsolidation.
Import JsDate BrainManager.
Local Open Scope Z_scope.

Lemma unlink_length (dir : Dir) (f : File) :
  NoDup (map name dir) -> In f dir ->
  (length (filter (fun g => negb (JsString.eqb (name g) (name f))) dir) + 1
   = length dir)%nat.
Proof.
  induction dir as [|g dir IH]; intros Hnd Hin; [contradiction|].
  inversion Hnd as [|? ? Hg Hnd']. subst. cbn [filter length].
  destruct Hin as [->|Hin].
  - rewrite jseqb_refl. cbn [negb].
    rewrite forallb_filter_id; [lia|].
    apply forallb_forall.
    intros h Hh. apply negb_true_iff. apply jseqb_neq. intros E.
    apply Hg. rewrite <- E. apply in_map. exact Hh.
  - replace (JsString.eqb (name g) (name f)) with false.
    + cbn [negb length]. rewrite <- (IH Hnd' Hin). lia.
    + symmetry. apply jseqb_neq. intros E. apply Hg. rewrite E.
      apply in_map. exact Hin.
Qed.

Lemma lookup_Some (dir : Dir) (n : JsString.t) (f : File) :
  lookup dir n = Some f -> In f dir /\ name f = n.
Proof.
  unfold lookup. intros H. apply find_some in H.
  destruct H as [H E]. apply jseqb_eq in E. tauto.
Qed.

(** Each entry whose file is removed shortens the directory by one file
    and adds one to the count. *)
Lemma deleteEntries_counts (entries : list Entry) :
  forall dir n dir' n',
    NoDup (map name dir) ->
    deleteEntries entries dir n = (dir', n') ->
    Z.of_nat (length dir') + n' = Z.of_nat (length dir) + n.
Proof.
  induction entries as [|e entries IH]; intros dir n dir' n' Hnd H.
  - simpl in H. injection H as <- <-. reflexivity.
  - simpl in H. destruct (unlinkSync dir (entryName e)) as [d1|] eqn:Eu.
    + pose proof (unlinkSync_spec _ _ _ Eu) as Hd1.
      unfold unlinkSync in Eu.
      destruct (lookup dir (entryName e)) as [f|] eqn:El; [|discriminate].
      destruct (lookup_Some _ _ _ El) as [Hf Hn].
      assert (Hnd1 : NoDup (map name d1))
        by (subst d1; apply NoDup_names_filter; exact Hnd).
      rewrite (IH _ _ _ _ Hnd1 H).
      pose proof (unlink_length dir f Hnd Hf) as Hlen.
      rewrite Hn in Hlen. rewrite <- Hd1 in Hlen. lia.
    + apply (IH _ _ _ _ Hnd H).
Qed.

Lemma entry_name_dec (n : JsString.t) (es : list Entry) :
  {In n (map entryName es)} + {~ In n (map entryName es)}.
Proof. apply in_dec. apply list_eq_dec. apply N.eq_dec. Defined.

(** The second loop, from a directory [dir] to [dir'], where names are
    unique: a file of [dir'] is a file of [dir], as it was, or the summary
    of a group; a file of [dir] is in [dir'] or is named by a group whose
    summary, written in this run, is in [dir']; and the counts account for
    the files added and removed. *)
Lemma writeSummaries_safe (now : time) (g : Groups) :
  (forall k es e, In (k, es) g -> In e es -> isDaily (entryName e) = true) ->
  forall dir c dir' c',
    NoDup (map name dir) ->
    writeSummaries now g dir c = (dir', c') ->
    (forall f, In f dir' ->
       In f dir \/ exists k es, In (k, es) g /\ f = summaryFile now k es)
    /\ (forall f, In f dir ->
          In f dir'
          \/ exists k es, In (k, es) g /\ In (name f) (map entryName es)
                          /\ In (summaryFile now k es) dir')
    /\ Z.of_nat (length dir') + deleted c' + consolidated c
       = Z.of_nat (length dir) + deleted c + consolidated c'
    /\ consolidated c <= consolidated c'
    /\ (consolidated c' = consolidated c -> dir' = dir).
Proof.
  induction g as [|[k0 es0] g IH]; intros Hd dir c dir' c' Hnd H.
  - simpl in H. injection H as <- <-.
    repeat split; try tauto; lia.
  - assert (Hd' : forall k es e, In (k, es) g -> In e es ->
                    isDaily (entryName e) = true).
    { intros k es e Hin. apply (Hd k es e). simpl. tauto. }
    assert (Hskip : writeSummaries now g dir c = (dir', c') ->
      (forall f, In f dir' ->
         In f dir
         \/ exists k es, In (k, es) ((k0, es0) :: g)
                         /\ f = summaryFile now k es)
      /\ (forall f, In f dir ->
            In f dir'
            \/ exists k es, In (k, es) ((k0, es0) :: g)
                            /\ In (name f) (map entryName es)
                            /\ In (summaryFile now k es) dir')
      /\ Z.of_nat (length dir') + deleted c' + consolidated c
         = Z.of_nat (length dir) + deleted c + consolidated c'
      /\ consolidated c <= consolidated c'
      /\ (consolidated c' = consolidated c -> dir' = dir)).
    { intros H'.
      destruct (IH Hd' _ _ _ _ Hnd H') as [H1 [H2 [H3 [H4 H5]]]].
      repeat split; try assumption; try lia.
      - intros f Hf. destruct (H1 f Hf) as [?|[k [es [Hin ->]]]]; [tauto|].
        right. exists k, es. simpl. tauto.
      - intros f Hf. destruct (H2 f Hf) as [?|[k [es [Hin Hrest]]]]; [tauto|].
        right. exists k, es. simpl. tauto. }
    simpl in H. destruct (Nat.ltb (length es0) 2); [apply Hskip; exact H|].
    destruct (existsSync dir (summaryName k0)) eqn:Eex;
      [apply Hskip; exact H|].
    clear Hskip.
    apply existsSync_false in Eex.
    unfold writeFileSync in H. rewrite overwrite_fresh in H by assumption.
    fold (summaryFile now k0 es0) in H.
    set (new := summaryFile now k0 es0) in *.
    destruct (deleteEntries es0 (dir ++ [new]) (deleted c)) as [d2 n2] eqn:Ed.
    assert (Hnd1 : NoDup (map name (dir ++ [new]))).
    { rewrite map_app. simpl.
      apply NoDup_app; [assumption | repeat constructor; simpl; tauto |].
      intros x Hx [<-|[]]. tauto. }
    destruct (deleteEntries_spec _ _ _ _ _ Ed) as [D1 [D2 D3]].
    pose proof (deleteEntries_counts _ _ _ _ _ Hnd1 Ed) as Dc.
    rewrite length_app in Dc. cbn [length] in Dc.
    destruct (IH Hd' _ _ _ _ (D3 Hnd1) H) as [H1 [H2 [H3 [H4 H5]]]].
    cbn [consolidated deleted] in H3, H4, H5.
    assert (Hnew : In new dir').
    { assert (Hin2 : In new d2).
      { apply D2; [apply in_or_app; right; simpl; tauto|].
        simpl. intros Hin. apply in_map_iff in Hin.
        destruct Hin as [e [He Hin]].
        pose proof (Hd k0 es0 e ltac:(simpl; tauto) Hin) as Hdaily.
        rewrite He, summaryName_not_daily in Hdaily. discriminate. }
      destruct (H2 new Hin2) as [?|[k [es [Hin [Hname _]]]]]; [assumption|].
      exfalso. apply in_map_iff in Hname. destruct Hname as [e [He Hin']].
      pose proof (Hd' k es e Hin Hin') as Hdaily.
      simpl in He. rewrite He, summaryName_not_daily in Hdaily.
      discriminate. }
    repeat split.
    + intros f Hf. destruct (H1 f Hf) as [Hf'|[k [es [Hin ->]]]].
      * apply D1 in Hf'. apply in_app_or in Hf'.
        destruct Hf' as [?|[<-|[]]]; [tauto|].
        right. exists k0, es0. simpl. tauto.
      * right. exists k, es. simpl. tauto.
    + intros f Hf.
      destruct (entry_name_dec (name f) es0) as [Hnamed|Hfree].
      * right. exists k0, es0. simpl. tauto.
      * assert (Hf2 : In f d2)
          by (apply D2; [apply in_or_app; tauto|exact Hfree]).
        destruct (H2 f Hf2) as [?|[k [es [Hin Hrest]]]]; [tauto|].
        right. exists k, es. simpl. tauto.
    + lia.
    + lia.
    + intros E. lia.
Qed.

End SafeConsolidation.
Section SafeMaintenance.
Import JsDate BrainManager.
Local Open Scope Z_scope.

(** What consolidation does to a directory, where names are unique. *)
Lemma consolidateOldFiles_safe (now : time) (dir : Dir) :
  NoDup (map name dir) ->
  let dir' := fst (consolidateOldFiles now dir) in
  (forall f, In f dir' -> In f dir \/ exists k es, f = summaryFile now k es)
  /\ (forall f, In f dir ->
        In f dir'
        \/ (oldDaily now f = true /\ readable f = true
            /\ exists k es, In (name f, content f) es
                            /\ In (summaryFile now k es) dir'))
  /\ NoDup (map name dir')
  /\ match snd (consolidateOldFiles now dir) with
     | Some c =>
         Z.of_nat (length dir')
         = Z.of_nat (length dir) + consolidated c - deleted c
         /\ 0 <= consolidated c
         /\ (consolidated c = 0 -> dir' = dir)
     | None => dir' = dir
     end.
Proof.
  intros Hnd. cbv zeta. rewrite consolidateOldFiles_unfold.
  set (w := now - 7 * 24 * 60 * 60 * 1000).
  destruct (groupFiles w dir (getBrainFiles dir) []) as [g|] eqn:Hg;
    cbn [fst snd]; [|repeat split; tauto].
  pose proof (groups_entries_daily w dir g Hnd Hg) as Hdaily.
  destruct (groups_of_directory w dir g Hnd Hg) as [_ [Hes _]].
  destruct (writeSummaries now g dir (mkCounts 0 0)) as [dir' c] eqn:Hw.
  destruct (writeSummaries_safe now g Hdaily _ _ _ _ Hnd Hw)
    as [H1 [H2 [H3 [H4 H5]]]].
  destruct (writeSummaries_spec now g Hdaily _ _ _ _ Hw) as [_ [Hnd' _]].
  cbn [fst snd consolidated deleted] in *.
  split; [|split; [|split; [exact (Hnd' Hnd)|]]].
  - intros f Hf. destruct (H1 f Hf) as [?|[k [es [_ ->]]]]; [tauto|].
    right. exists k, es. reflexivity.
  - intros f Hf. destruct (H2 f Hf) as [?|[k [es [Hin [Hname Hsum]]]]];
      [tauto|].
    right. rewrite (Hes k es Hin) in Hname.
    rewrite map_map in Hname. cbn [entryName fst] in Hname.
    apply in_map_iff in Hname. destruct Hname as [f' [En Hf']].
    apply filter_In in Hf'. destruct Hf' as [Hf' Hm].
    apply getBrainFiles_In in Hf'. destruct Hf' as [Hf' Hmd].
    assert (f' = f) by (apply (names_inj dir); assumption). subst f'.
    unfold isMember in Hm.
    destruct (classOf w f) as [| |k'] eqn:Ec; try discriminate.
    apply andb_prop in Hm. destruct Hm as [Ek Hr].
    destruct (classOf_daily w f k' Ec) as [Hd Hold].
    split; [|split; [exact Hr|]].
    + unfold oldDaily. fold w. rewrite Hmd, Hold, Hd. reflexivity.
    + exists k, es. split; [|exact Hsum].
      rewrite (Hes k es Hin). apply in_map_iff. exists f.
      split; [reflexivity|].
      apply filter_In. split; [apply getBrainFiles_In; tauto|].
      unfold isMember. rewrite Ec, Ek, Hr. reflexivity.
  - split; [lia|]. split; [lia|]. intros E. apply H5. lia.
Qed.

Lemma join_In (sep p : JsString.t) (parts : list JsString.t) :
  In p parts ->
  exists a b, JsString.join sep parts = a ++ p ++ b
              /\ (b = [] \/ exists b', b = sep ++ b').
Proof.
  induction parts as [|q parts IH]; intros Hin; [contradiction|].
  destruct Hin as [->|Hin].
  - destruct parts as [|q' parts]; cbn [JsString.join].
    + exists [], []. rewrite app_nil_r. split; [reflexivity | tauto].
    + exists [], (sep ++ JsString.join sep (q' :: parts)).
      split; [reflexivity|]. right. eexists. reflexivity.
  - destruct (IH Hin) as [a [b [E Hb]]].
    destruct parts as [|q' parts]; [contradiction|].
    cbn [JsString.join] in E |- *.
    exists (q ++ sep ++ a), b. rewrite E, <- !app_assoc.
    split; [reflexivity | exact Hb].
Qed.

Lemma toWellFormed_cons (c : N) (rest : JsString.t) :
  JsString.toWellFormed (c :: rest)
  = if JsString.isLeadSurrogate c then
      match rest with
      | d :: rest' =>
          if JsString.isTrailSurrogate d
          then c :: d :: JsString.toWellFormed rest'
          else 65533%N :: JsString.toWellFormed rest
      | [] => [65533%N]
      end
    else if JsString.isTrailSurrogate c
    then 65533%N :: JsString.toWellFormed rest
    else c :: JsString.toWellFormed rest.
Proof. reflexivity. Qed.

(** Encoding goes through a text piece by piece wherever a piece does not
    begin with the trailing half of a pair. *)
Lemma toWellFormed_app (a b : JsString.t) :
  match b with
  | [] => True
  | d :: _ => JsString.isTrailSurrogate d = false
  end ->
  JsString.toWellFormed (a ++ b)
  = JsString.toWellFormed a ++ JsString.toWellFormed b.
Proof.
  intros Hb. remember (length a) as n eqn:Hn. revert a Hn.
  induction n as [n IH] using lt_wf_ind. intros a Hn.
  destruct a as [|c a]; [reflexivity|].
  cbn [app length] in *. rewrite !toWellFormed_cons.
  destruct (JsString.isLeadSurrogate c).
  - destruct a as [|d a]; cbn [app length] in *.
    + destruct b as [|d b]; [reflexivity|]. rewrite Hb. reflexivity.
    + destruct (JsString.isTrailSurrogate d); cbn [app].
      * do 2 f_equal. apply (IH (length a)); [lia | reflexivity].
      * f_equal. change (d :: a ++ b) with ((d :: a) ++ b).
        apply (IH (length (d :: a))); [cbn [length]; lia | reflexivity].
  - destruct (JsString.isTrailSurrogate c); cbn [app]; f_equal;
      apply (IH (length a)); try lia; reflexivity.
Qed.

Lemma summaryText_holds (k : JsString.t) (es : list Entry) (f : File) :
  In (name f, content f) es ->
  exists a b,
    JsString.toWellFormed (summaryText k es)
    = a ++ JsString.toWellFormed (summaryBlock f) ++ b.
Proof.
  intros Hin.
  destruct (join_In (nl ++ nl) (summaryBlock f)
              ((js "# Weekly Summary " ++ [8212%N] ++ js " Week of " ++ k)
               :: (js "*Consolidated from "
                     ++ JsString.toString10 (Z.of_nat (length es))
                     ++ js " daily files*" ++ nl)
               :: map (fun e => js "---" ++ nl ++ js "### " ++ entryName e
                                  ++ nl ++ JsString.slice0 500 (entryContent e))
                    es))
    as [a [b [E Hb]]].
  { right. right. apply in_map_iff. exists (name f, content f).
    split; [reflexivity | exact Hin]. }
  exists (JsString.toWellFormed a), (JsString.toWellFormed b).
  unfold summaryText. rewrite E.
  rewrite (toWellFormed_app a); [|reflexivity].
  rewrite (toWellFormed_app (summaryBlock f)); [reflexivity|].
  destruct Hb as [->|[b' ->]]; [exact I | reflexivity].
Qed.

(** X13: In a directory, where names are unique, consolidation removes a
    file only behind a summary that holds it: every file the directory had
    is still there, as it was, or it is one of the [.md] files of the daily
    kinds, older than seven days and readable, and a summary written in
    this run, which is there, holds its name and the first 500 code units
    of its content as the UTF-8 file carries them: a lone surrogate, which
    the cut at 500 leaves when it falls inside a pair, is there as U+FFFD.
    What is new is summaries; the directory grows by the summaries written
    and shrinks by the files deleted, as the counts say; without a summary
    written, and when the run throws, nothing changes. *)
Theorem consolidateOldFiles_summarises_what_it_removes (now : time)
    (dir : Dir) :
  NoDup (map name dir) ->
  let dir' := fst (consolidateOldFiles now dir) in
  (forall f, In f dir' -> In f dir \/ exists k es, f = summaryFile now k es)
  /\ (forall f, In f dir ->
        In f dir'
        \/ (oldDaily now f = true /\ readable f = true
            /\ exists k es a b,
                 In (summaryFile now k es) dir'
                 /\ content (summaryFile now k es)
                    = a ++ JsString.toWellFormed (summaryBlock f) ++ b))
  /\ match snd (consolidateOldFiles now dir) with
     | Some c =>
         Z.of_nat (length dir')
         = Z.of_nat (length dir) + consolidated c - deleted c
         /\ 0 <= consolidated c
         /\ (consolidated c = 0 -> dir' = dir)
     | None => dir' = dir
     end.
Proof.
  intros Hnd.
  destruct (consolidateOldFiles_safe now dir Hnd) as [H1 [H2 [_ H3]]].
  cbv zeta. split; [exact H1|]. split; [|exact H3].
  intros f Hf.
  destruct (H2 f Hf) as [?|[Hold [Hr [k [es [Hin Hsum]]]]]]; [tauto|].
  right. split; [exact Hold|]. split; [exact Hr|].
  destruct (summaryText_holds k es f Hin) as [a [b E]].
  exists k, es, a, b. split; assumption.
Qed.

Lemma consolidateOldFiles_summarises_what_it_removes_witness :
  let dir' :=
    fst (consolidateOldFiles Examples.maintenanceTime Examples.threeDailies) in
  (forall f, In f dir' ->
     In f Examples.threeDailies
     \/ exists k es, f = summaryFile Examples.maintenanceTime k es)
  /\ (forall f, In f Examples.threeDailies ->
        In f dir'
        \/ (oldDaily Examples.maintenanceTime f = true /\ readable f = true
            /\ exists k es a b,
                 In (summaryFile Examples.maintenanceTime k es) dir'
                 /\ content (summaryFile Examples.maintenanceTime k es)
                    = a ++ JsString.toWellFormed (summaryBlock f) ++ b))
  /\ match
       snd (consolidateOldFiles Examples.maintenanceTime Examples.threeDailies)
     with
     | Some c =>
         Z.of_nat (length dir')
         = Z.of_nat (length Examples.threeDailies) + consolidated c - deleted c
         /\ 0 <= consolidated c
         /\ (consolidated c = 0 -> dir' = Examples.threeDailies)
     | None => dir' = Examples.threeDailies
     end.
Proof.
  apply (consolidateOldFiles_summarises_what_it_removes
           Examples.maintenanceTime Examples.threeDailies).
  vm_compute. repeat constructor; simpl; intuition discriminate.
Defined.

(** X14: The maintenance of the brain directory, where names are unique, keeps
    every file that is not an [.md] file, every file of another kind than
    the daily and the analysis kinds, every daily file modified within the
    seven days before the consolidation and every analysis file modified
    within the thirty days before the pruning: such a file is in the
    directory afterwards as it was. When consolidation throws, the
    directory is left as it was and nothing is pruned. *)
Theorem runBrainMaintenance_keeps_the_recent (now1 now2 : time) (dir : Dir)
    (f : File) :
  NoDup (map name dir) -> In f dir ->
  oldDaily now1 f = false -> prunable now2 f = false ->
  In f (fst (runBrainMaintenance now1 now2 dir))
  /\ (snd (runBrainMaintenance now1 now2 dir) = false ->
      fst (runBrainMaintenance now1 now2 dir) = dir).
Proof.
  intros Hnd Hf Hdaily Hprune.
  destruct (consolidateOldFiles_safe now1 dir Hnd) as [_ [H2 [Hnd' H3]]].
  unfold runBrainMaintenance.
  destruct (consolidateOldFiles now1 dir) as [dir1 [c|]];
    cbn [fst snd] in *.
  - split; [|discriminate].
    rewrite pruneOldAnalyses_spec by exact Hnd'. cbn [fst].
    apply filter_In. split.
    + destruct (H2 f Hf) as [?|[Hold _]]; [assumption|congruence].
    + rewrite Hprune. reflexivity.
  - split; [|intros _; exact H3]. rewrite H3. exact Hf.
Qed.

Lemma runBrainMaintenance_keeps_the_recent_witness :
  let dir :=
    Examples.threeDailies
      ++ [Examples.daily "morning-brief-2024-01-19.md" "# Morning Brief"
            1705671000000] in
  In (Examples.daily "morning-brief-2024-01-19.md" "# Morning Brief"
        1705671000000)
     (fst (runBrainMaintenance Examples.maintenanceTime
             Examples.maintenanceTime dir))
  /\ (snd (runBrainMaintenance Examples.maintenanceTime
             Examples.maintenanceTime dir) = false ->
      fst (runBrainMaintenance Examples.maintenanceTime
             Examples.maintenanceTime dir) = dir).
Proof.
  apply (runBrainMaintenance_keeps_the_recent Examples.maintenanceTime
           Examples.maintenanceTime
           (Examples.threeDailies
              ++ [Examples.daily "morning-brief-2024-01-19.md"
                    "# Morning Brief" 1705671000000])
           (Examples.daily "morning-brief-2024-01-19.md" "# Morning Brief"
              1705671000000)).
  - vm_compute. repeat constructor; simpl; intuition discriminate.
  - simpl. tauto.
  - vm_compute. reflexivity.
  - vm_compute. reflexivity.
Defined.

End SafeMaintenance.
Section Statistics.
Import JsDate BrainManager.
Local Open Scope Z_scope.

Lemma insertByMtime_In (f g : File) (l : list File) :
  In g (insertByMtime f l) <-> g = f \/ In g l.
Proof.
  split; intros H.
  - apply (Permutation_in _ (insertByMtime_perm f l)) in H.
    destruct H as [<-|H]; tauto.
  - apply (Permutation_in _ (Permutation_sym (insertByMtime_perm f l))).
    destruct H as [->|H]; simpl; tauto.
Qed.

Lemma insertByMtime_ascending (f : File) (l : list File) :
  ascending l -> ascending (insertByMtime f l).
Proof.
  induction l as [|g l IH]; intros H.
  - simpl. tauto.
  - cbn [insertByMtime]. destruct H as [Hg Hl].
    destruct (Z.leb_spec (mtime f) (mtime g)) as [Hle|Hgt].
    + split; [|split; assumption].
      intros h [<-|Hh]; [exact Hle|]. specialize (Hg h Hh). lia.
    + split; [|apply IH; exact Hl].
      intros h Hh. apply insertByMtime_In in Hh.
      destruct Hh as [->|Hh]; [lia|apply Hg; exact Hh].
Qed.

Lemma sortByMtime_ascending (l : list File) : ascending (sortByMtime l).
Proof.
  induction l as [|f l IH]; [exact I|].
  apply insertByMtime_ascending. exact IH.
Qed.

Lemma ascending_last (l : list File) (f : File) :
  ascending l -> nth_error l (length l - 1) = Some f ->
  forall g, In g l -> mtime g <= mtime f.
Proof.
  induction l as [|h l IH]; intros Hasc Hn g Hg; [contradiction|].
  destruct Hasc as [Hh Hl].
  destruct l as [|h' l'].
  - simpl in Hn. injection Hn as <-. destruct Hg as [<-|[]]. lia.
  - assert (Hn' : nth_error (h' :: l') (length (h' :: l') - 1) = Some f).
    { cbn [length] in Hn |- *.
      replace (S (S (length l')) - 1)%nat with (S (length l')) in Hn by lia.
      replace (S (length l') - 1)%nat with (length l') by lia.
      exact Hn. }
    destruct Hg as [<-|Hg].
    + apply Hh. apply (nth_error_In _ _ Hn').
    + apply (IH Hl Hn' g Hg).
Qed.

Lemma sizeOf_fold (size : File -> Z) (l : list File) (n : Z) :
  fold_left (fun sum f => sum + size f) l n = n + sizeOf size l.
Proof.
  revert n. induction l as [|f l IH]; intros n; cbn [fold_left sizeOf];
    [lia|]. rewrite IH. lia.
Qed.

Lemma sizeOf_perm (size : File -> Z) (l l' : list File) :
  Permutation l l' -> sizeOf size l = sizeOf size l'.
Proof.
  induction 1; cbn [sizeOf]; lia.
Qed.

Lemma md_name_nonempty (f : File) :
  JsString.endsWith (name f) (js ".md") = true ->
  nameOrNone (Some f) = name f.
Proof.
  unfold nameOrNone. destruct (name f); [discriminate|reflexivity].
Qed.

(** X15: The statistics are those of the [.md] files of the directory: their
    number; the sum of their sizes; ['none'] twice when there is none; and
    otherwise the names of two of them, the oldest modified no later and
    the newest no earlier than any of them. *)
Theorem getBrainStats_of_the_markdown_files (size : File -> Z) (dir : Dir) :
  let stats := getBrainStats size dir in
  totalFiles stats = Z.of_nat (length (markdown dir))
  /\ totalSize stats = sizeOf size (markdown dir)
  /\ (markdown dir = [] ->
      oldestFile stats = js "none" /\ newestFile stats = js "none")
  /\ (markdown dir <> [] ->
      exists old new,
        In old (markdown dir) /\ In new (markdown dir)
        /\ oldestFile stats = name old /\ newestFile stats = name new
        /\ forall f, In f (markdown dir) ->
             mtime old <= mtime f <= mtime new).
Proof.
  cbv zeta. unfold getBrainStats, getBrainFiles. fold (markdown dir).
  cbn [totalFiles totalSize oldestFile newestFile].
  pose proof (sortByMtime_perm (markdown dir)) as Hperm.
  pose proof (sortByMtime_ascending (markdown dir)) as Hasc.
  split; [rewrite (Permutation_length Hperm); reflexivity|].
  split; [rewrite sizeOf_fold, (sizeOf_perm size _ _ Hperm); reflexivity|].
  split.
  - intros E. rewrite E. split; reflexivity.
  - intros Hne.
    assert (Hmd : forall f, In f (sortByMtime (markdown dir)) ->
              In f (markdown dir)
              /\ JsString.endsWith (name f) (js ".md") = true).
    { intros f Hf. apply (Permutation_in _ Hperm) in Hf.
      split; [exact Hf|]. apply filter_In in Hf. tauto. }
    destruct (sortByMtime (markdown dir)) as [|old rest] eqn:Es.
    { apply Permutation_nil in Hperm. congruence. }
    destruct (nth_error (old :: rest) (length (old :: rest) - 1))
      as [new|] eqn:En.
    2:{ apply nth_error_None in En. cbn [length] in En. lia. }
    exists old, new.
    destruct (Hmd old ltac:(simpl; tauto)) as [Hold Hmdo].
    destruct (Hmd new (nth_error_In _ _ En)) as [Hnew Hmdn].
    split; [exact Hold|]. split; [exact Hnew|].
    split; [cbn [nth_error]; apply md_name_nonempty; exact Hmdo|].
    split; [apply md_name_nonempty; exact Hmdn|].
    intros f Hf.
    apply (Permutation_in _ (Permutation_sym Hperm)) in Hf.
    split.
    + destruct Hf as [<-|Hf]; [lia|]. apply (proj1 Hasc). exact Hf.
    + apply (ascending_last _ _ Hasc En). exact Hf.
Qed.

End Statistics.

(* ================================================================== *)
(** ** performance.ts: the record handed to the prompt *)
(* ================================================================== *)

Section PromptContext.
Import JsDate Performance Scheduler PerformanceContext.
Local Open Scope Z_scope.

Lemma join_nonempty (sep p : JsString.t) (parts : list JsString.t) :
  p <> [] -> JsString.join sep (p :: parts) <> [].
Proof.
  intros Hp. destruct parts as [|q parts]; cbn [JsString.join];
    [exact Hp|].
  destruct p; [contradiction|discriminate].
Qed.

Lemma sliceLast_nil (A : Type) (n : nat) (l : list A) :
  (0 < n)%nat -> (JsString.sliceLast n l = [] <-> l = []).
Proof.
  intros Hn. unfold JsString.sliceLast. split; intros H.
  - apply (f_equal (@length A)) in H. rewrite length_skipn in H.
    cbn [length] in H. destruct l; [reflexivity|]. cbn [length] in H. lia.
  - subst. reflexivity.
Qed.

(** X16: The record handed to the prompt is empty exactly when there is nothing
    to say: fewer than five reviewed calls, no weekly score and no strategy
    note. *)
Theorem getPerformanceContext_empty_iff (data : PerformanceData) :
  getPerformanceContext data = []
  <-> (length (filter isReviewed (recommendations data)) < 5)%nat
      /\ weeklyScores data = [] /\ strategyNotes data = [].
Proof.
  unfold getPerformanceContext.
  set (reviewed := filter isReviewed (recommendations data)).
  destruct (Nat.leb_spec 5 (length reviewed)) as [Hrev|Hrev].
  - split; [|intros [H _]; lia].
    intros H. exfalso. revert H.
    destruct (Nat.ltb 0 (length (JsString.sliceLast 4 (weeklyScores data))));
      destruct (Nat.ltb 0 (length (strategyNotes data)));
      cbn [app length Nat.ltb Nat.leb];
      apply join_nonempty; discriminate.
  - destruct (weeklyScores data) as [|w ws] eqn:Ew.
    + cbn [JsString.sliceLast length Nat.sub skipn Nat.ltb Nat.leb app].
      destruct (strategyNotes data) as [|n ns] eqn:En.
      * cbn [length Nat.ltb Nat.leb app].
        split; [intros _; split; [exact Hrev|split; reflexivity]|reflexivity].
      * cbn [length Nat.ltb Nat.leb app].
        split; [|intros [_ [_ H]]; discriminate].
        intros H. exfalso. revert H. apply join_nonempty. discriminate.
    + assert (Hw : JsString.sliceLast 4 (w :: ws) <> []).
      { intros E. apply sliceLast_nil in E; [discriminate|lia]. }
      destruct (JsString.sliceLast 4 (w :: ws)) as [|w' ws'] eqn:Es;
        [contradiction|].
      split; [|intros [_ [H _]]; discriminate].
      intros H. exfalso. revert H.
      destruct (Nat.ltb 0 (length (strategyNotes data)));
        cbn [app length Nat.ltb Nat.leb];
        apply join_nonempty; discriminate.
Qed.

End PromptContext.

(* ================================================================== *)
(** ** The files of the briefs and their weeks *)
(* ================================================================== *)

Section BriefFiles.
Import JsDate Regex Scheduler BrainManager.
Local Open Scope Z_scope.

Lemma digit_isDigit (n : Z) : JsString.isDigit (JsString.digit (n mod 10)) = true.
Proof.
  pose proof (Z.mod_pos_bound n 10 ltac:(lia)) as H.
  unfold JsString.isDigit, JsString.digit.
  apply andb_true_intro. split; apply N.leb_le; lia.
Qed.

Lemma digitsValue_snoc (ds : JsString.t) (c : N) :
  digitsValue (ds ++ [c]) = digitsValue ds * 10 + (Z.of_N c - 48).
Proof. unfold digitsValue. rewrite fold_left_app. reflexivity. Qed.

Lemma digitsValue_pad (w : nat) :
  forall n, 0 <= n < 10 ^ Z.of_nat w -> digitsValue (JsString.pad w n) = n.
Proof.
  induction w as [|w IH]; intros n Hn.
  - change (10 ^ Z.of_nat 0) with 1 in Hn. assert (n = 0) by lia. subst.
    reflexivity.
  - rewrite Nat2Z.inj_succ, Z.pow_succ_r in Hn by lia.
    rewrite pad_succ, digitsValue_snoc.
    rewrite IH by (split; [apply Z.div_pos; lia
                          |apply Z.div_lt_upper_bound; lia]).
    pose proof (Z.mod_pos_bound n 10 ltac:(lia)).
    pose proof (Z.div_mod n 10 ltac:(lia)).
    unfold JsString.digit. lia.
Qed.

Lemma pad_length (w : nat) (n : Z) : length (JsString.pad w n) = w.
Proof.
  revert n. induction w as [|w IH]; intros n; [reflexivity|].
  rewrite pad_succ, length_app, IH. simpl. lia.
Qed.

Lemma firstn_pad (w : nat) (n : Z) (rest : JsString.t) :
  firstn w (JsString.pad w n ++ rest) = JsString.pad w n.
Proof.
  rewrite firstn_app, pad_length, Nat.sub_diag, firstn_O, app_nil_r.
  apply firstn_all2. rewrite pad_length. lia.
Qed.

Lemma skipn_pad (w : nat) (n : Z) (rest : JsString.t) :
  skipn w (JsString.pad w n ++ rest) = rest.
Proof.
  rewrite skipn_app, pad_length, Nat.sub_diag.
  rewrite skipn_all2 by (rewrite pad_length; lia). reflexivity.
Qed.

(** [new Date] reads the date that [toISOString] writes for a day of the
    years 0 to 9999 as the midnight that begins that day. *)
Lemma parseISODate_isoDateOfDay (day : Z) :
  fourDigitYear day ->
  parseISODate (isoDateOfDay day) = Some (MakeDate day 0).
Proof.
  intros Hday.
  pose proof (civilFromDays_fields day Hday) as Hf.
  pose proof (daysFromCivil_civilFromDays day) as Hd.
  unfold isoDateOfDay, parseISODate.
  destruct (civilFromDays day) as [[y m] d].
  destruct Hf as [Hy [Hm Hdd]]. destruct Hd as [Hd _].
  unfold isoYear.
  replace ((0 <=? y) && (y <=? 9999)) with true
    by (symmetry; apply andb_true_intro; split; apply Z.leb_le; lia).
  assert (Hdash : forall x : JsString.t, js "-" ++ x = 45%N :: x)
    by reflexivity.
  rewrite !Hdash.
  set (rest := 45%N :: JsString.pad 2 m ++ 45%N :: JsString.pad 2 d).
  assert (E5 : skipn 5 (JsString.pad 4 y ++ rest)
               = JsString.pad 2 m ++ 45%N :: JsString.pad 2 d).
  { change 5%nat with (1 + 4)%nat. rewrite <- skipn_skipn, skipn_pad.
    reflexivity. }
  assert (E8 : skipn 8 (JsString.pad 4 y ++ rest) = JsString.pad 2 d ++ []).
  { change 8%nat with (1 + (2 + (1 + 4)))%nat.
    rewrite <- !skipn_skipn, skipn_pad.
    change (skipn 1 rest) with (JsString.pad 2 m ++ 45%N :: JsString.pad 2 d).
    rewrite skipn_pad. symmetry. apply app_nil_r. }
  rewrite E5, E8, !firstn_pad.
  rewrite (digitsValue_pad 4), !(digitsValue_pad 2)
    by (try change (10 ^ Z.of_nat 4) with 10000;
        try change (10 ^ Z.of_nat 2) with 100; lia).
  replace ((1 <=? m) && (m <=? 12) && (1 <=? d) && (d <=? 31)) with true
    by (symmetry; repeat (apply andb_true_intro; split); apply Z.leb_le; lia).
  do 2 f_equal. unfold MakeDay.
  rewrite Z.div_small, Z.mod_small, Z.add_0_r by lia.
  replace (m - 1 + 1) with m by lia.
  rewrite <- Hd. unfold daysFromCivil. lia.
Qed.

End BriefFiles.
Section BriefWeeks.
Import JsDate Regex Scheduler BrainManager.
Local Open Scope Z_scope.

Lemma isoDateOfDay_shape (day : Z) :
  fourDigitYear day ->
  exists a b c d e f g h,
    isoDateOfDay day = [a; b; c; d; 45%N; e; f; 45%N; g; h]
    /\ forallb JsString.isDigit [a; b; c; d; e; f; g; h] = true.
Proof.
  intros Hday. pose proof (civilFromDays_fields day Hday) as Hf.
  unfold isoDateOfDay. destruct (civilFromDays day) as [[y m] d].
  destruct Hf as [Hy _]. unfold isoYear.
  replace ((0 <=? y) && (y <=? 9999)) with true
    by (symmetry; apply andb_true_intro; split; apply Z.leb_le; lia).
  do 8 eexists. split; [reflexivity|].
  cbn [forallb]. rewrite !digit_isDigit. reflexivity.
Qed.

Lemma matchAt_date (a b c d e f g h : N) (rest : JsString.t) :
  forallb JsString.isDigit [a; b; c; d; e; f; g; h] = true ->
  matchAt dateRe ([a; b; c; d; 45%N; e; f; 45%N; g; h] ++ rest)
  = Some (mkResult [a; b; c; d; 45%N; e; f; 45%N; g; h]
            [(1%nat, [a; b; c; d; 45%N; e; f; 45%N; g; h])] rest).
Proof.
  intros H. cbn [forallb] in H.
  repeat (apply andb_prop in H; destruct H as [? H]).
  unfold matchAt, dateRe.
  cbn [run seqs Times digit chr app].
  repeat match goal with
         | Hd : JsString.isDigit ?x = true |- _ => rewrite Hd; clear Hd
         end.
  cbn [N.eqb Pos.eqb].
  change (a :: b :: c :: d :: 45%N :: e :: f :: 45%N :: g :: h :: rest)
    with ([a; b; c; d; 45%N; e; f; 45%N; g; h] ++ rest).
  rewrite !consumed_app. reflexivity.
Qed.

Lemma search_date_behind (pre : JsString.t) (day : Z) (rest : JsString.t) :
  fourDigitYear day ->
  (forall i s, (i < length pre)%nat ->
     matchAt dateRe (skipn i (pre ++ s)) = None) ->
  exists m, search dateRe (pre ++ isoDateOfDay day ++ rest) = Some m
            /\ group 1 m = isoDateOfDay day.
Proof.
  intros Hday Hpre.
  rewrite search_skip by (intros i Hi; apply Hpre; exact Hi).
  destruct (isoDateOfDay_shape day Hday)
    as [a [b [c [d [e [f [g [h [-> Hdig]]]]]]]]].
  eexists. split.
  - destruct (([a; b; c; d; 45%N; e; f; 45%N; g; h] ++ rest)) eqn:E;
      [discriminate|].
    cbn [search]. rewrite <- E, (matchAt_date _ _ _ _ _ _ _ _ rest Hdig).
    reflexivity.
  - unfold group. cbn [groups capture Nat.eqb]. reflexivity.
Qed.

Lemma startsWith_prefix (p s : JsString.t) :
  JsString.startsWith (p ++ s) p = true.
Proof.
  induction p as [|c p IH]; [destruct s; reflexivity|].
  cbn [app JsString.startsWith]. rewrite N.eqb_refl. exact IH.
Qed.

Lemma brief_names_daily (s : JsString.t) :
  isDaily (js "morning-brief-" ++ s) = true
  /\ isDaily (js "eod-recap-" ++ s) = true.
Proof.
  unfold isDaily, dailyPatterns. cbn [existsb].
  rewrite !startsWith_prefix. split; [reflexivity|].
  apply orb_true_r.
Qed.

(** X17: The files the briefs save are filed by the consolidation under the
    Monday of their week: the briefs run from Monday to Friday, their
    files are named by the date in New York, which the consolidation finds
    in the name and reads back as that day, and the week key is the date
    of the Monday on or before it. *)
Theorem brief_is_filed_under_its_monday (now : time) :
  fourDigitYear (Day (toNewYorkWallClock now)) -> isWeekday now = true ->
  let day := Day (toNewYorkWallClock now) in
  let monday := day - WeekDayOfDay day + 1 in
  (forall n, n = morningBriefFile now \/ n = eodRecapFile now ->
     isDaily n = true
     /\ exists m, search dateRe n = Some m
                  /\ group 1 m = getTodayET now
                  /\ weekKeyOf (group 1 m) = Some (isoDateOfDay monday))
  /\ WeekDayOfDay monday = 1 /\ monday <= day <= monday + 4.
Proof.
  intros Hyear Hweek. cbv zeta.
  set (day := Day (toNewYorkWallClock now)) in *.
  split.
  - assert (Hkey : weekKeyOf (isoDateOfDay day)
                   = Some (isoDateOfDay (day - WeekDayOfDay day + 1))).
    { rewrite (weekKeyOf_day _ _ (parseISODate_isoDateOfDay day Hyear)).
      unfold WeekDay. rewrite Day_MakeDate. reflexivity. }
    intros n [-> | ->]; unfold morningBriefFile, eodRecapFile;
      rewrite getTodayET_day; fold day.
    + split; [apply brief_names_daily|].
      destruct (search_date_behind (js "morning-brief-") day (js ".md") Hyear)
        as [m [Hm Hg]].
      { intros i s Hi.
        do 14 (destruct i as [|i]; [reflexivity|]). simpl in Hi. lia. }
      exists m. rewrite Hg. auto.
    + split; [apply brief_names_daily|].
      destruct (search_date_behind (js "eod-recap-") day (js ".md") Hyear)
        as [m [Hm Hg]].
      { intros i s Hi.
        do 10 (destruct i as [|i]; [reflexivity|]). simpl in Hi. lia. }
      exists m. rewrite Hg. auto.
  - unfold isWeekday in Hweek. apply andb_prop in Hweek.
    destruct Hweek as [H1 H5]. apply Z.leb_le in H1, H5.
    unfold WeekDay in H1, H5. fold day in H1, H5.
    destruct (monday_of_week day) as [Hmon [Hin _]]. cbv zeta in Hmon, Hin.
    split; [exact Hmon|]. lia.
Qed.

Lemma brief_is_filed_under_its_monday_witness :
  let day := Day (toNewYorkWallClock Examples.nightlyTime) in
  let monday := day - WeekDayOfDay day + 1 in
  (forall n,
     n = morningBriefFile Examples.nightlyTime
     \/ n = eodRecapFile Examples.nightlyTime ->
     isDaily n = true
     /\ exists m, search dateRe n = Some m
                  /\ group 1 m = getTodayET Examples.nightlyTime
                  /\ weekKeyOf (group 1 m) = Some (isoDateOfDay monday))
  /\ WeekDayOfDay monday = 1 /\ monday <= day <= monday + 4.
Proof.
  apply (brief_is_filed_under_its_monday Examples.nightlyTime).
  - unfold fourDigitYear. vm_compute. split; discriminate.
  - vm_compute. reflexivity.
Defined.

End BriefWeeks.

(* ================================================================== *)
(** ** The accuracy of a week *)
(* ================================================================== *)

Section Percentages.
Import JsDate Performance Scheduler.
Local Open Scope Z_scope.

Lemma upTo_In (n k : Z) : 0 <= k <= n -> In k (upTo n).
Proof.
  intros H. unfold upTo. apply in_map_iff. exists (Z.to_nat k).
  split; [lia|]. apply in_seq. lia.
Qed.

(** The sum of the correct calls and half the partial ones is the double
    of half their weighted count, for counts up to 200. *)
Lemma halves_agree :
  forallb
    (fun c =>
       forallb
         (fun p =>
            PrimFloat.Leibniz.eqb (number c + number p * 0.5)%float
              (number (2 * c + p) * 0.5)%float)
         (upTo 200))
    (upTo 200) = true.
Proof. vm_compute. reflexivity. Qed.

(** The percentages of up to 200 calls lie between 0 and 100, 0 for no
    half call and 100 for two halves a call. *)
Lemma percents_in_range :
  forallb
    (fun total =>
       (percentOfHalves 0 total =? 0)
       && (percentOfHalves (2 * total) total =? 100)
       && forallb
            (fun k =>
               (0 <=? percentOfHalves k total)
               && (percentOfHalves k total <=? 100))
            (upTo (2 * total)))
    (map Z.of_nat (seq 1 200)) = true.
Proof. vm_compute. reflexivity. Qed.

Lemma accuracyOf_halves (c p total : Z) :
  0 <= c <= 200 -> 0 <= p <= 200 ->
  accuracyOf c p total = percentOfHalves (2 * c + p) total.
Proof.
  intros Hc Hp.
  pose proof halves_agree as H. rewrite forallb_forall in H.
  specialize (H c (upTo_In 200 c Hc)). rewrite forallb_forall in H.
  specialize (H p (upTo_In 200 p Hp)).
  apply FloatAxioms.Leibniz.eqb_spec in H.
  unfold accuracyOf, percentOfHalves. rewrite H. reflexivity.
Qed.

Lemma percentOfHalves_range (k total : Z) :
  0 < total <= 200 -> 0 <= k <= 2 * total ->
  0 <= percentOfHalves k total <= 100
  /\ percentOfHalves 0 total = 0
  /\ percentOfHalves (2 * total) total = 100.
Proof.
  intros Ht Hk.
  pose proof percents_in_range as H. rewrite forallb_forall in H.
  assert (Hin : In total (map Z.of_nat (seq 1 200))).
  { apply in_map_iff. exists (Z.to_nat total). split; [lia|].
    apply in_seq. lia. }
  specialize (H total Hin).
  apply andb_prop in H. destruct H as [H Hall].
  apply andb_prop in H. destruct H as [H0 H100].
  apply Z.eqb_eq in H0, H100.
  rewrite forallb_forall in Hall.
  specialize (Hall k (upTo_In _ k Hk)).
  apply andb_prop in Hall. destruct Hall as [Hlo Hhi].
  apply Z.leb_le in Hlo, Hhi. tauto.
Qed.

Lemma count_nonneg (o : Outcome) (l : list Recommendation) : 0 <= count o l.
Proof. unfold count. lia. Qed.

(** X18: In a ledger within its cap of 200 recommendations, the score of a
    weekly review counts each call of the week once, as correct, wrong or
    partial, and its accuracy is a percentage: between 0 and 100, 100 when
    every call is correct and 0 when every call is wrong. *)
Theorem weeklyScoreOf_is_a_percentage (now : time) (data : PerformanceData)
    (response : JsString.t) :
  (length (recommendations data) <= 200)%nat ->
  thisWeek now data <> [] ->
  let score := weeklyScoreOf now (thisWeek now data) response in
  correctCalls score + wrongCalls score + partialCalls score
  = totalCalls score
  /\ 0 <= correctCalls score /\ 0 <= wrongCalls score
  /\ 0 <= partialCalls score
  /\ 0 <= accuracy score <= 100
  /\ (correctCalls score = totalCalls score -> accuracy score = 100)
  /\ (wrongCalls score = totalCalls score -> accuracy score = 0).
Proof.
  intros Hcap Hne. cbv zeta.
  unfold weeklyScoreOf.
  cbn [correctCalls wrongCalls partialCalls totalCalls accuracy].
  set (calls := thisWeek now data) in *.
  pose proof (count_reviewed calls (thisWeek_reviewed now data)) as Hsum.
  pose proof (count_nonneg correct calls) as Hc.
  pose proof (count_nonneg wrong calls) as Hw.
  pose proof (count_nonneg partial calls) as Hp.
  assert (Hlen : 0 < Z.of_nat (length calls) <= 200).
  { split.
    - destruct calls; [contradiction|]. cbn [length]. lia.
    - pose proof (filter_length_le
                    (fun r => JsString.geb (date r)
                                (isoDay (now - 7 * 24 * 60 * 60 * 1000))
                              && isReviewed r)
                    (recommendations data)) as Hle.
      fold (thisWeek now data) in Hle. fold calls in Hle. lia. }
  rewrite accuracyOf_halves by lia.
  destruct (percentOfHalves_range
              (2 * count correct calls + count partial calls)
              (Z.of_nat (length calls)) Hlen ltac:(lia))
    as [Hrange [H0 H100]].
  repeat split; try lia.
  - intros E.
    replace (2 * count correct calls + count partial calls)
      with (2 * Z.of_nat (length calls)) by lia.
    exact H100.
  - intros E.
    replace (2 * count correct calls + count partial calls) with 0 by lia.
    exact H0.
Qed.

Lemma weeklyScoreOf_is_a_percentage_witness :
  let score :=
    weeklyScoreOf Examples.weeklyTime
      (thisWeek Examples.weeklyTime Examples.reviewedLedger)
      Examples.weeklyResponse in
  correctCalls score + wrongCalls score + partialCalls score
  = totalCalls score
  /\ 0 <= correctCalls score /\ 0 <= wrongCalls score
  /\ 0 <= partialCalls score
  /\ 0 <= accuracy score <= 100
  /\ (correctCalls score = totalCalls score -> accuracy score = 100)
  /\ (wrongCalls score = totalCalls score -> accuracy score = 0).
Proof.
  apply (weeklyScoreOf_is_a_percentage Examples.weeklyTime
           Examples.reviewedLedger Examples.weeklyResponse).
  - simpl. lia.
  - vm_compute. discriminate.
Defined.

End Percentages.

(* ================================================================== *)
(** ** The texts the reviews take from an answer *)
(* ================================================================== *)

Section CapturedText.
Import JsDate Regex Performance Scheduler.
Local Open Scope Z_scope.

Lemma consumes_Eps (p : N -> bool) : consumes p Eps.
Proof.
  intros R s caps k x H. exists [], s. cbn [run] in H. auto.
Qed.

Lemma consumes_Chr (p q : N -> bool) :
  (forall c, q c = true -> p c = true) -> consumes p (Chr q).
Proof.
  intros Hq R s caps k x H. cbn [run] in H.
  destruct s as [|c s]; [discriminate|].
  destruct (q c) eqn:Hc; [|discriminate].
  exists [c], s. split; [reflexivity|]. split; [|exact H].
  cbn [forallb]. rewrite (Hq c Hc). reflexivity.
Qed.

Lemma consumes_Seq (p : N -> bool) (r1 r2 : re) :
  consumes p r1 -> consumes p r2 -> consumes p (Seq r1 r2).
Proof.
  intros H1 H2 R s caps k x H. cbn [run] in H.
  destruct (H1 _ _ _ _ _ H) as [W1 [s1 [-> [HW1 Hk1]]]].
  destruct (H2 _ _ _ _ _ Hk1) as [W2 [s2 [-> [HW2 Hk2]]]].
  exists (W1 ++ W2), s2. rewrite <- app_assoc. split; [reflexivity|].
  split; [|exact Hk2]. rewrite forallb_app, HW1, HW2. reflexivity.
Qed.

Lemma consumes_Alt (p : N -> bool) (r1 r2 : re) :
  consumes p r1 -> consumes p r2 -> consumes p (Alt r1 r2).
Proof.
  intros H1 H2 R s caps k x H. cbn [run] in H.
  destruct (run r1 s caps k) as [y|] eqn:E.
  - injection H as <-. apply (H1 _ _ _ _ _ E).
  - apply (H2 _ _ _ _ _ H).
Qed.

Lemma starFrom_consumes (p q : N -> bool) (R : Type)
    (k : JsString.t -> captures -> option R) (caps : captures) (x : R) :
  (forall c, q c = true -> p c = true) ->
  forall (fuel : nat) (s : JsString.t),
    starFrom (Chr q) k fuel s caps = Some x ->
    exists W s', s = W ++ s' /\ forallb p W = true /\ k s' caps = Some x.
Proof.
  intros Hq. induction fuel as [|fuel IH]; intros s H; cbn [starFrom] in H.
  - exists [], s. auto.
  - destruct s as [|c s]; cbn [run] in H; [exists [], []; auto|].
    destruct (q c) eqn:Hc; [|exists [], (c :: s); auto].
    destruct (Nat.ltb (length s) (length (c :: s))).
    + destruct (starFrom (Chr q) k fuel s caps) as [y|] eqn:E.
      * injection H as <-. destruct (IH s E) as [W [s' [-> [HW Hk]]]].
        exists (c :: W), s'. split; [reflexivity|]. split; [|exact Hk].
        cbn [forallb]. rewrite (Hq c Hc), HW. reflexivity.
      * exists [], (c :: s). auto.
    + exists [], (c :: s). auto.
Qed.

Lemma consumes_Star (p q : N -> bool) :
  (forall c, q c = true -> p c = true) -> consumes p (Star (Chr q)).
Proof.
  intros Hq R s caps k x H. rewrite run_Star in H.
  apply (starFrom_consumes p q R k caps x Hq _ _ H).
Qed.

Lemma consumes_seqOf (p : N -> bool) (f : N -> re) (pat : JsString.t) :
  (forall c, consumes p (f c)) -> consumes p (seqOf f pat).
Proof.
  intros Hf. induction pat as [|c pat IH]; [apply consumes_Eps|].
  destruct pat as [|c' pat]; [apply Hf|].
  change (seqOf f (c :: c' :: pat)) with (Seq (f c) (seqOf f (c' :: pat))).
  apply consumes_Seq; [apply Hf|exact IH].
Qed.

Lemma consumes_Times (p : N -> bool) (r : re) (n : nat) :
  consumes p r -> consumes p (Times n r).
Proof.
  intros Hr. induction n as [|n IH]; [apply consumes_Eps|].
  apply consumes_Seq; assumption.
Qed.

Lemma consumes_UpTo (p : N -> bool) (r : re) (n : nat) :
  consumes p r -> consumes p (UpTo n r).
Proof.
  intros Hr. induction n as [|n IH]; [apply consumes_Eps|].
  apply consumes_Alt; [apply consumes_Seq; assumption|apply consumes_Eps].
Qed.

Lemma captures1_Group (p : N -> bool) (r : re) :
  consumes p r -> captures1 p (Group 1 r).
Proof.
  intros Hr s caps k m Hk H. cbn [run] in H.
  destruct (Hr _ _ _ _ _ H) as [W [s' [-> [HW Hm]]]].
  apply Hk in Hm. unfold group. rewrite Hm. cbn [capture Nat.eqb].
  rewrite consumed_app. exact HW.
Qed.

Lemma captures1_Seq (p q : N -> bool) (r1 r2 : re) :
  consumes q r1 -> captures1 p r2 -> captures1 p (Seq r1 r2).
Proof.
  intros H1 H2 s caps k m Hk H. cbn [run] in H.
  destruct (H1 _ _ _ _ _ H) as [W [s' [_ [_ Hm]]]].
  apply (H2 _ _ _ _ Hk Hm).
Qed.

Lemma search_found (r : re) (s : JsString.t) (m : result) :
  search r s = Some m -> exists i, matchAt r (skipn i s) = Some m.
Proof.
  induction s as [|c s IH]; cbn [search]; intros H.
  - destruct (matchAt r []) eqn:E; [|discriminate]. exists 0%nat.
    cbn [skipn]. congruence.
  - destruct (matchAt r (c :: s)) eqn:E.
    + exists 0%nat. cbn [skipn]. congruence.
    + destruct (IH H) as [i Hi]. exists (S i). exact Hi.
Qed.

Lemma captures1_search (p : N -> bool) (r : re) (s : JsString.t)
    (m : result) :
  captures1 p r -> search r s = Some m -> forallb p (group 1 m) = true.
Proof.
  intros Hr H. destruct (search_found r s m H) as [i Hi].
  unfold matchAt in Hi.
  refine (Hr _ _ _ _ _ Hi).
  intros s' caps' m' E. injection E as <-. reflexivity.
Qed.

Lemma forallb_trim (p : N -> bool) (s : JsString.t) :
  forallb p s = true -> forallb p (JsString.trim s) = true.
Proof.
  intros H. unfold JsString.trim.
  destruct (trimStart_split s) as [w [E _]].
  rewrite E, forallb_app in H. apply andb_prop in H. destruct H as [_ H].
  destruct (trimEnd_split (JsString.trimStart s)) as [w' [E' _]].
  rewrite E', forallb_app in H. apply andb_prop in H. tauto.
Qed.

Lemma forallb_firstn (A : Type) (p : A -> bool) (n : nat) (l : list A) :
  forallb p l = true -> forallb p (firstn n l) = true.
Proof.
  intros H. rewrite <- (firstn_skipn n l), forallb_app in H.
  apply andb_prop in H. tauto.
Qed.

Lemma dot_one_line : consumes (fun c => negb (JsString.isLineTerminator c)) dot.
Proof. apply consumes_Chr. auto. Qed.

Lemma lessonRe_one_line :
  captures1 (fun c => negb (JsString.isLineTerminator c)) lessonRe.
Proof.
  unfold lessonRe. cbn [seqs].
  apply (captures1_Seq _ (fun _ => true));
    [apply consumes_seqOf; intros c; apply consumes_Chr; auto|].
  apply (captures1_Seq _ (fun _ => true));
    [apply consumes_Star; auto|].
  apply captures1_Group. apply consumes_Seq;
    [apply dot_one_line|apply consumes_Star; auto].
Qed.

Lemma keywordRe_one_line (w1 w2 : string) :
  captures1 (fun c => negb (JsString.isLineTerminator c)) (keywordRe w1 w2).
Proof.
  unfold keywordRe. cbn [seqs].
  apply (captures1_Seq _ (fun _ => true));
    [apply consumes_seqOf; intros c; apply consumes_Chr; auto|].
  apply (captures1_Seq _ (fun _ => true));
    [apply consumes_Star; auto|].
  apply (captures1_Seq _ (fun _ => true));
    [apply consumes_seqOf; intros c; apply consumes_Chr; auto|].
  apply (captures1_Seq _ (fun _ => true));
    [apply consumes_Star; auto|].
  apply captures1_Group. apply consumes_Seq;
    [apply consumes_Times|apply consumes_UpTo]; apply dot_one_line.
Qed.

Lemma weeklyLessonRe_one_line :
  captures1 (fun c => negb (JsString.isLineTerminator c)) weeklyLessonRe.
Proof.
  unfold weeklyLessonRe. cbn [seqs].
  apply (captures1_Seq _ (fun _ => true));
    [apply consumes_seqOf; intros c; apply consumes_Chr; auto|].
  apply (captures1_Seq _ (fun _ => true));
    [apply consumes_Star; auto|].
  apply captures1_Group. apply consumes_Seq;
    [apply consumes_Times|apply consumes_UpTo]; apply dot_one_line.
Qed.

Lemma extract_one_line (r : re) (fallback : string) (response : JsString.t) :
  captures1 (fun c => negb (JsString.isLineTerminator c)) r ->
  oneLine (js fallback) = true ->
  oneLine (extract r fallback response) = true
  /\ (length (js fallback) <= 200 ->
      length (extract r fallback response) <= 200)%nat.
Proof.
  intros Hr Hf. unfold extract.
  destruct (search r response) as [m|] eqn:E; [|tauto].
  split.
  - unfold oneLine, JsString.slice0. apply forallb_firstn, forallb_trim.
    apply (captures1_search _ r response m Hr E).
  - intros _. unfold JsString.slice0. rewrite length_firstn. lia.
Qed.

(** X19: What the reviews take from an answer and store is a single line: the
    lesson of the nightly review, which becomes a strategy note, has no
    line terminator in it, and the best call, the worst call and the lesson
    of a weekly score have none and at most 200 code units, whatever the
    answer. *)
Theorem texts_from_answers_are_single_lines (response : JsString.t) :
  match parseLesson response with
  | Some l => oneLine l = true
  | None => True
  end
  /\ forall now calls,
       let score := weeklyScoreOf now calls response in
       oneLine (bestCall score) = true /\ (length (bestCall score) <= 200)%nat
       /\ oneLine (worstCall score) = true
       /\ (length (worstCall score) <= 200)%nat
       /\ oneLine (lesson score) = true
       /\ (length (lesson score) <= 200)%nat.
Proof.
  split.
  - unfold parseLesson.
    destruct (search lessonRe response) as [m|] eqn:E; [|exact I].
    cbn [option_map]. apply forallb_trim.
    apply (captures1_search _ lessonRe response m lessonRe_one_line E).
  - intros now calls. cbv zeta. unfold weeklyScoreOf.
    cbn [bestCall worstCall lesson].
    destruct (extract_one_line bestRe "N/A" response
                (keywordRe_one_line _ _) eq_refl) as [B1 B2].
    destruct (extract_one_line worstRe "N/A" response
                (keywordRe_one_line _ _) eq_refl) as [W1 W2].
    destruct (extract_one_line weeklyLessonRe
                "Keep refining analysis approach" response
                weeklyLessonRe_one_line eq_refl) as [L1 L2].
    repeat split; try assumption;
      [apply B2|apply W2|apply L2]; vm_compute; lia.
Qed.

End CapturedText.
